(** * vipex: a fluent builder for chart option trees

    Shallow embedding of [src/main.ts].  The builder keeps one option tree
    ([Chart._options]) and mutates it in place through component objects
    (axis, tooltip, legend, grid, data labels, markers, theme, plot options).

    The tree is modelled as a document: a value is undefined, null, a
    boolean, a number, a string, an opaque host object (a formatter
    function, a [Date]), an array or a plain object.  Plain objects are
    finite maps from property names to values, so that two trees are equal
    exactly when they have the same properties with equal values, whatever
    the insertion order.  Documents are trees: no object occurs at two
    places.  Numbers are integers; the builder never computes with them, it
    only tests them for truthiness.

    A local variable that holds an object of the tree ([axisConfig],
    [tooltip], [current], ...) is modelled by the access path of that
    object from [_options]; none of the modelled functions re-seats a slot
    on the path of a variable it still uses, so reading and writing through
    the path is what reading and writing through the reference does.

    What the axis builder does to the elements of a sequence of y axes
    depends on the identity of objects: two elements can be one object.
    For that the axis builder is modelled a second time over a heap of
    objects (module [Heap]), in which a write changes the object that a
    reference names.

    The module is strict-mode code (an ES module of classes): assigning a
    property on undefined, null or a primitive raises [TypeError]. *)

From Stdlib Require Import ZArith.
From stdpp Require Import gmap strings list fin_maps pretty.

Set Warnings "-register-all".
Local Open Scope string_scope.
Local Open Scope list_scope.

(** ** Values *)

Inductive value : Type :=
| VUndefined
| VNull
| VBool (b : bool)
| VNum (n : Z)
| VStr (s : string)
| VHost (id : nat)
| VArr (items : list value)
| VObj (props : gmap string value).

Abbreviation props := (gmap string value).
Abbreviation path := (list string).

(** The empty object literal [{}]. *)
Definition empty_obj : value := VObj ∅.

(** ToBoolean. *)
Definition truthy (v : value) : bool :=
  match v with
  | VUndefined | VNull => false
  | VBool b => b
  | VNum n => negb (n =? 0)%Z
  | VStr s => negb (String.eqb s EmptyString)
  | VHost _ | VArr _ | VObj _ => true
  end.

(** [v === undefined || v === null]. *)
Definition nullish (v : value) : bool :=
  match v with
  | VUndefined | VNull => true
  | _ => false
  end.

(** [a || b]. *)
Definition js_or (a b : value) : value := if truthy a then a else b.

(** [Array.isArray(v)]. *)
Definition isArray (v : value) : bool :=
  match v with
  | VArr _ => true
  | _ => false
  end.

(** ** Outcomes

    [TypeError] is the exception of the same name.  [Exotic] is not a
    JavaScript outcome: it marks a step whose result depends on something
    the document model leaves out (a member inherited from a built-in
    prototype, a named property or a hole of an array, a property of a host
    object), and no statement below is made about such a step. *)

Inductive error : Type := TypeError | Exotic.

Inductive outcome (A : Type) : Type :=
| Ret (a : A)
| Throw (e : error).
Arguments Ret {A} a.
Arguments Throw {A} e.

#[global] Instance outcome_ret : MRet outcome := @Ret.
#[global] Instance outcome_bind : MBind outcome := fun A B f m =>
  match m with
  | Ret a => f a
  | Throw e => Throw e
  end.

(** ** Property names *)

(** Members that every value inherits from [Object.prototype]. *)
Definition object_members : list string :=
  [ "__proto__"; "constructor"; "hasOwnProperty"; "isPrototypeOf";
    "propertyIsEnumerable"; "toLocaleString"; "toString"; "valueOf";
    "__defineGetter__"; "__defineSetter__"; "__lookupGetter__";
    "__lookupSetter__" ].

(** Further members of [Number.prototype]. *)
Definition number_members : list string :=
  [ "toExponential"; "toFixed"; "toPrecision" ].

(** Further members of [String.prototype]. *)
Definition string_members : list string :=
  [ "anchor"; "at"; "big"; "blink"; "bold"; "charAt"; "charCodeAt";
    "codePointAt"; "concat"; "endsWith"; "fixed"; "fontcolor"; "fontsize";
    "includes"; "indexOf"; "isWellFormed"; "italics"; "lastIndexOf"; "link";
    "localeCompare"; "match"; "matchAll"; "normalize"; "padEnd"; "padStart";
    "repeat"; "replace"; "replaceAll"; "search"; "slice"; "small"; "split";
    "startsWith"; "strike"; "sub"; "substr"; "substring"; "sup";
    "toLocaleLowerCase"; "toLocaleUpperCase"; "toLowerCase"; "toUpperCase";
    "toWellFormed"; "trim"; "trimEnd"; "trimLeft"; "trimRight"; "trimStart" ].

(** Further members of [Array.prototype]. *)
Definition array_members : list string :=
  [ "at"; "concat"; "copyWithin"; "entries"; "every"; "fill"; "filter";
    "find"; "findIndex"; "findLast"; "findLastIndex"; "flat"; "flatMap";
    "forEach"; "includes"; "indexOf"; "join"; "keys"; "lastIndexOf"; "map";
    "pop"; "push"; "reduce"; "reduceRight"; "reverse"; "shift"; "slice";
    "some"; "sort"; "splice"; "toReversed"; "toSorted"; "toSpliced";
    "unshift"; "values"; "with" ].

(** [k] names a member that a value with the further prototype members
    [extra] inherits. *)
Definition inherited (extra : list string) (k : string) : bool :=
  existsb (String.eqb k) (object_members ++ extra).

(** The property name of an array index. *)
Definition key_of_index (i : nat) : string := pretty i.

Fixpoint index_from (i n : nat) (k : string) : option nat :=
  match n with
  | O => None
  | S n' => if String.eqb (key_of_index i) k then Some i else index_from (S i) n' k
  end.

(** The index below [n] that the property name [k] denotes. *)
Definition index_in (n : nat) (k : string) : option nat := index_from 0 n k.

(** ** Own enumerable properties, property read and property write *)

Fixpoint indexed (i : nat) (items : list value) : props :=
  match items with
  | [] => ∅
  | x :: rest => <[key_of_index i := x]> (indexed (S i) rest)
  end.

(** The elements of a string. *)
Fixpoint units (s : string) : list value :=
  match s with
  | EmptyString => []
  | String a s' => VStr (String a EmptyString) :: units s'
  end.

(** What the spread [{...v}] copies. *)
Definition spread (v : value) : props :=
  match v with
  | VObj m => m
  | VArr items => indexed 0 items
  | VStr s => indexed 0 (units s)
  | _ => ∅
  end.

(** [{...a, ...b}]: the properties of [b] win. *)
Definition merge (a b : value) : value := VObj (spread b ∪ spread a).

(** A property that the value does not own: [undefined], unless the name
    is answered by a prototype. *)
Definition absent (extra : list string) (k : string) : outcome value :=
  if inherited extra k then Throw Exotic else Ret VUndefined.

(** An element, the length, or a property that a sequence does not own. *)
Definition get_item (extra : list string) (items : list value) (k : string)
  : outcome value :=
  match index_in (length items) k with
  | Some i => Ret (default VUndefined (items !! i))
  | None =>
      if String.eqb k "length" then Ret (VNum (Z.of_nat (length items)))
      else absent extra k
  end.

(** [v[k]], the value read. *)
Definition get_prop (v : value) (k : string) : outcome value :=
  match v with
  | VUndefined | VNull => Throw TypeError
  | VBool _ => absent [] k
  | VNum _ => absent number_members k
  | VStr s => get_item string_members (units s) k
  | VHost _ => Throw Exotic
  | VArr items => get_item array_members items k
  | VObj m =>
      match m !! k with
      | Some x => Ret x
      | None => absent [] k
      end
  end.

(** [v?.k]. *)
Definition get_prop_opt (v : value) (k : string) : outcome value :=
  if nullish v then Ret VUndefined else get_prop v k.

(** [v[k] = x], the value [v] has afterwards. *)
Definition put_prop (v : value) (k : string) (x : value) : outcome value :=
  match v with
  | VUndefined | VNull => Throw TypeError
  | VBool _ | VNum _ | VStr _ =>
      if String.eqb k "__proto__" then Throw Exotic else Throw TypeError
  | VHost _ => Throw Exotic
  | VArr items =>
      match index_in (length items) k with
      | Some i => Ret (VArr (<[i := x]> items))
      | None => Throw Exotic
      end
  | VObj m =>
      if String.eqb k "__proto__" then Throw Exotic else Ret (VObj (<[k := x]> m))
  end.

(** ** Access paths *)

(** [root.p1.p2. ... .pn]. *)
Fixpoint get_path (cur : value) (p : path) : outcome value :=
  match p with
  | [] => Ret cur
  | s :: p' => child ← get_prop cur s; get_path child p'
  end.

(** The tree after [at p] has been replaced by [new]. *)
Fixpoint plug (cur : value) (p : path) (new : value) : outcome value :=
  match p with
  | [] => Ret new
  | s :: p' =>
      child ← get_prop cur s;
      child' ← plug child p' new;
      put_prop cur s child'
  end.

(** [root.p1.p2. ... .pn[k] = x], the tree afterwards: the object at [p]
    is changed where it sits. *)
Definition put_path (root : value) (p : path) (k : string) (x : value)
  : outcome value :=
  target ← get_path root p;
  target' ← put_prop target k x;
  plug root p target'.

(** ** The builder state

    Every component keeps a reference to the one [Chart] it configures and
    reaches the tree through it; the model threads that chart through
    every call.  The plot-type components are created on demand by
    [PlotOptionsManager]; an object made by [new] is identified by its
    serial number. *)

Record instance : Type := Instance { serial : nat }.

Abbreviation BarOptions := instance.
Abbreviation PieOptions := instance.
Abbreviation RadialBarOptions := instance.
Abbreviation HeatmapOptions := instance.

Record PlotOptionsManager : Type := Manager {
  _bar : option BarOptions;
  _pie : option PieOptions;
  _radialBar : option RadialBarOptions;
  _heatmap : option HeatmapOptions
}.

Record Chart : Type := MkChart {
  _options : value;
  plotOptions : PlotOptionsManager;
  created : nat
}.

Definition with_options (o : value) (c : Chart) : Chart :=
  MkChart o (plotOptions c) (created c).

Definition with_manager (m : PlotOptionsManager) (c : Chart) : Chart :=
  MkChart (_options c) m (created c).

(** A method body: it reads and changes the chart, and returns or throws.
    What was written before a throw stays written. *)
Definition M (A : Type) : Type := Chart → outcome A * Chart.

#[global] Instance M_ret : MRet M := fun A a c => (Ret a, c).
#[global] Instance M_bind : MBind M := fun A B f m c =>
  match m c with
  | (Ret a, c') => f a c'
  | (Throw e, c') => (Throw e, c')
  end.

Definition lift {A : Type} (r : outcome A) : M A := fun c => (r, c).

(** [this.chart._options.p1. ... .pn] *)
Definition load (p : path) : M value :=
  fun c => (get_path (_options c) p, c).

(** [this.chart._options.p1. ... .pn[k] = x]: the object at [p] is changed
    where it is.  On a tree that is the tree with the new value at [p];
    options in which the object at [p] is at a second place are outside
    this model (see [Heap] for the axes). *)
Definition store (p : path) (k : string) (x : value) : M unit :=
  fun c =>
    match put_path (_options c) p k x with
    | Ret o => (Ret (), with_options o c)
    | Throw e => (Throw e, c)
    end.

(** The object at [p] becomes [new] (an in-place change such as [push]). *)
Definition update (p : path) (new : value) : M unit :=
  fun c =>
    match plug (_options c) p new with
    | Ret o => (Ret (), with_options o c)
    | Throw e => (Throw e, c)
    end.

(** [if (cond) body] *)
Definition when (cond : bool) (body : M unit) : M unit :=
  if cond then body else mret ().

(** [target.k = target.k || {}] *)
Definition ensure (target : path) (k : string) : M unit :=
  old ← load (target ++ [k]);
  store target k (js_or old empty_obj).

(** [{ ...a, ...config }] for a configuration object [config]. *)
Definition merge_config (a : value) (config : props) : value :=
  merge a (VObj config).

(** [target.k = { ...target.k, ...config }] *)
Definition assign_merged (target : path) (k : string) (config : props) : M unit :=
  old ← load (target ++ [k]);
  store target k (merge_config old config).

(** [target.k = { ...(target.k || {}), ...config }] *)
Definition assign_merged_or (target : path) (k : string) (config : props) : M unit :=
  old ← load (target ++ [k]);
  store target k (merge_config (js_or old empty_obj) config).

(** ** ChartComponent.setOption *)

(** [path.split('.')] *)
Fixpoint split_dot_aux (acc : string) (s : string) : list string :=
  match s with
  | EmptyString => [String.rev acc]
  | String a s' =>
      if (Ascii.nat_of_ascii a =? 46)%nat
      then String.rev acc :: split_dot_aux EmptyString s'
      else split_dot_aux (String a acc) s'
  end.

Definition split_dot (s : string) : list string := split_dot_aux EmptyString s.

(** The loop over all segments but the last; [current] is the object the
    walk has reached. *)
Fixpoint setOption_walk (current : path) (parts : list string) : M path :=
  match parts with
  | part :: (_ :: _) as rest =>
      child ← load (current ++ [part]);
      when (nullish child) (store current part empty_obj);;
      setOption_walk (current ++ [part]) rest
  | _ => mret current
  end.

(** [parts[parts.length - 1]] as a property name. *)
Definition last_part (parts : list string) : string :=
  List.last parts "undefined".

Definition setOption {T : Type} (this : T) (path : string) (v : value) : M T :=
  let parts := split_dot path in
  current ← setOption_walk [] parts;
  store current (last_part parts) v;;
  mret this.

(** ** Axis *)

Inductive axis_key : Type := xaxis | yaxis.

Definition axis_name (t : axis_key) : string :=
  match t with
  | xaxis => "xaxis"
  | yaxis => "yaxis"
  end.

Record Axis : Type := MkAxis { axisType : axis_key }.

Inductive AxisType : Type := category | datetime | numeric.

Definition AxisType_name (t : AxisType) : string :=
  match t with
  | category => "category"
  | datetime => "datetime"
  | numeric => "numeric"
  end.

(** The object the axis builder works on: [None] is the literal
    [undefined] that the method returns for an empty array. *)
Definition getAxisConfig (this : Axis) : M (option path) :=
  match axisType this with
  | xaxis => _ ← load ["xaxis"]; mret (Some ["xaxis"])
  | yaxis =>
      y ← load ["yaxis"];
      match y with
      | VArr items =>
          if (0 <? length items)%nat then mret (Some ["yaxis"; "0"]) else mret None
      | _ => mret (Some ["yaxis"])
      end
  end.

(** The value of the variable [axisConfig]. *)
Definition deref (r : option path) : M value :=
  match r with
  | Some p => load p
  | None => mret VUndefined
  end.

Definition target (r : option path) : path := default [] r.

(** The first block of the constructor: the slot of the axis exists. *)
Definition Axis_slot (type : axis_key) : M unit :=
  match type with
  | yaxis =>
      y ← load ["yaxis"];
      if negb (truthy y) then store [] "yaxis" empty_obj
      else match y with
           | VArr [] => update ["yaxis"] (VArr [empty_obj])
           | _ => mret ()
           end
  | xaxis =>
      x ← load ["xaxis"];
      when (negb (truthy x)) (store [] "xaxis" empty_obj)
  end.

(** The second block: the nested objects of the axis exist. *)
Definition Axis_nested (this : Axis) : M unit :=
  axisConfig ← getAxisConfig this;
  a ← deref axisConfig;
  when (truthy a)
    (ensure (target axisConfig) "title";;
     ensure (target axisConfig) "labels";;
     ensure (target axisConfig ++ ["labels"]) "style";;
     ensure (target axisConfig) "axisBorder";;
     ensure (target axisConfig) "axisTicks";;
     ensure (target axisConfig) "crosshairs").

Definition Axis_constructor (type : axis_key) : M Axis :=
  let this := MkAxis type in
  Axis_slot type;;
  Axis_nested this;;
  mret this.

Definition Axis_title (this : Axis) (text : string) : M Axis :=
  axisConfig ← getAxisConfig this;
  a ← deref axisConfig;
  t ← lift (get_prop_opt a "title");
  when (truthy t) (store (target axisConfig ++ ["title"]) "text" (VStr text));;
  mret this.

Definition Axis_categories (this : Axis) (categories : list value) : M Axis :=
  axisConfig ← getAxisConfig this;
  a ← deref axisConfig;
  when (truthy a) (store (target axisConfig) "categories" (VArr categories));;
  mret this.

Definition Axis_type (this : Axis) (type : AxisType) : M Axis :=
  axisConfig ← getAxisConfig this;
  a ← deref axisConfig;
  when (truthy a) (store (target axisConfig) "type" (VStr (AxisType_name type)));;
  mret this.

Definition Axis_labels (this : Axis) (config : props) : M Axis :=
  axisConfig ← getAxisConfig this;
  a ← deref axisConfig;
  when (truthy a)
    (ensure (target axisConfig) "labels";;
     assign_merged (target axisConfig) "labels" config;;
     style ← lift (get_prop (VObj config) "style");
     when (truthy style)
       (ensure (target axisConfig ++ ["labels"]) "style";;
        old ← load (target axisConfig ++ ["labels"; "style"]);
        store (target axisConfig ++ ["labels"]) "style" (merge old style)));;
  mret this.

Definition Axis_range (this : Axis) (min max : Z) : M Axis :=
  axisConfig ← getAxisConfig this;
  a ← deref axisConfig;
  when (truthy a)
    (store (target axisConfig) "min" (VNum min);;
     store (target axisConfig) "max" (VNum max));;
  mret this.

Definition Axis_tickAmount (this : Axis) (amount : Z) : M Axis :=
  axisConfig ← getAxisConfig this;
  a ← deref axisConfig;
  when (truthy a) (store (target axisConfig) "tickAmount" (VNum amount));;
  mret this.

Definition Axis_axisBorder (this : Axis) (config : props) : M Axis :=
  axisConfig ← getAxisConfig this;
  a ← deref axisConfig;
  when (truthy a) (assign_merged_or (target axisConfig) "axisBorder" config);;
  mret this.

Definition Axis_axisTicks (this : Axis) (config : props) : M Axis :=
  axisConfig ← getAxisConfig this;
  a ← deref axisConfig;
  when (truthy a) (assign_merged_or (target axisConfig) "axisTicks" config);;
  mret this.

Definition Axis_crosshairs (this : Axis) (config : props) : M Axis :=
  axisConfig ← getAxisConfig this;
  a ← deref axisConfig;
  when (truthy a) (assign_merged_or (target axisConfig) "crosshairs" config);;
  mret this.

(** ** Tooltip *)

Inductive Tooltip : Type := TheTooltip.

Definition Tooltip_constructor : M Tooltip :=
  t ← load ["tooltip"];
  when (negb (truthy t)) (store [] "tooltip" empty_obj);;
  let tooltip := ["tooltip"] in
  ensure tooltip "style";;
  ensure tooltip "x";;
  ensure tooltip "y";;
  mret TheTooltip.

Definition Tooltip_enabled (this : Tooltip) (enabled : bool) : M Tooltip :=
  store ["tooltip"] "enabled" (VBool enabled);; mret this.

Definition Tooltip_shared (this : Tooltip) (shared : bool) : M Tooltip :=
  store ["tooltip"] "shared" (VBool shared);; mret this.

Definition Tooltip_followCursor (this : Tooltip) (follow : bool) : M Tooltip :=
  store ["tooltip"] "followCursor" (VBool follow);; mret this.

Definition Tooltip_theme (this : Tooltip) (theme : string) : M Tooltip :=
  store ["tooltip"] "theme" (VStr theme);; mret this.

Definition Tooltip_style (this : Tooltip) (config : props) : M Tooltip :=
  let tooltip := ["tooltip"] in
  assign_merged tooltip "style" config;; mret this.

Definition Tooltip_custom (this : Tooltip) (formatter : nat) : M Tooltip :=
  store ["tooltip"] "custom" (VHost formatter);; mret this.

Definition Tooltip_xFormatter (this : Tooltip) (formatter : nat) : M Tooltip :=
  store ["tooltip"; "x"] "formatter" (VHost formatter);; mret this.

Definition Tooltip_yFormatter (this : Tooltip) (formatter : nat) : M Tooltip :=
  store ["tooltip"; "y"] "formatter" (VHost formatter);; mret this.

(** ** Legend *)

Inductive Legend : Type := TheLegend.

Definition Legend_constructor : M Legend :=
  l ← load ["legend"];
  when (negb (truthy l)) (store [] "legend" empty_obj);;
  let legend := ["legend"] in
  ensure legend "labels";;
  ensure legend "markers";;
  ensure legend "itemMargin";;
  mret TheLegend.

Definition Legend_show (this : Legend) (visible : bool) : M Legend :=
  store ["legend"] "show" (VBool visible);; mret this.

Definition Legend_position (this : Legend) (position : string) : M Legend :=
  store ["legend"] "position" (VStr position);; mret this.

Definition Legend_horizontalAlign (this : Legend) (align : string) : M Legend :=
  store ["legend"] "horizontalAlign" (VStr align);; mret this.

Definition Legend_fontSize (this : Legend) (size : string) : M Legend :=
  store ["legend"] "fontSize" (VStr size);; mret this.

Definition Legend_fontFamily (this : Legend) (family : string) : M Legend :=
  store ["legend"] "fontFamily" (VStr family);; mret this.

Definition Legend_labels (this : Legend) (config : props) : M Legend :=
  let legend := ["legend"] in
  assign_merged legend "labels" config;; mret this.

Definition Legend_markers (this : Legend) (config : props) : M Legend :=
  let legend := ["legend"] in
  assign_merged legend "markers" config;; mret this.

Definition Legend_itemMargin (this : Legend) (config : props) : M Legend :=
  let legend := ["legend"] in
  assign_merged legend "itemMargin" config;; mret this.

(** ** Grid *)

Inductive Grid : Type := TheGrid.

Definition Grid_constructor : M Grid :=
  g ← load ["grid"];
  when (negb (truthy g)) (store [] "grid" empty_obj);;
  let grid := ["grid"] in
  ensure grid "xaxis";;
  ensure (grid ++ ["xaxis"]) "lines";;
  ensure grid "yaxis";;
  ensure (grid ++ ["yaxis"]) "lines";;
  ensure grid "padding";;
  mret TheGrid.

Definition Grid_show (this : Grid) (visible : bool) : M Grid :=
  store ["grid"] "show" (VBool visible);; mret this.

Definition Grid_borderColor (this : Grid) (color : string) : M Grid :=
  store ["grid"] "borderColor" (VStr color);; mret this.

Definition Grid_strokeDashArray (this : Grid) (dashArray : Z) : M Grid :=
  store ["grid"] "strokeDashArray" (VNum dashArray);; mret this.

Definition Grid_position (this : Grid) (position : string) : M Grid :=
  store ["grid"] "position" (VStr position);; mret this.

(** [grid.a.lines = { ...(grid.a.lines || {}), ...config.lines }] after
    [grid.a = grid.a || {}], for [a] one of [xaxis] and [yaxis]. *)
Definition Grid_lines (a : string) (config : props) : M unit :=
  let grid := ["grid"] in
  ensure grid a;;
  old ← load (grid ++ [a; "lines"]);
  lines ← lift (get_prop (VObj config) "lines");
  store (grid ++ [a]) "lines" (merge (js_or old empty_obj) lines).

Definition Grid_xaxis (this : Grid) (config : props) : M Grid :=
  Grid_lines "xaxis" config;; mret this.

Definition Grid_yaxis (this : Grid) (config : props) : M Grid :=
  Grid_lines "yaxis" config;; mret this.

Definition Grid_padding (this : Grid) (config : props) : M Grid :=
  let grid := ["grid"] in
  assign_merged grid "padding" config;; mret this.

(** ** DataLabels *)

Inductive DataLabels : Type := TheDataLabels.

Definition DataLabels_constructor : M DataLabels :=
  d ← load ["dataLabels"];
  when (negb (truthy d)) (store [] "dataLabels" empty_obj);;
  let dataLabels := ["dataLabels"] in
  ensure dataLabels "style";;
  ensure dataLabels "background";;
  mret TheDataLabels.

Definition DataLabels_enabled (this : DataLabels) (enabled : bool) : M DataLabels :=
  store ["dataLabels"] "enabled" (VBool enabled);; mret this.

Definition DataLabels_formatter (this : DataLabels) (formatter : nat) : M DataLabels :=
  store ["dataLabels"] "formatter" (VHost formatter);; mret this.

Definition DataLabels_style (this : DataLabels) (config : props) : M DataLabels :=
  let dataLabels := ["dataLabels"] in
  assign_merged dataLabels "style" config;; mret this.

Definition DataLabels_background (this : DataLabels) (config : props) : M DataLabels :=
  let dataLabels := ["dataLabels"] in
  assign_merged dataLabels "background" config;; mret this.

Definition DataLabels_offsetX (this : DataLabels) (offset : Z) : M DataLabels :=
  store ["dataLabels"] "offsetX" (VNum offset);; mret this.

Definition DataLabels_offsetY (this : DataLabels) (offset : Z) : M DataLabels :=
  store ["dataLabels"] "offsetY" (VNum offset);; mret this.

(** ** Markers *)

Inductive Markers : Type := TheMarkers.

Definition Markers_constructor : M Markers :=
  m ← load ["markers"];
  when (negb (truthy m)) (store [] "markers" empty_obj);;
  let markers := ["markers"] in
  ensure markers "hover";;
  mret TheMarkers.

Definition Markers_size (this : Markers) (size : value) : M Markers :=
  store ["markers"] "size" size;; mret this.

Definition Markers_colors (this : Markers) (colors : list string) : M Markers :=
  store ["markers"] "colors" (VArr (VStr <$> colors));; mret this.

Definition Markers_strokeColors (this : Markers) (colors : value) : M Markers :=
  store ["markers"] "strokeColors" colors;; mret this.

Definition Markers_strokeWidth (this : Markers) (width : value) : M Markers :=
  store ["markers"] "strokeWidth" width;; mret this.

Definition Markers_shape (this : Markers) (shape : value) : M Markers :=
  store ["markers"] "shape" shape;; mret this.

Definition Markers_radius (this : Markers) (radius : Z) : M Markers :=
  store ["markers"] "radius" (VNum radius);; mret this.

Definition Markers_hover (this : Markers) (config : props) : M Markers :=
  let markers := ["markers"] in
  assign_merged markers "hover" config;; mret this.

(** ** Theme *)

Inductive Theme : Type := TheTheme.

Definition Theme_constructor : M Theme :=
  t ← load ["theme"];
  when (negb (truthy t)) (store [] "theme" empty_obj);;
  let theme := ["theme"] in
  ensure theme "monochrome";;
  mret TheTheme.

Definition Theme_mode (this : Theme) (mode : string) : M Theme :=
  store ["theme"] "mode" (VStr mode);; mret this.

Definition Theme_palette (this : Theme) (palette : string) : M Theme :=
  store ["theme"] "palette" (VStr palette);; mret this.

Definition Theme_monochrome (this : Theme) (config : props) : M Theme :=
  let theme := ["theme"] in
  assign_merged theme "monochrome" config;; mret this.

(** ** Plot options *)

Definition ensurePlotOptions : M path :=
  po ← load ["plotOptions"];
  when (negb (truthy po)) (store [] "plotOptions" empty_obj);;
  mret ["plotOptions"].

Definition ensurePlotOptionType (type : string) : M path :=
  plotOptions ← ensurePlotOptions;
  t ← load (plotOptions ++ [type]);
  when (negb (truthy t)) (store plotOptions type empty_obj);;
  mret (plotOptions ++ [type]).

Definition ensureBarOptions : M path := ensurePlotOptionType "bar".
Definition ensurePieOptions : M path := ensurePlotOptionType "pie".
Definition ensureRadialBarOptions : M path := ensurePlotOptionType "radialBar".
Definition ensureHeatmapOptions : M path := ensurePlotOptionType "heatmap".

Definition BarOptions_horizontal (this : BarOptions) (isHorizontal : bool) : M BarOptions :=
  b ← ensureBarOptions; store b "horizontal" (VBool isHorizontal);; mret this.

Definition BarOptions_columnWidth (this : BarOptions) (width : string) : M BarOptions :=
  b ← ensureBarOptions; store b "columnWidth" (VStr width);; mret this.

Definition BarOptions_barHeight (this : BarOptions) (height : string) : M BarOptions :=
  b ← ensureBarOptions; store b "barHeight" (VStr height);; mret this.

Definition BarOptions_distributed (this : BarOptions) (distributed : bool) : M BarOptions :=
  b ← ensureBarOptions; store b "distributed" (VBool distributed);; mret this.

Definition BarOptions_borderRadius (this : BarOptions) (radius : Z) : M BarOptions :=
  b ← ensureBarOptions; store b "borderRadius" (VNum radius);; mret this.

Definition BarOptions_colors (this : BarOptions) (config : props) : M BarOptions :=
  barOptions ← ensureBarOptions;
  assign_merged_or barOptions "colors" config;; mret this.

Definition PieOptions_startAngle (this : PieOptions) (angle : Z) : M PieOptions :=
  p ← ensurePieOptions; store p "startAngle" (VNum angle);; mret this.

Definition PieOptions_endAngle (this : PieOptions) (angle : Z) : M PieOptions :=
  p ← ensurePieOptions; store p "endAngle" (VNum angle);; mret this.

Definition PieOptions_expandOnClick (this : PieOptions) (expand : bool) : M PieOptions :=
  p ← ensurePieOptions; store p "expandOnClick" (VBool expand);; mret this.

(** [{ ...(old?.k || {}), ...new.k }], one entry of the label literal of
    [donut]. *)
Definition merged_entry (old new : value) (k : string) : M value :=
  o ← lift (get_prop_opt old k);
  n ← lift (get_prop new k);
  mret (merge (js_or o empty_obj) n).

Definition PieOptions_donut (this : PieOptions) (config : props) : M PieOptions :=
  pieOptions ← ensurePieOptions;
  assign_merged_or pieOptions "donut" config;;
  labels ← lift (get_prop (VObj config) "labels");
  when (truthy labels)
    (old ← load (pieOptions ++ ["donut"; "labels"]);
     name ← merged_entry old labels "name";
     val ← merged_entry old labels "value";
     total ← merged_entry old labels "total";
     store (pieOptions ++ ["donut"]) "labels"
       (VObj (<["total" := total]> (<["value" := val]> (<["name" := name]>
          (spread labels ∪ spread (js_or old empty_obj)))))));;
  mret this.

Definition RadialBarOptions_hollow (this : RadialBarOptions) (config : props)
  : M RadialBarOptions :=
  radialOptions ← ensureRadialBarOptions;
  assign_merged_or radialOptions "hollow" config;; mret this.

Definition RadialBarOptions_track (this : RadialBarOptions) (config : props)
  : M RadialBarOptions :=
  radialOptions ← ensureRadialBarOptions;
  assign_merged_or radialOptions "track" config;; mret this.

(** [if (config.k) target.k = { ...(target.k || {}), ...config.k }] *)
Definition merge_field (target : path) (config : value) (k : string) : M unit :=
  new ← lift (get_prop_opt config k);
  when (truthy new)
    (old ← load (target ++ [k]);
     store target k (merge (js_or old empty_obj) new)).

Definition RadialBarOptions_dataLabels (this : RadialBarOptions) (config : props)
  : M RadialBarOptions :=
  radialOptions ← ensureRadialBarOptions;
  assign_merged_or radialOptions "dataLabels" config;;
  merge_field (radialOptions ++ ["dataLabels"]) (VObj config) "name";;
  merge_field (radialOptions ++ ["dataLabels"]) (VObj config) "value";;
  merge_field (radialOptions ++ ["dataLabels"]) (VObj config) "total";;
  mret this.

Definition HeatmapOptions_radius (this : HeatmapOptions) (radius : Z) : M HeatmapOptions :=
  h ← ensureHeatmapOptions; store h "radius" (VNum radius);; mret this.

Definition HeatmapOptions_enableShades (this : HeatmapOptions) (enable : bool)
  : M HeatmapOptions :=
  h ← ensureHeatmapOptions; store h "enableShades" (VBool enable);; mret this.

Definition HeatmapOptions_shadeIntensity (this : HeatmapOptions) (intensity : Z)
  : M HeatmapOptions :=
  h ← ensureHeatmapOptions; store h "shadeIntensity" (VNum intensity);; mret this.

Definition HeatmapOptions_colorScale (this : HeatmapOptions) (config : props)
  : M HeatmapOptions :=
  heatmapOptions ← ensureHeatmapOptions;
  assign_merged_or heatmapOptions "colorScale" config;; mret this.

(** *** PlotOptionsManager *)

Definition empty_manager : PlotOptionsManager := Manager None None None None.

(** [new T(this.chart)] for a plot-type component [T]: the constructor
    inherited from [ChartComponent] only keeps the chart. *)
Definition new_component : M instance :=
  fun c => (Ret (Instance (created c)),
            MkChart (_options c) (plotOptions c) (S (created c))).

Definition manager : M PlotOptionsManager := fun c => (Ret (plotOptions c), c).

Definition set_manager (f : PlotOptionsManager → PlotOptionsManager) : M unit :=
  fun c => (Ret (), with_manager (f (plotOptions c)) c).

Definition PlotOptionsManager_constructor : M unit :=
  set_manager (fun _ => empty_manager);;
  _ ← ensurePlotOptions;
  mret ().

Definition PlotOptionsManager_bar : M BarOptions :=
  this ← manager;
  match _bar this with
  | Some b => mret b
  | None =>
      b ← new_component;
      set_manager (fun m => Manager (Some b) (_pie m) (_radialBar m) (_heatmap m));;
      mret b
  end.

Definition PlotOptionsManager_pie : M PieOptions :=
  this ← manager;
  match _pie this with
  | Some p => mret p
  | None =>
      p ← new_component;
      set_manager (fun m => Manager (_bar m) (Some p) (_radialBar m) (_heatmap m));;
      mret p
  end.

Definition PlotOptionsManager_radialBar : M RadialBarOptions :=
  this ← manager;
  match _radialBar this with
  | Some r => mret r
  | None =>
      r ← new_component;
      set_manager (fun m => Manager (_bar m) (_pie m) (Some r) (_heatmap m));;
      mret r
  end.

Definition PlotOptionsManager_heatmap : M HeatmapOptions :=
  this ← manager;
  match _heatmap this with
  | Some h => mret h
  | None =>
      h ← new_component;
      set_manager (fun m => Manager (_bar m) (_pie m) (_radialBar m) (Some h));;
      mret h
  end.

(** ** Chart *)

Inductive ChartType : Type :=
| line | area | bar | pie | donut | radialBar | scatter | bubble | heatmap
| candlestick | boxPlot | radar | polarArea | rangeBar | rangeArea | treemap.

Definition ChartType_name (t : ChartType) : string :=
  match t with
  | line => "line" | area => "area" | bar => "bar" | pie => "pie"
  | donut => "donut" | radialBar => "radialBar" | scatter => "scatter"
  | bubble => "bubble" | heatmap => "heatmap" | candlestick => "candlestick"
  | boxPlot => "boxPlot" | radar => "radar" | polarArea => "polarArea"
  | rangeBar => "rangeBar" | rangeArea => "rangeArea" | treemap => "treemap"
  end.

(** [this._options = o] *)
Definition set_options (o : value) : M unit :=
  fun c => (Ret (), with_options o c).

Definition Chart_constructor (type : ChartType) : M unit :=
  set_options (VObj {[ "chart" := VObj {[ "type" := VStr (ChartType_name type) ]};
                       "series" := VArr [] ]});;
  _ ← Axis_constructor xaxis;
  _ ← Axis_constructor yaxis;
  _ ← Tooltip_constructor;
  _ ← Legend_constructor;
  _ ← Grid_constructor;
  _ ← DataLabels_constructor;
  _ ← Markers_constructor;
  _ ← Theme_constructor;
  PlotOptionsManager_constructor.

(** The object before its constructor has run. *)
Definition blank : Chart := MkChart VUndefined empty_manager 0.

(** [Chart.create(type)], i.e. [new Chart(type)] *)
Definition Chart_create (type : ChartType) : outcome unit * Chart :=
  Chart_constructor type blank.

(** The fields [xaxis] and [yaxis] of a chart. *)
Definition Chart_xaxis : Axis := MkAxis xaxis.
Definition Chart_yaxis : Axis := MkAxis yaxis.

Definition Chart_title (text : string) : M unit :=
  t ← load ["title"];
  when (negb (truthy t)) (store [] "title" empty_obj);;
  store ["title"] "text" (VStr text).

Definition Chart_subtitle (text : string) : M unit :=
  t ← load ["subtitle"];
  when (negb (truthy t)) (store [] "subtitle" empty_obj);;
  store ["subtitle"] "text" (VStr text).

(** [if (!this._options.chart) this._options.chart = { type: 'line' }] *)
Definition ensure_chart : M unit :=
  ch ← load ["chart"];
  when (negb (truthy ch)) (store [] "chart" (VObj {[ "type" := VStr "line" ]})).

Definition Chart_height (height : value) : M unit :=
  ensure_chart;;
  store ["chart"] "height" height.

Definition Chart_width (width : value) : M unit :=
  ensure_chart;;
  store ["chart"] "width" width.

Definition Chart_series (data : list value) : M unit :=
  store [] "series" (VArr data).

Definition Chart_colors (colors : list string) : M unit :=
  store [] "colors" (VArr (VStr <$> colors)).

(** One of the three blocks of [states]:
    [if (config.k?.filter)
       states.k = { ...(states.k || {}),
                    filter: { ...(states.k?.filter || {}), ...config.k.filter } }] *)
Definition states_filter (config : props) (k : string) : M unit :=
  ck ← lift (get_prop (VObj config) k);
  f ← lift (get_prop_opt ck "filter");
  when (truthy f)
    (old ← load ["states"; k];
     oldf ← lift (get_prop_opt old "filter");
     newf ← lift (get_prop ck "filter");
     store ["states"] k
       (VObj (<["filter" := merge (js_or oldf empty_obj) newf]>
                (spread (js_or old empty_obj))))).

Definition Chart_states (config : props) : M unit :=
  assign_merged_or [] "states" config;;
  states_filter config "normal";;
  states_filter config "hover";;
  states_filter config "active".

Definition Chart_responsive (breakpoints : list value) : M unit :=
  store [] "responsive" (VArr breakpoints).

(** [config] is optional: [None] is [undefined]. *)
Definition Chart_animations (config : option props) : M unit :=
  let cfg := from_option VObj VUndefined config in
  ensure_chart;;
  old ← load ["chart"; "animations"];
  store ["chart"] "animations" (merge (js_or old empty_obj) cfg);;
  merge_field ["chart"; "animations"] cfg "animateGradually";;
  merge_field ["chart"; "animations"] cfg "dynamicAnimation".

(** The getter [options]: the tree itself. *)
Definition Chart_options : M value := load [].

(** [Bar.horizontal] *)
Definition Bar_horizontal (isHorizontal : bool) : M unit :=
  b ← PlotOptionsManager_bar;
  _ ← BarOptions_horizontal b isHorizontal;
  mret ().

(** [new Donut(config)] *)
Definition Donut_constructor (config : props) : M unit :=
  Chart_constructor donut;;
  p ← PlotOptionsManager_pie;
  _ ← PieOptions_donut p config;
  mret ().

(** ** The public operations, as data

    One constructor per public method, so that statements can range over
    every operation of a component or of the builder. *)

Inductive axis_call : Type :=
| ATitle (text : string)
| ACategories (categories : list value)
| AType (type : AxisType)
| ALabels (config : props)
| ARange (min max : Z)
| ATickAmount (amount : Z)
| AAxisBorder (config : props)
| AAxisTicks (config : props)
| ACrosshairs (config : props).

Definition Axis_call (this : Axis) (call : axis_call) : M Axis :=
  match call with
  | ATitle text => Axis_title this text
  | ACategories categories => Axis_categories this categories
  | AType type => Axis_type this type
  | ALabels config => Axis_labels this config
  | ARange min max => Axis_range this min max
  | ATickAmount amount => Axis_tickAmount this amount
  | AAxisBorder config => Axis_axisBorder this config
  | AAxisTicks config => Axis_axisTicks this config
  | ACrosshairs config => Axis_crosshairs this config
  end.

Inductive tooltip_call : Type :=
| TEnabled (enabled : bool) | TShared (shared : bool)
| TFollowCursor (follow : bool) | TTheme (theme : string)
| TStyle (config : props) | TCustom (formatter : nat)
| TXFormatter (formatter : nat) | TYFormatter (formatter : nat).

Definition Tooltip_call (this : Tooltip) (call : tooltip_call) : M Tooltip :=
  match call with
  | TEnabled b => Tooltip_enabled this b
  | TShared b => Tooltip_shared this b
  | TFollowCursor b => Tooltip_followCursor this b
  | TTheme t => Tooltip_theme this t
  | TStyle config => Tooltip_style this config
  | TCustom f => Tooltip_custom this f
  | TXFormatter f => Tooltip_xFormatter this f
  | TYFormatter f => Tooltip_yFormatter this f
  end.

Inductive legend_call : Type :=
| LShow (visible : bool) | LPosition (position : string)
| LHorizontalAlign (align : string) | LFontSize (size : string)
| LFontFamily (family : string) | LLabels (config : props)
| LMarkers (config : props) | LItemMargin (config : props).

Definition Legend_call (this : Legend) (call : legend_call) : M Legend :=
  match call with
  | LShow b => Legend_show this b
  | LPosition p => Legend_position this p
  | LHorizontalAlign a => Legend_horizontalAlign this a
  | LFontSize z => Legend_fontSize this z
  | LFontFamily f => Legend_fontFamily this f
  | LLabels config => Legend_labels this config
  | LMarkers config => Legend_markers this config
  | LItemMargin config => Legend_itemMargin this config
  end.

Inductive grid_call : Type :=
| GShow (visible : bool) | GBorderColor (color : string)
| GStrokeDashArray (dashArray : Z) | GPosition (position : string)
| GXaxis (config : props) | GYaxis (config : props) | GPadding (config : props).

Definition Grid_call (this : Grid) (call : grid_call) : M Grid :=
  match call with
  | GShow b => Grid_show this b
  | GBorderColor c => Grid_borderColor this c
  | GStrokeDashArray d => Grid_strokeDashArray this d
  | GPosition p => Grid_position this p
  | GXaxis config => Grid_xaxis this config
  | GYaxis config => Grid_yaxis this config
  | GPadding config => Grid_padding this config
  end.

Inductive dataLabels_call : Type :=
| DEnabled (enabled : bool) | DFormatter (formatter : nat)
| DStyle (config : props) | DBackground (config : props)
| DOffsetX (offset : Z) | DOffsetY (offset : Z).

Definition DataLabels_call (this : DataLabels) (call : dataLabels_call)
  : M DataLabels :=
  match call with
  | DEnabled b => DataLabels_enabled this b
  | DFormatter f => DataLabels_formatter this f
  | DStyle config => DataLabels_style this config
  | DBackground config => DataLabels_background this config
  | DOffsetX o => DataLabels_offsetX this o
  | DOffsetY o => DataLabels_offsetY this o
  end.

Inductive markers_call : Type :=
| MSize (size : value) | MColors (colors : list string)
| MStrokeColors (colors : value) | MStrokeWidth (width : value)
| MShape (shape : value) | MRadius (radius : Z) | MHover (config : props).

Definition Markers_call (this : Markers) (call : markers_call) : M Markers :=
  match call with
  | MSize z => Markers_size this z
  | MColors c => Markers_colors this c
  | MStrokeColors c => Markers_strokeColors this c
  | MStrokeWidth w => Markers_strokeWidth this w
  | MShape sh => Markers_shape this sh
  | MRadius r => Markers_radius this r
  | MHover config => Markers_hover this config
  end.

Inductive theme_call : Type :=
| ThMode (mode : string) | ThPalette (palette : string)
| ThMonochrome (config : props).

Definition Theme_call (this : Theme) (call : theme_call) : M Theme :=
  match call with
  | ThMode m => Theme_mode this m
  | ThPalette p => Theme_palette this p
  | ThMonochrome config => Theme_monochrome this config
  end.

Inductive bar_call : Type :=
| BHorizontal (isHorizontal : bool) | BColumnWidth (width : string)
| BBarHeight (height : string) | BDistributed (distributed : bool)
| BBorderRadius (radius : Z) | BColors (config : props).

Definition BarOptions_call (this : BarOptions) (call : bar_call) : M BarOptions :=
  match call with
  | BHorizontal b => BarOptions_horizontal this b
  | BColumnWidth w => BarOptions_columnWidth this w
  | BBarHeight h => BarOptions_barHeight this h
  | BDistributed d => BarOptions_distributed this d
  | BBorderRadius r => BarOptions_borderRadius this r
  | BColors config => BarOptions_colors this config
  end.

Inductive pie_call : Type :=
| PStartAngle (angle : Z) | PEndAngle (angle : Z)
| PExpandOnClick (expand : bool) | PDonut (config : props).

Definition PieOptions_call (this : PieOptions) (call : pie_call) : M PieOptions :=
  match call with
  | PStartAngle a => PieOptions_startAngle this a
  | PEndAngle a => PieOptions_endAngle this a
  | PExpandOnClick e => PieOptions_expandOnClick this e
  | PDonut config => PieOptions_donut this config
  end.

Inductive radialBar_call : Type :=
| RHollow (config : props) | RTrack (config : props) | RDataLabels (config : props).

Definition RadialBarOptions_call (this : RadialBarOptions) (call : radialBar_call)
  : M RadialBarOptions :=
  match call with
  | RHollow config => RadialBarOptions_hollow this config
  | RTrack config => RadialBarOptions_track this config
  | RDataLabels config => RadialBarOptions_dataLabels this config
  end.

Inductive heatmap_call : Type :=
| HRadius (radius : Z) | HEnableShades (enable : bool)
| HShadeIntensity (intensity : Z) | HColorScale (config : props).

Definition HeatmapOptions_call (this : HeatmapOptions) (call : heatmap_call)
  : M HeatmapOptions :=
  match call with
  | HRadius r => HeatmapOptions_radius this r
  | HEnableShades e => HeatmapOptions_enableShades this e
  | HShadeIntensity i => HeatmapOptions_shadeIntensity this i
  | HColorScale config => HeatmapOptions_colorScale this config
  end.

Inductive chart_call : Type :=
| CTitle (text : string) | CSubtitle (text : string)
| CHeight (height : value) | CWidth (width : value)
| CSeries (data : list value) | CColors (colors : list string)
| CStates (config : props) | CResponsive (breakpoints : list value)
| CAnimations (config : option props) | COptions
| CBarHorizontal (isHorizontal : bool).

Definition Chart_call (call : chart_call) : M unit :=
  match call with
  | CTitle t => Chart_title t
  | CSubtitle t => Chart_subtitle t
  | CHeight h => Chart_height h
  | CWidth w => Chart_width w
  | CSeries d => Chart_series d
  | CColors c => Chart_colors c
  | CStates config => Chart_states config
  | CResponsive b => Chart_responsive b
  | CAnimations config => Chart_animations config
  | COptions => _ ← Chart_options; mret ()
  | CBarHorizontal b => Bar_horizontal b
  end.

(** The accessors of [PlotOptionsManager]. *)
Inductive plot_type : Type := PBar | PPie | PRadialBar | PHeatmap.

Definition plot_key (t : plot_type) : string :=
  match t with
  | PBar => "bar"
  | PPie => "pie"
  | PRadialBar => "radialBar"
  | PHeatmap => "heatmap"
  end.

Definition PlotOptionsManager_get (t : plot_type) : M instance :=
  match t with
  | PBar => PlotOptionsManager_bar
  | PPie => PlotOptionsManager_pie
  | PRadialBar => PlotOptionsManager_radialBar
  | PHeatmap => PlotOptionsManager_heatmap
  end.

(** The private field behind an accessor. *)
Definition cached (t : plot_type) (m : PlotOptionsManager) : option instance :=
  match t with
  | PBar => _bar m
  | PPie => _pie m
  | PRadialBar => _radialBar m
  | PHeatmap => _heatmap m
  end.

(** A setter of a plot-type component. *)
Inductive plot_call : Type :=
| OfBar (call : bar_call)
| OfPie (call : pie_call)
| OfRadialBar (call : radialBar_call)
| OfHeatmap (call : heatmap_call).

Definition plot_call_type (call : plot_call) : plot_type :=
  match call with
  | OfBar _ => PBar
  | OfPie _ => PPie
  | OfRadialBar _ => PRadialBar
  | OfHeatmap _ => PHeatmap
  end.

Definition Plot_call (this : instance) (call : plot_call) : M instance :=
  match call with
  | OfBar c => BarOptions_call this c
  | OfPie c => PieOptions_call this c
  | OfRadialBar c => RadialBarOptions_call this c
  | OfHeatmap c => HeatmapOptions_call this c
  end.

(** An operation of the builder: a method of the chart, of one of its
    components, an accessor of the plot options manager, or a setter of the
    plot-type component that the accessor returns
    ([chart.plotOptions.bar().horizontal(true)]). *)
Inductive builder_call : Type :=
| OnChart (call : chart_call)
| OnAxis (a : axis_key) (call : axis_call)
| OnTooltip (call : tooltip_call)
| OnLegend (call : legend_call)
| OnGrid (call : grid_call)
| OnDataLabels (call : dataLabels_call)
| OnMarkers (call : markers_call)
| OnTheme (call : theme_call)
| Access (t : plot_type)
| OnPlot (call : plot_call).

Definition done_ {A : Type} (m : M A) : M unit := _ ← m; mret ().

Definition Builder_call (call : builder_call) : M unit :=
  match call with
  | OnChart c => Chart_call c
  | OnAxis a c => done_ (Axis_call (MkAxis a) c)
  | OnTooltip c => done_ (Tooltip_call TheTooltip c)
  | OnLegend c => done_ (Legend_call TheLegend c)
  | OnGrid c => done_ (Grid_call TheGrid c)
  | OnDataLabels c => done_ (DataLabels_call TheDataLabels c)
  | OnMarkers c => done_ (Markers_call TheMarkers c)
  | OnTheme c => done_ (Theme_call TheTheme c)
  | Access t => done_ (PlotOptionsManager_get t)
  | OnPlot c =>
      this ← PlotOptionsManager_get (plot_call_type c);
      done_ (Plot_call this c)
  end.

(** A session: operations one after the other, from the first. *)
Fixpoint Builder_calls (calls : list builder_call) : M unit :=
  match calls with
  | [] => mret ()
  | call :: rest => Builder_call call;; Builder_calls rest
  end.

(** ** The end-to-end scenario of the specification *)

Definition scenario : M value :=
  Chart_constructor line;;
  Chart_title "Sample";;
  Chart_height (VNum 350);;
  Chart_series [VObj {[ "name" := VStr "S1";
                        "data" := VArr [VNum 1; VNum 2; VNum 3] ]}];;
  _ ← Axis_categories Chart_xaxis [VStr "Jan"; VStr "Feb"; VStr "Mar"];
  _ ← Axis_title Chart_xaxis "Month";
  _ ← Axis_title Chart_yaxis "Value";
  Chart_options.

(** The children that the axis constructor creates, with a title. *)
Definition axis_tree (title : props) : props :=
  {[ "title" := VObj title;
     "labels" := VObj {[ "style" := empty_obj ]};
     "axisBorder" := empty_obj;
     "axisTicks" := empty_obj;
     "crosshairs" := empty_obj ]}.

(** The tree that the specification gives for the scenario. *)
Definition scenario_listed : props :=
  {[ "chart" := VObj {[ "type" := VStr "line"; "height" := VNum 350 ]};
     "series" := VArr [VObj {[ "name" := VStr "S1";
                               "data" := VArr [VNum 1; VNum 2; VNum 3] ]}];
     "title" := VObj {[ "text" := VStr "Sample" ]};
     "xaxis" := VObj (<["categories" := VArr [VStr "Jan"; VStr "Feb"; VStr "Mar"]]>
                        (axis_tree {[ "text" := VStr "Month" ]}));
     "yaxis" := VObj (axis_tree {[ "text" := VStr "Value" ]}) ]}.

(** What the constructors of the other components leave in the tree. *)
Definition leaf_scaffold : props :=
  {[ "tooltip" := VObj {[ "style" := empty_obj; "x" := empty_obj; "y" := empty_obj ]};
     "legend" := VObj {[ "labels" := empty_obj; "markers" := empty_obj;
                         "itemMargin" := empty_obj ]};
     "grid" := VObj {[ "xaxis" := VObj {[ "lines" := empty_obj ]};
                       "yaxis" := VObj {[ "lines" := empty_obj ]};
                       "padding" := empty_obj ]};
     "dataLabels" := VObj {[ "style" := empty_obj; "background" := empty_obj ]};
     "markers" := VObj {[ "hover" := empty_obj ]};
     "theme" := VObj {[ "monochrome" := empty_obj ]};
     "plotOptions" := empty_obj ]}.

(** The tree of a chart that has just been constructed. *)
Definition fresh_tree (type : ChartType) : props :=
  {[ "chart" := VObj {[ "type" := VStr (ChartType_name type) ]};
     "series" := VArr [];
     "xaxis" := VObj (axis_tree ∅);
     "yaxis" := VObj (axis_tree ∅) ]} ∪ leaf_scaffold.

(** ** The session of the deep-merge scoping property

    A pie chart whose donut labels are first given a [value] and a [total]
    entry, and then merged with a configuration that only sets
    [labels.name.show]. *)

Definition donut_first : props :=
  {[ "labels" := VObj {[ "value" := VObj {[ "fontSize" := VStr "10px" ]};
                         "total" := VObj {[ "show" := VBool true ]} ]} ]}.

Definition donut_second : props :=
  {[ "labels" := VObj {[ "name" := VObj {[ "show" := VBool true ]} ]} ]}.

Definition donut_session : M value :=
  Chart_constructor pie;;
  p ← PlotOptionsManager_pie;
  _ ← PieOptions_donut p donut_first;
  _ ← PieOptions_donut p donut_second;
  load ["plotOptions"; "pie"; "donut"; "labels"].

(** A chart whose caller has put [v] in the slot [k] of the tree. *)
Definition tampered (type : ChartType) (k : string) (v : value) : Chart :=
  let c := snd (Chart_create type) in
  with_options (VObj (<[k := v]> (spread (_options c)))) c.

(** ** The path-set primitive, in the words of the specification

    "For every prefix segment except the last, if the child at that key is
    absent or explicitly null, create an empty mapping there; descend.  At
    the last segment, assign the value unconditionally."  [spec_set] says
    what the tree becomes; it is compared with [setOption] below. *)

Definition child_map (child : option value) : props :=
  match child with
  | Some (VObj ch) => ch
  | _ => ∅
  end.

Fixpoint spec_set (parts : list string) (v : value) (m : props) : props :=
  match parts with
  | [] => <["undefined" := v]> m
  | k :: rest =>
      match rest with
      | [] => <[k := v]> m
      | _ :: _ => <[k := VObj (spec_set rest v (child_map (m !! k)))]> m
      end
  end.

(** A segment that does not name a member of [Object.prototype]. *)
Definition plain_key (k : string) : Prop := inherited [] k = false.

(** Every child that the walk meets before the last segment is absent,
    undefined, null or a mapping. *)
Fixpoint mappings_along (parts : list string) (m : props) : Prop :=
  match parts with
  | k :: (_ :: _) as rest =>
      match m !! k with
      | None | Some VUndefined | Some VNull => True
      | Some (VObj ch) => mappings_along rest ch
      | Some _ => False
      end
  | _ => True
  end.

(** ** The axis an axis builder resolves to, in the words of the
    specification: the slot itself, or its first element when the slot of
    the y axis is a sequence. *)

Definition resolved_axis (t : axis_key) (m : props) : value :=
  match t with
  | xaxis => default VUndefined (m !! "xaxis")
  | yaxis =>
      match m !! "yaxis" with
      | Some (VArr items) => default VUndefined (head items)
      | Some slot => slot
      | None => VUndefined
      end
  end.

(** ** The place the path-set primitive has reached

    [ctx] is the tree around the mapping at [p]: reading [p] gives the
    mapping, and replacing what is at [p] gives the tree around the
    replacement. *)

Definition focus (ctx : props → value) (p : path) : Prop :=
  ∀ t, get_path (ctx t) p = Ret (VObj t)
       ∧ ∀ t', plug (ctx t) p (VObj t') = Ret (ctx t').

(** ** Shapes of trees

    A shape names children that are present; [Obj] asks for a mapping,
    [Any] for nothing. *)

Inductive shape : Type :=
| Any
| Obj (ks : kids)
with kids : Type :=
| KNil
| KCons (k : string) (sh : shape) (rest : kids).

Fixpoint fits (sh : shape) (v : value) {struct sh} : Prop :=
  match sh with
  | Any => True
  | Obj ks => ∃ t, v = VObj t ∧ fits_kids ks t
  end
with fits_kids (ks : kids) (t : props) {struct ks} : Prop :=
  match ks with
  | KNil => True
  | KCons k sh rest => (∃ x, t !! k = Some x ∧ fits sh x) ∧ fits_kids rest t
  end.

(** The same, decided. *)
Fixpoint fitsb (sh : shape) (v : value) {struct sh} : bool :=
  match sh with
  | Any => true
  | Obj ks =>
      match v with
      | VObj t => fits_kidsb ks t
      | _ => false
      end
  end
with fits_kidsb (ks : kids) (t : props) {struct ks} : bool :=
  match ks with
  | KNil => true
  | KCons k sh rest =>
      match t !! k with
      | Some x => fitsb sh x
      | None => false
      end && fits_kidsb rest t
  end.

Scheme shape_kids_ind := Induction for shape Sort Prop
  with kids_shape_ind := Induction for kids Sort Prop.

Fixpoint kid (ks : kids) (k : string) : shape :=
  match ks with
  | KNil => Any
  | KCons k' sh rest => if String.eqb k' k then sh else kid rest k
  end.

(** The shape below the path [p]. *)
Fixpoint sub (sh : shape) (p : path) : shape :=
  match p with
  | [] => sh
  | s :: p' =>
      match sh with
      | Any => Any
      | Obj ks => sub (kid ks s) p'
      end
  end.

Fixpoint named (ks : kids) (k : string) : bool :=
  match ks with
  | KNil => false
  | KCons k' _ rest => String.eqb k' k || named rest k
  end.

(** No child is named twice. *)
Fixpoint wf (sh : shape) : bool :=
  match sh with
  | Any => true
  | Obj ks => wf_kids ks
  end
with wf_kids (ks : kids) : bool :=
  match ks with
  | KNil => true
  | KCons k sh rest => negb (named rest k) && wf sh && wf_kids rest
  end.

Fixpoint kids_of (l : list (string * shape)) : kids :=
  match l with
  | [] => KNil
  | (k, sh) :: rest => KCons k sh (kids_of rest)
  end.

Definition mapping : shape := Obj KNil.

(** Mappings all the way along [p]. *)
Fixpoint chain (p : path) : shape :=
  match p with
  | [] => mapping
  | k :: p' => Obj (KCons k (chain p') KNil)
  end.

Definition axis_shape : shape :=
  Obj (kids_of [ ("title", mapping);
                 ("labels", Obj (kids_of [("style", Any)]));
                 ("axisBorder", mapping);
                 ("axisTicks", mapping);
                 ("crosshairs", mapping) ]).

(** What the constructor of the chart scaffolds. *)
Definition scaffold : shape :=
  Obj (kids_of
    [ ("xaxis", axis_shape);
      ("yaxis", axis_shape);
      ("tooltip", Obj (kids_of [("style", mapping); ("x", mapping); ("y", mapping)]));
      ("legend", Obj (kids_of [("labels", mapping); ("markers", mapping);
                               ("itemMargin", mapping)]));
      ("grid", Obj (kids_of [("xaxis", Obj (kids_of [("lines", mapping)]));
                             ("yaxis", Obj (kids_of [("lines", mapping)]));
                             ("padding", mapping)]));
      ("dataLabels", Obj (kids_of [("style", mapping); ("background", mapping)]));
      ("markers", Obj (kids_of [("hover", mapping)]));
      ("theme", Obj (kids_of [("monochrome", mapping)]));
      ("plotOptions", mapping) ]).

(** The sub-key of a plot type is a mapping under [plotOptions]. *)
Definition plot_shape (t : plot_type) : shape :=
  Obj (kids_of [("plotOptions", Obj (kids_of [(plot_key t, mapping)]))]).

(** ** Invariants of a computation

    [I] holds of the state after [m], also when [m] throws, and [Q] of the
    value that [m] returns. *)

Definition keeps {A : Type} (I : Chart → Prop) (Q : A → Prop) (m : M A) : Prop :=
  ∀ c, I c → I (snd (m c)) ∧ ∀ a, fst (m c) = Ret a → Q a.

(** The tree of the chart has the shape [sh]. *)
Definition shaped (sh : shape) (c : Chart) : Prop := fits sh (_options c).

(** The private fields of the plot options manager satisfy [J]. *)
Definition managed (J : PlotOptionsManager → Prop) (c : Chart) : Prop :=
  J (plotOptions c).

(** ** Two trees that differ around one value

    A chart whose tree is [small e] and a chart whose tree is [big e], for
    the same [e] satisfying [Inv]; a computation treats them alike when it
    gives the same outcome on both and leaves them related. *)

Definition sim (small big : value → value) (Inv : value → Prop)
    (cs0 cb0 cs cb : Chart) : Prop :=
  ∃ e, Inv e ∧ cs = with_options (small e) cs0 ∧ cb = with_options (big e) cb0.

Definition simP (small big : value → value) (Inv : value → Prop)
    (cs0 cb0 : Chart) {A : Type} (P : A → Prop) (ma : M A) : Prop :=
  ∀ cs cb, sim small big Inv cs0 cb0 cs cb →
    fst (ma cs) = fst (ma cb)
    ∧ sim small big Inv cs0 cb0 (snd (ma cs)) (snd (ma cb))
    ∧ ∀ a, fst (ma cs) = Ret a → P a.

(** A chart whose tree has the y axis only. *)
Definition only_yaxis (slot : value) : Chart :=
  MkChart (VObj {[ "yaxis" := slot ]}) empty_manager 0.

(** The title of an axis is absent, falsy or a mapping. *)
Definition quiet_title (a : props) : Prop :=
  match a !! "title" with
  | Some t => truthy t = false ∨ ∃ tm, t = VObj tm
  | None => True
  end.

(** ** The components that a constructor scaffolds *)

Inductive component : Type :=
| CAxis (a : axis_key) | CTooltip | CLegend | CGrid | CDataLabels | CMarkers
| CTheme.

(** [new C(this._options)] *)
Definition construct (C : component) : M unit :=
  match C with
  | CAxis a => done_ (Axis_constructor a)
  | CTooltip => done_ Tooltip_constructor
  | CLegend => done_ Legend_constructor
  | CGrid => done_ Grid_constructor
  | CDataLabels => done_ DataLabels_constructor
  | CMarkers => done_ Markers_constructor
  | CTheme => done_ Theme_constructor
  end.

Definition axis_children : list path :=
  [ ["title"]; ["labels"]; ["labels"; "style"]; ["axisBorder"]; ["axisTicks"];
    ["crosshairs"] ].

(** The places that the constructor of a component may assign to; [push]
    on the empty sequence assigns the first element and the length. *)
Definition written (C : component) : list path :=
  match C with
  | CAxis xaxis => ["xaxis"] :: (app ["xaxis"] <$> axis_children)
  | CAxis yaxis =>
      ["yaxis"] :: ["yaxis"; "0"] :: ["yaxis"; "length"]
      :: (app ["yaxis"] <$> axis_children)
      ++ (app ["yaxis"; "0"] <$> axis_children)
  | CTooltip => [ ["tooltip"]; ["tooltip"; "style"]; ["tooltip"; "x"]; ["tooltip"; "y"] ]
  | CLegend => [ ["legend"]; ["legend"; "labels"]; ["legend"; "markers"];
                 ["legend"; "itemMargin"] ]
  | CGrid => [ ["grid"]; ["grid"; "xaxis"]; ["grid"; "xaxis"; "lines"];
               ["grid"; "yaxis"]; ["grid"; "yaxis"; "lines"]; ["grid"; "padding"] ]
  | CDataLabels => [ ["dataLabels"]; ["dataLabels"; "style"];
                     ["dataLabels"; "background"] ]
  | CMarkers => [ ["markers"]; ["markers"; "hover"] ]
  | CTheme => [ ["theme"]; ["theme"; "monochrome"] ]
  end.

(** [p] stops before the end of [w]. *)
Fixpoint strict_prefix (p w : path) : bool :=
  match p, w with
  | [], _ :: _ => true
  | a :: p', b :: w' => String.eqb a b && strict_prefix p' w'
  | _, [] => false
  end.

(** [w] stops at or before the end of [p]. *)
Fixpoint is_prefix (w p : path) : bool :=
  match w, p with
  | [], _ => true
  | a :: w', b :: p' => String.eqb a b && is_prefix w' p'
  | _ :: _, [] => false
  end.

(** The value at [w] is truthy. *)
Definition truthy_at (root : value) (w : path) : bool :=
  match get_path root w with
  | Ret x => truthy x
  | Throw _ => false
  end.

(** An assignment [x = x || {}] at [w] leaves the place [p] of the tree
    [root] alone: [p] is no parent of [w], and [w] is not at or above [p]
    or holds a truthy value. *)
Definition clear_of (root : value) (p w : path) : bool :=
  negb (strict_prefix p w) && (negb (is_prefix w p) || truthy_at root w).

(** [p] is a field of the tree [root] that the constructor of [C] keeps. *)
Definition field_of (C : component) (root : value) (p : path) : bool :=
  forallb (clear_of root p) (written C).

(** The value [v] sits at [p], and the places of [W] at or above [p] hold
    truthy values. *)
Definition settled (W : list path) (p : path) (v : value) (c : Chart) : Prop :=
  get_path (_options c) p = Ret v
  ∧ Forall (λ w, is_prefix w p = true → truthy_at (_options c) w = true) W.

(** ** The setters that merge a partial object into one sub-mapping *)

Inductive merge_setter : Type :=
| SAxisBorder (a : axis_key) | SAxisTicks (a : axis_key) | SCrosshairs (a : axis_key)
| STooltipStyle
| SLegendLabels | SLegendMarkers | SLegendItemMargin
| SGridXaxis | SGridYaxis | SGridPadding
| SDataLabelsStyle | SDataLabelsBackground
| SMarkersHover | SThemeMonochrome
| SBarColors | SRadialBarHollow | SRadialBarTrack | SHeatmapColorScale.

(** The call of the setter with the partial object; the grid setters take
    it in the field [lines] of their argument. *)
Definition merge_op (s : merge_setter) (partial : props) : builder_call :=
  match s with
  | SAxisBorder a => OnAxis a (AAxisBorder partial)
  | SAxisTicks a => OnAxis a (AAxisTicks partial)
  | SCrosshairs a => OnAxis a (ACrosshairs partial)
  | STooltipStyle => OnTooltip (TStyle partial)
  | SLegendLabels => OnLegend (LLabels partial)
  | SLegendMarkers => OnLegend (LMarkers partial)
  | SLegendItemMargin => OnLegend (LItemMargin partial)
  | SGridXaxis => OnGrid (GXaxis {[ "lines" := VObj partial ]})
  | SGridYaxis => OnGrid (GYaxis {[ "lines" := VObj partial ]})
  | SGridPadding => OnGrid (GPadding partial)
  | SDataLabelsStyle => OnDataLabels (DStyle partial)
  | SDataLabelsBackground => OnDataLabels (DBackground partial)
  | SMarkersHover => OnMarkers (MHover partial)
  | SThemeMonochrome => OnTheme (ThMonochrome partial)
  | SBarColors => OnPlot (OfBar (BColors partial))
  | SRadialBarHollow => OnPlot (OfRadialBar (RHollow partial))
  | SRadialBarTrack => OnPlot (OfRadialBar (RTrack partial))
  | SHeatmapColorScale => OnPlot (OfHeatmap (HColorScale partial))
  end.

(** The sub-mapping that the setter merges into. *)
Definition merged_place (s : merge_setter) : path :=
  match s with
  | SAxisBorder a => [axis_name a; "axisBorder"]
  | SAxisTicks a => [axis_name a; "axisTicks"]
  | SCrosshairs a => [axis_name a; "crosshairs"]
  | STooltipStyle => ["tooltip"; "style"]
  | SLegendLabels => ["legend"; "labels"]
  | SLegendMarkers => ["legend"; "markers"]
  | SLegendItemMargin => ["legend"; "itemMargin"]
  | SGridXaxis => ["grid"; "xaxis"; "lines"]
  | SGridYaxis => ["grid"; "yaxis"; "lines"]
  | SGridPadding => ["grid"; "padding"]
  | SDataLabelsStyle => ["dataLabels"; "style"]
  | SDataLabelsBackground => ["dataLabels"; "background"]
  | SMarkersHover => ["markers"; "hover"]
  | SThemeMonochrome => ["theme"; "monochrome"]
  | SBarColors => ["plotOptions"; "bar"; "colors"]
  | SRadialBarHollow => ["plotOptions"; "radialBar"; "hollow"]
  | SRadialBarTrack => ["plotOptions"; "radialBar"; "track"]
  | SHeatmapColorScale => ["plotOptions"; "heatmap"; "colorScale"]
  end.

(** ** Concrete charts of the examples *)

(** A chart whose tooltip is disabled and has a style. *)
Definition styled : Chart :=
  MkChart (VObj {[ "tooltip" := VObj {[ "enabled" := VBool false; "style" :=
             VObj {[ "a" := VNum 1; "b" := VNum 2 ]} ]} ]}) empty_manager 0.

(** A chart with the x axis only, whose title has a text. *)
Definition titled : Chart :=
  MkChart (VObj {[ "xaxis" := VObj {[ "title" :=
             VObj {[ "text" := VStr "old" ]} ]} ]}) empty_manager 0.

(** A chart with two y axes. *)
Definition two_axes : Chart :=
  MkChart (VObj {[ "yaxis" := VArr [empty_obj; VObj {[ "opposite" := VBool true ]}] ]})
    empty_manager 0.

(** ** Further definitions

    What the properties of the setters, of the plot options and of sequences
    of operations are stated with. *)

(** The slot of the components whose setters do not test it. *)
Definition component_slot (call : builder_call) : option string :=
  match call with
  | OnTooltip _ => Some "tooltip"
  | OnLegend _ => Some "legend"
  | OnGrid _ => Some "grid"
  | OnDataLabels _ => Some "dataLabels"
  | OnMarkers _ => Some "markers"
  | OnTheme _ => Some "theme"
  | _ => None
  end.

(** [labels] after [Axis.labels(config)] on the labels [l]. *)
Definition labels_after (config l : props) : props :=
  match config !! "style" with
  | Some st => if truthy st then <["style" := VObj (spread st)]> (config ∪ l)
               else config ∪ l
  | None => config ∪ l
  end.

(** An entry that is absent, falsy or a mapping. *)
Definition absent_or_mapping (v : option value) : Prop :=
  match v with
  | None => True
  | Some x => truthy x = false ∨ ∃ t, x = VObj t
  end.

(** The mapping [chart], or the one that [height], [width] and
    [animations] create when there is none. *)
Definition chart_or_line (v : option value) : props :=
  match v with
  | Some (VObj ch) => ch
  | _ => {[ "type" := VStr "line" ]}
  end.

(** [{ ...lb.k }]: the copy that [donut] makes of an entry of its labels. *)
Definition entry_copy (lb : props) (k : string) : value :=
  VObj (spread (default VUndefined (lb !! k))).

(** [donut] after [PieOptions.donut(config)] on the donut [d]. *)
Definition donut_after (config d : props) : props :=
  match config !! "labels" with
  | Some (VObj lb) =>
      <["labels" := VObj (<["total" := entry_copy lb "total"]>
                           (<["value" := entry_copy lb "value"]>
                              (<["name" := entry_copy lb "name"]> lb)))]>
        (config ∪ d)
  | _ => config ∪ d
  end.

(** Reading [p] gives the outcome [o]. *)
Definition sees (p : path) (o : outcome value) (c : Chart) : Prop :=
  get_path (_options c) p = o.

(** The key of the tree under which an operation of the builder writes. *)
Definition top_key (call : builder_call) : string :=
  match call with
  | OnChart (CTitle _) => "title"
  | OnChart (CSubtitle _) => "subtitle"
  | OnChart (CHeight _) | OnChart (CWidth _) | OnChart (CAnimations _) => "chart"
  | OnChart (CSeries _) => "series"
  | OnChart (CColors _) => "colors"
  | OnChart (CStates _) => "states"
  | OnChart (CResponsive _) => "responsive"
  | OnChart COptions => "chart"
  | OnChart (CBarHorizontal _) => "plotOptions"
  | OnAxis a _ => axis_name a
  | OnTooltip _ => "tooltip"
  | OnLegend _ => "legend"
  | OnGrid _ => "grid"
  | OnDataLabels _ => "dataLabels"
  | OnMarkers _ => "markers"
  | OnTheme _ => "theme"
  | Access _ => "plotOptions"
  | OnPlot _ => "plotOptions"
  end.

(** A value that is falsy or a mapping. *)
Definition falsy_or_mapping (v : value) : Prop :=
  truthy v = false ∨ ∃ t, v = VObj t.

Definition is_mapping (v : value) : Prop := ∃ t, v = VObj t.

(** Reading [p] gives a value that satisfies [ok]. *)
Definition finds (ok : value → Prop) (p : path) (c : Chart) : Prop :=
  ∃ v, get_path (_options c) p = Ret v ∧ ok v.

(** The trees of a chart in use: the scaffold of the components, the
    mapping [chart], and the entries that are made on demand, which are
    absent, falsy or mappings. *)
Definition sound (c : Chart) : Prop :=
  shaped scaffold c
  ∧ finds is_mapping ["chart"] c
  ∧ finds falsy_or_mapping ["title"] c
  ∧ finds falsy_or_mapping ["subtitle"] c
  ∧ ∀ t, finds falsy_or_mapping ["plotOptions"; plot_key t] c.

(** [m] returns on [c]. *)
Definition returns {A : Type} (m : M A) (c : Chart) : Prop :=
  ∃ a c', m c = (Ret a, c').

(** The entries that an operation of the builder sets to an argument of
    its own, with the value each has afterwards; none for the operations
    that merge a configuration. *)
Definition set_places (call : builder_call) : list (path * value) :=
  match call with
  | OnChart (CTitle text) => [(["title"; "text"], VStr text)]
  | OnChart (CSubtitle text) => [(["subtitle"; "text"], VStr text)]
  | OnChart (CHeight h) => [(["chart"; "height"], h)]
  | OnChart (CWidth w) => [(["chart"; "width"], w)]
  | OnChart (CSeries data) => [(["series"], VArr data)]
  | OnChart (CColors colors) => [(["colors"], VArr (VStr <$> colors))]
  | OnChart (CResponsive breakpoints) => [(["responsive"], VArr breakpoints)]
  | OnChart (CBarHorizontal b) => [(["plotOptions"; "bar"; "horizontal"], VBool b)]
  | OnAxis a (ATitle text) => [([axis_name a; "title"; "text"], VStr text)]
  | OnAxis a (ACategories categories) => [([axis_name a; "categories"], VArr categories)]
  | OnAxis a (AType type) => [([axis_name a; "type"], VStr (AxisType_name type))]
  | OnAxis a (ARange min max) =>
      [([axis_name a; "min"], VNum min); ([axis_name a; "max"], VNum max)]
  | OnAxis a (ATickAmount amount) => [([axis_name a; "tickAmount"], VNum amount)]
  | OnTooltip (TEnabled b) => [(["tooltip"; "enabled"], VBool b)]
  | OnTooltip (TShared b) => [(["tooltip"; "shared"], VBool b)]
  | OnTooltip (TFollowCursor b) => [(["tooltip"; "followCursor"], VBool b)]
  | OnTooltip (TTheme theme) => [(["tooltip"; "theme"], VStr theme)]
  | OnTooltip (TCustom f) => [(["tooltip"; "custom"], VHost f)]
  | OnTooltip (TXFormatter f) => [(["tooltip"; "x"; "formatter"], VHost f)]
  | OnTooltip (TYFormatter f) => [(["tooltip"; "y"; "formatter"], VHost f)]
  | OnLegend (LShow b) => [(["legend"; "show"], VBool b)]
  | OnLegend (LPosition s) => [(["legend"; "position"], VStr s)]
  | OnLegend (LHorizontalAlign s) => [(["legend"; "horizontalAlign"], VStr s)]
  | OnLegend (LFontSize s) => [(["legend"; "fontSize"], VStr s)]
  | OnLegend (LFontFamily s) => [(["legend"; "fontFamily"], VStr s)]
  | OnGrid (GShow b) => [(["grid"; "show"], VBool b)]
  | OnGrid (GBorderColor s) => [(["grid"; "borderColor"], VStr s)]
  | OnGrid (GStrokeDashArray n) => [(["grid"; "strokeDashArray"], VNum n)]
  | OnGrid (GPosition s) => [(["grid"; "position"], VStr s)]
  | OnDataLabels (DEnabled b) => [(["dataLabels"; "enabled"], VBool b)]
  | OnDataLabels (DFormatter f) => [(["dataLabels"; "formatter"], VHost f)]
  | OnDataLabels (DOffsetX n) => [(["dataLabels"; "offsetX"], VNum n)]
  | OnDataLabels (DOffsetY n) => [(["dataLabels"; "offsetY"], VNum n)]
  | OnMarkers (MSize x) => [(["markers"; "size"], x)]
  | OnMarkers (MColors colors) => [(["markers"; "colors"], VArr (VStr <$> colors))]
  | OnMarkers (MStrokeColors x) => [(["markers"; "strokeColors"], x)]
  | OnMarkers (MStrokeWidth x) => [(["markers"; "strokeWidth"], x)]
  | OnMarkers (MShape x) => [(["markers"; "shape"], x)]
  | OnMarkers (MRadius n) => [(["markers"; "radius"], VNum n)]
  | OnTheme (ThMode s) => [(["theme"; "mode"], VStr s)]
  | OnTheme (ThPalette s) => [(["theme"; "palette"], VStr s)]
  | OnPlot (OfBar (BHorizontal b)) => [(["plotOptions"; "bar"; "horizontal"], VBool b)]
  | OnPlot (OfBar (BColumnWidth s)) => [(["plotOptions"; "bar"; "columnWidth"], VStr s)]
  | OnPlot (OfBar (BBarHeight s)) => [(["plotOptions"; "bar"; "barHeight"], VStr s)]
  | OnPlot (OfBar (BDistributed b)) => [(["plotOptions"; "bar"; "distributed"], VBool b)]
  | OnPlot (OfBar (BBorderRadius n)) => [(["plotOptions"; "bar"; "borderRadius"], VNum n)]
  | OnPlot (OfPie (PStartAngle n)) => [(["plotOptions"; "pie"; "startAngle"], VNum n)]
  | OnPlot (OfPie (PEndAngle n)) => [(["plotOptions"; "pie"; "endAngle"], VNum n)]
  | OnPlot (OfPie (PExpandOnClick b)) => [(["plotOptions"; "pie"; "expandOnClick"], VBool b)]
  | OnPlot (OfHeatmap (HRadius n)) => [(["plotOptions"; "heatmap"; "radius"], VNum n)]
  | OnPlot (OfHeatmap (HEnableShades b)) =>
      [(["plotOptions"; "heatmap"; "enableShades"], VBool b)]
  | OnPlot (OfHeatmap (HShadeIntensity n)) =>
      [(["plotOptions"; "heatmap"; "shadeIntensity"], VNum n)]
  | _ => []
  end.

(** The tree of [c] has the listed values at the listed places. *)
Definition reads (c : Chart) (l : list (path * value)) : Prop :=
  Forall (λ pv, get_path (_options c) pv.1 = Ret pv.2) l.

(** [m] returns [a] and leaves a tree that has [l]. *)
Definition runs {A : Type} (m : M A) (c : Chart) (a : A) (l : list (path * value)) : Prop :=
  ∃ c', m c = (Ret a, c') ∧ reads c' l.

(** An entry of a configuration that is absent, falsy or a mapping. *)
Definition plain_entry (v : option value) : bool :=
  match v with
  | None => true
  | Some (VObj _) => true
  | Some x => negb (truthy x)
  end.

(** The operations whose configuration the methods only read as the
    declared types say: the three interaction states of [states] and the
    labels of [donut] are absent, falsy or mappings. *)
Definition calm (call : builder_call) : bool :=
  match call with
  | OnChart (CStates config) =>
      plain_entry (config !! "normal") && plain_entry (config !! "hover")
      && plain_entry (config !! "active")
  | OnPlot (OfPie (PDonut config)) => plain_entry (config !! "labels")
  | _ => true
  end.

(** An interaction state of a configuration of [states]: absent, falsy, or
    a mapping whose filter is absent, falsy or a mapping. *)
Definition flat_state (v : option value) : Prop :=
  match v with
  | None => True
  | Some x => truthy x = false ∨ ∃ t, x = VObj t ∧ absent_or_mapping (t !! "filter")
  end.

(** ** Further definitions for the path-set primitive, the axes, the plot
    options and the scaffold *)

(** The segments before the last name no member of [Object.prototype], and
    the last is not [__proto__]. *)
Definition walk_keys (parts : list string) : Prop :=
  Forall plain_key (removelast parts) ∧ last_part parts ≠ "__proto__".

(** A boolean, a number or a string. *)
Definition primitive (v : value) : bool :=
  match v with
  | VBool _ | VNum _ | VStr _ => true
  | _ => false
  end.

(** The tree [m] with [x] in the place of the resolved axis. *)
Definition with_axis (t : axis_key) (m : props) (x : value) : props :=
  match t with
  | xaxis => <["xaxis" := x]> m
  | yaxis =>
      match m !! "yaxis" with
      | Some (VArr (_ :: rest)) => <["yaxis" := VArr (x :: rest)]> m
      | _ => <["yaxis" := x]> m
      end
  end.

(** [{ ...(a.k || {}), ...config }] *)
Definition merged_child (a : props) (k : string) (config : props) : value :=
  VObj (config ∪ spread (js_or (default VUndefined (a !! k)) empty_obj)).

(** The mapping [a] of an axis after a setter that returns. *)
Definition axis_after (call : axis_call) (a : props) : props :=
  match call with
  | ATitle text =>
      match a !! "title" with
      | Some (VObj tm) => <["title" := VObj (<["text" := VStr text]> tm)]> a
      | _ => a
      end
  | ACategories categories => <["categories" := VArr categories]> a
  | AType type => <["type" := VStr (AxisType_name type)]> a
  | ALabels config =>
      <["labels" :=
          VObj (labels_after config
                  (spread (js_or (default VUndefined (a !! "labels")) empty_obj)))]> a
  | ARange min max => <["max" := VNum max]> (<["min" := VNum min]> a)
  | ATickAmount amount => <["tickAmount" := VNum amount]> a
  | AAxisBorder config => <["axisBorder" := merged_child a "axisBorder" config]> a
  | AAxisTicks config => <["axisTicks" := merged_child a "axisTicks" config]> a
  | ACrosshairs config => <["crosshairs" := merged_child a "crosshairs" config]> a
  end.

(** The setter is [title] and the title of the axis is a truthy boolean,
    number or string. *)
Definition title_on_primitive (call : axis_call) (a : props) : Prop :=
  match call, a !! "title" with
  | ATitle _, Some p => primitive p = true ∧ truthy p = true
  | _, _ => False
  end.

(** The setter is not [title], or the title of the axis is absent, falsy
    or a mapping. *)
Definition title_settable (call : axis_call) (a : props) : Prop :=
  match call with
  | ATitle _ => quiet_title a
  | _ => True
  end.

Definition is_title (call : axis_call) : bool :=
  match call with
  | ATitle _ => true
  | _ => false
  end.

(** The first character is a decimal digit. *)
Definition digit_first (s : string) : bool :=
  match s with
  | String a _ => (48 <=? Ascii.nat_of_ascii a)%nat && (Ascii.nat_of_ascii a <=? 57)%nat
  | EmptyString => false
  end.

(** The manager that has [i] in the private field of the accessor [t]. *)
Definition caching (t : plot_type) (i : instance) (mg : PlotOptionsManager)
  : PlotOptionsManager :=
  match t with
  | PBar => Manager (Some i) (_pie mg) (_radialBar mg) (_heatmap mg)
  | PPie => Manager (_bar mg) (Some i) (_radialBar mg) (_heatmap mg)
  | PRadialBar => Manager (_bar mg) (_pie mg) (Some i) (_heatmap mg)
  | PHeatmap => Manager (_bar mg) (_pie mg) (_radialBar mg) (Some i)
  end.

(** [plotOptions] has the sub-key of the plot type [t], a mapping, and no
    other key; the rest of the tree is [m]. *)
Definition one_sub_key (t : plot_type) (m : props) (c : Chart) : Prop :=
  ∃ pt, _options c = VObj (<["plotOptions" := VObj {[ plot_key t := VObj pt ]}]> m).

(** An operation that does not give the labels of an axis a style that is
    present and falsy. *)
Definition tidy (call : builder_call) : bool :=
  match call with
  | OnAxis _ (ALabels config) =>
      match config !! "style" with
      | Some st => truthy st
      | None => true
      end
  | _ => true
  end.

(** The scaffold, and a mapping as the style of the labels of the axis
    [a]. *)
Definition styled_axis (a : axis_key) (c : Chart) : Prop :=
  shaped scaffold c ∧ finds is_mapping [axis_name a; "labels"; "style"] c.

(** * Objects with identity

    Above, a value is a tree.  In the program an object can sit at two
    places, for instance as two elements of the sequence [yaxis], and a
    write changes it where it is.  What the axis builder leaves alone is
    therefore stated over a heap of objects: a value is a primitive or the
    reference of an object, an object is a sequence or a mapping of values,
    and a write replaces the object that the reference names. *)

Module Heap.

Abbreviation ref := nat.

Inductive jsval : Type :=
| JUndefined
| JNull
| JBool (b : bool)
| JNum (n : Z)
| JStr (s : string)
| JHost (id : nat)
| JRef (r : ref).

Inductive object : Type :=
| OSeq (items : list jsval)
| OMap (fields : gmap string jsval).

(** The objects made so far; the reference of an object is its index. *)
Abbreviation heap := (list object).

(** A method body over the heap. *)
Definition H (A : Type) : Type := heap → outcome A * heap.

#[global] Instance H_ret : MRet H := fun A a h => (Ret a, h).
#[global] Instance H_bind : MBind H := fun A B f m h =>
  match m h with
  | (Ret a, h') => f a h'
  | (Throw e, h') => (Throw e, h')
  end.

(** ToBoolean. *)
Definition truthy (v : jsval) : bool :=
  match v with
  | JUndefined | JNull => false
  | JBool b => b
  | JNum n => negb (n =? 0)%Z
  | JStr s => negb (String.eqb s EmptyString)
  | JHost _ | JRef _ => true
  end.

Definition nullish (v : jsval) : bool :=
  match v with
  | JUndefined | JNull => true
  | _ => false
  end.

Definition absent (extra : list string) (k : string) : outcome jsval :=
  if inherited extra k then Throw Exotic else Ret JUndefined.

Definition get_item (extra : list string) (items : list jsval) (k : string)
  : outcome jsval :=
  match index_in (length items) k with
  | Some i => Ret (default JUndefined (items !! i))
  | None =>
      if String.eqb k "length" then Ret (JNum (Z.of_nat (length items)))
      else absent extra k
  end.

Fixpoint units (s : string) : list jsval :=
  match s with
  | EmptyString => []
  | String a s' => JStr (String a EmptyString) :: units s'
  end.

Fixpoint indexed (i : nat) (items : list jsval) : gmap string jsval :=
  match items with
  | [] => ∅
  | x :: rest => <[key_of_index i := x]> (indexed (S i) rest)
  end.

(** [v[k]], the value read.  A reference of no object is outside the
    model. *)
Definition read (v : jsval) (k : string) : H jsval :=
  fun h =>
    (match v with
     | JUndefined | JNull => Throw TypeError
     | JBool _ => absent [] k
     | JNum _ => absent number_members k
     | JStr s => get_item string_members (units s) k
     | JHost _ => Throw Exotic
     | JRef r =>
         match h !! r with
         | Some (OMap m) =>
             match m !! k with
             | Some x => Ret x
             | None => absent [] k
             end
         | Some (OSeq items) => get_item array_members items k
         | None => Throw Exotic
         end
     end, h).

(** [v?.k] *)
Definition read_opt (v : jsval) (k : string) : H jsval :=
  if nullish v then mret JUndefined else read v k.

(** [v[k] = x]: the object that [v] names is changed in place. *)
Definition write (v : jsval) (k : string) (x : jsval) : H unit :=
  fun h =>
    match v with
    | JUndefined | JNull => (Throw TypeError, h)
    | JBool _ | JNum _ | JStr _ =>
        (if String.eqb k "__proto__" then Throw Exotic else Throw TypeError, h)
    | JHost _ => (Throw Exotic, h)
    | JRef r =>
        match h !! r with
        | Some (OMap m) =>
            if String.eqb k "__proto__" then (Throw Exotic, h)
            else (Ret (), <[r := OMap (<[k := x]> m)]> h)
        | Some (OSeq items) =>
            match index_in (length items) k with
            | Some i => (Ret (), <[r := OSeq (<[i := x]> items)]> h)
            | None => (Throw Exotic, h)
            end
        | None => (Throw Exotic, h)
        end
    end.

(** An object literal: a new object. *)
Definition alloc (o : object) : H jsval :=
  fun h => (Ret (JRef (length h)), h ++ [o]).

(** What the spread [{...v}] copies: the values, not the objects they
    name. *)
Definition spread (v : jsval) : H (gmap string jsval) :=
  fun h =>
    (Ret match v with
         | JRef r =>
             match h !! r with
             | Some (OMap m) => m
             | Some (OSeq items) => indexed 0 items
             | None => ∅
             end
         | JStr s => indexed 0 (units s)
         | _ => ∅
         end, h).

(** [{ ...a, ...b }] *)
Definition merge (a b : jsval) : H jsval :=
  pa ← spread a;
  pb ← spread b;
  alloc (OMap (pb ∪ pa)).

(** [v || {}] *)
Definition or_new (v : jsval) : H jsval :=
  if truthy v then mret v else alloc (OMap ∅).

(** [Array.isArray(v)] *)
Definition isArray (v : jsval) : H bool :=
  fun h =>
    (Ret match v with
         | JRef r =>
             match h !! r with
             | Some (OSeq _) => true
             | _ => false
             end
         | _ => false
         end, h).

(** [v.push(x)] for a sequence [v]. *)
Definition push (v : jsval) (x : jsval) : H unit :=
  fun h =>
    match v with
    | JRef r =>
        match h !! r with
        | Some (OSeq items) => (Ret (), <[r := OSeq (items ++ [x])]> h)
        | _ => (Throw Exotic, h)
        end
    | _ => (Throw Exotic, h)
    end.

(** [n > 0] and [n === 0] for a length. *)
Definition positive (n : jsval) : bool :=
  match n with
  | JNum z => (0 <? z)%Z
  | _ => false
  end.

Definition zero (n : jsval) : bool :=
  match n with
  | JNum z => (z =? 0)%Z
  | _ => false
  end.

Definition when (cond : bool) (body : H unit) : H unit :=
  if cond then body else mret ().

(** [cond ? a : b] and [if (cond) a else b] *)
Definition choose {A : Type} (cond : bool) (a b : H A) : H A :=
  if cond then a else b.

(** An axis builder: the options object of its chart, and its type. *)
Record Axis : Type := MkAxis { options : ref; axisType : axis_key }.

Definition getAxisConfig (this : Axis) : H jsval :=
  let _options := JRef (options this) in
  match axisType this with
  | xaxis => read _options "xaxis"
  | yaxis =>
      y ← read _options "yaxis";
      a ← isArray y;
      choose a
        (n ← read y "length";
         choose (positive n) (read y "0") (mret JUndefined))
        (mret y)
  end.

(** [target.k = target.k || {}] *)
Definition ensure (target : jsval) (k : string) : H unit :=
  old ← read target k;
  new ← or_new old;
  write target k new.

Definition Axis_constructor (o : ref) (type : axis_key) : H Axis :=
  let this := MkAxis o type in
  let _options := JRef o in
  match type with
  | yaxis =>
      y ← read _options "yaxis";
      choose (negb (truthy y))
        (e ← alloc (OMap ∅); write _options "yaxis" e)
        (a ← isArray y;
         when a
           (n ← read y "length";
            when (zero n) (e ← alloc (OMap ∅); push y e)))
  | xaxis =>
      x ← read _options "xaxis";
      when (negb (truthy x)) (e ← alloc (OMap ∅); write _options "xaxis" e)
  end;;
  axisConfig ← getAxisConfig this;
  when (truthy axisConfig)
    (ensure axisConfig "title";;
     ensure axisConfig "labels";;
     labels ← read axisConfig "labels";
     ensure labels "style";;
     ensure axisConfig "axisBorder";;
     ensure axisConfig "axisTicks";;
     ensure axisConfig "crosshairs");;
  mret this.

Definition Axis_title (this : Axis) (text : string) : H Axis :=
  axisConfig ← getAxisConfig this;
  t ← read_opt axisConfig "title";
  when (truthy t)
    (title ← read axisConfig "title";
     write title "text" (JStr text));;
  mret this.

Definition Axis_categories (this : Axis) (categories : jsval) : H Axis :=
  axisConfig ← getAxisConfig this;
  when (truthy axisConfig) (write axisConfig "categories" categories);;
  mret this.

Definition Axis_type (this : Axis) (type : AxisType) : H Axis :=
  axisConfig ← getAxisConfig this;
  when (truthy axisConfig) (write axisConfig "type" (JStr (AxisType_name type)));;
  mret this.

Definition Axis_labels (this : Axis) (config : jsval) : H Axis :=
  axisConfig ← getAxisConfig this;
  when (truthy axisConfig)
    (ensure axisConfig "labels";;
     old ← read axisConfig "labels";
     new ← merge old config;
     write axisConfig "labels" new;;
     style ← read config "style";
     when (truthy style)
       (labels ← read axisConfig "labels";
        ensure labels "style";;
        labels ← read axisConfig "labels";
        old ← read labels "style";
        style ← read config "style";
        new ← merge old style;
        write labels "style" new));;
  mret this.

Definition Axis_range (this : Axis) (min max : Z) : H Axis :=
  axisConfig ← getAxisConfig this;
  when (truthy axisConfig)
    (write axisConfig "min" (JNum min);;
     write axisConfig "max" (JNum max));;
  mret this.

Definition Axis_tickAmount (this : Axis) (amount : Z) : H Axis :=
  axisConfig ← getAxisConfig this;
  when (truthy axisConfig) (write axisConfig "tickAmount" (JNum amount));;
  mret this.

(** [axisConfig.k = { ...(axisConfig.k || {}), ...config }] *)
Definition merge_into (axisConfig : jsval) (k : string) (config : jsval) : H unit :=
  old ← read axisConfig k;
  old ← or_new old;
  new ← merge old config;
  write axisConfig k new.

Definition Axis_axisBorder (this : Axis) (config : jsval) : H Axis :=
  axisConfig ← getAxisConfig this;
  when (truthy axisConfig) (merge_into axisConfig "axisBorder" config);;
  mret this.

Definition Axis_axisTicks (this : Axis) (config : jsval) : H Axis :=
  axisConfig ← getAxisConfig this;
  when (truthy axisConfig) (merge_into axisConfig "axisTicks" config);;
  mret this.

Definition Axis_crosshairs (this : Axis) (config : jsval) : H Axis :=
  axisConfig ← getAxisConfig this;
  when (truthy axisConfig) (merge_into axisConfig "crosshairs" config);;
  mret this.

(** A call of a setter of the axis builder. *)
Inductive axis_call : Type :=
| ATitle (text : string)
| ACategories (categories : jsval)
| AType (type : AxisType)
| ALabels (config : jsval)
| ARange (min max : Z)
| ATickAmount (amount : Z)
| AAxisBorder (config : jsval)
| AAxisTicks (config : jsval)
| ACrosshairs (config : jsval).

Definition Axis_call (this : Axis) (call : axis_call) : H Axis :=
  match call with
  | ATitle text => Axis_title this text
  | ACategories categories => Axis_categories this categories
  | AType type => Axis_type this type
  | ALabels config => Axis_labels this config
  | ARange min max => Axis_range this min max
  | ATickAmount amount => Axis_tickAmount this amount
  | AAxisBorder config => Axis_axisBorder this config
  | AAxisTicks config => Axis_axisTicks this config
  | ACrosshairs config => Axis_crosshairs this config
  end.

(** The objects that a setter may change when the axis it resolves to is
    the mapping [m] at [r]: the title of the axis for [title], the axis
    for the other setters. *)
Definition written (call : axis_call) (r : ref) (m : gmap string jsval) : list ref :=
  match call with
  | ATitle _ =>
      match m !! "title" with
      | Some (JRef t) => [t]
      | _ => []
      end
  | _ => [r]
  end.

End Heap.

(** From the heap [h0] to the heap [h], no object has gone, no sequence
    has changed, and the mappings that have changed are among [T]. *)
Definition within (T : list Heap.ref) (h0 h : Heap.heap) : Prop :=
  (length h0 ≤ length h)%nat
  ∧ (∀ r, (r < length h0)%nat → r ∉ T → h !! r = h0 !! r)
  ∧ (∀ r items, h0 !! r = Some (Heap.OSeq items) → h !! r = Some (Heap.OSeq items)).

(** From a heap on which [P] holds, [m] returns [a] to a heap on which
    [Q a] holds, or throws to a heap on which [F] holds. *)
Definition leads {A : Type} (F P : Heap.heap → Prop) (m : Heap.H A)
    (Q : A → Heap.heap → Prop) : Prop :=
  ∀ h, P h →
       match m h with
       | (Ret a, h') => Q a h'
       | (Throw _, h') => F h'
       end.

(** The value is the reference of a mapping of [T], or of an object made
    since [h0], or no reference. *)
Definition mine (T : list Heap.ref) (h0 : Heap.heap) (v : Heap.jsval) : Prop :=
  ∀ r, v = Heap.JRef r → r ∈ T ∨ (length h0 ≤ r)%nat.

(** The axis that the constructor makes at [n], with its children at the
    references after [n]. *)
Definition new_axis (n : Heap.ref) : gmap string Heap.jsval :=
  <["crosshairs" := Heap.JRef (n + 6)]>
    (<["axisTicks" := Heap.JRef (n + 5)]>
       (<["axisBorder" := Heap.JRef (n + 4)]>
          (<["labels" := Heap.JRef (n + 2)]>
             (<["title" := Heap.JRef (n + 1)]> ∅)))).

(** The objects that the constructor makes for an axis at [n]: the axis,
    its title, its labels with their style, its border, ticks and
    crosshairs. *)
Definition new_objects (n : Heap.ref) : list Heap.object :=
  [Heap.OMap (new_axis n); Heap.OMap ∅;
   Heap.OMap {[ "style" := Heap.JRef (n + 3) ]};
   Heap.OMap ∅; Heap.OMap ∅; Heap.OMap ∅; Heap.OMap ∅].

(** The mapping at [l] has the object at [n] as its labels. *)
Definition labels_at (l n : Heap.ref) (h : Heap.heap) : Prop :=
  ∃ ml, h !! l = Some (Heap.OMap ml) ∧ ml !! "labels" = Some (Heap.JRef n).

(** * Properties *)

(** ** Reading and writing plain objects *)

Lemma get_prop_own (m : props) k v :
  m !! k = Some v → get_prop (VObj m) k = Ret v.
Proof. intros H. unfold get_prop. by rewrite H. Qed.

Lemma get_prop_missing (m : props) k :
  m !! k = None → inherited [] k = false → get_prop (VObj m) k = Ret VUndefined.
Proof. intros H Hb. unfold get_prop, absent. by rewrite H, Hb. Qed.

Lemma put_prop_obj (m : props) k x :
  String.eqb k "__proto__" = false → put_prop (VObj m) k x = Ret (VObj (<[k := x]> m)).
Proof. intros H. unfold put_prop. by rewrite H. Qed.

Lemma get_path_nil v : get_path v [] = Ret v.
Proof. reflexivity. Qed.

Lemma get_path_own (m : props) s p v :
  m !! s = Some v → get_path (VObj m) (s :: p) = get_path v p.
Proof. intros H. cbn [get_path]. by rewrite (get_prop_own _ _ _ H). Qed.

Lemma get_path_missing (m : props) s :
  m !! s = None → inherited [] s = false →
  get_path (VObj m) [s] = Ret VUndefined.
Proof. intros H Hb. cbn [get_path]. by rewrite (get_prop_missing _ _ H Hb). Qed.

Lemma put_path_nil v k x : put_path v [] k x = put_prop v k x.
Proof. unfold put_path. cbn. by destruct (put_prop v k x). Qed.

Lemma plug_own (m : props) s p v new :
  m !! s = Some v → String.eqb s "__proto__" = false →
  plug (VObj m) (s :: p) new = (v' ← plug v p new; Ret (VObj (<[s := v']> m))).
Proof.
  intros H Hs. cbn [plug]. rewrite (get_prop_own _ _ _ H). cbn.
  destruct (plug v p new); cbn; [by rewrite Hs | done].
Qed.

Lemma put_path_own (m : props) s p k x v :
  m !! s = Some v → String.eqb s "__proto__" = false →
  put_path (VObj m) (s :: p) k x
  = (v' ← put_path v p k x; Ret (VObj (<[s := v']> m))).
Proof.
  intros H Hs. unfold put_path. rewrite (get_path_own _ _ _ _ H).
  destruct (get_path v p) as [t|e]; cbn [mbind outcome_bind]; [|done].
  destruct (put_prop t k x) as [t'|e]; cbn [mbind outcome_bind]; [|done].
  by rewrite (plug_own _ _ _ _ _ H Hs).
Qed.

Lemma put_path_missing (m : props) s p k x :
  m !! s = None → inherited [] s = false →
  put_path (VObj m) (s :: p) k x = Throw TypeError.
Proof.
  intros H Hb. unfold put_path. cbn [get_path].
  rewrite (get_prop_missing _ _ H Hb). cbn. by destruct p.
Qed.

(** ** The chart after construction *)

Lemma Chart_constructor_run type c :
  Chart_constructor type c
  = (Ret (), MkChart (VObj (fresh_tree type)) empty_manager (created c)).
Proof.
  destruct c as [o mg n]. unfold fresh_tree, Chart_constructor.
  generalize (ChartType_name type). intros name. vm_compute. reflexivity.
Qed.

Lemma Chart_create_run type :
  Chart_create type = (Ret (), MkChart (VObj (fresh_tree type)) empty_manager 0).
Proof. unfold Chart_create. by rewrite Chart_constructor_run. Qed.

Lemma scenario_run :
  scenario blank
  = (Ret (VObj (scenario_listed ∪ leaf_scaffold)),
     MkChart (VObj (scenario_listed ∪ leaf_scaffold)) empty_manager 0).
Proof. vm_compute. reflexivity. Qed.

(** ** ChartComponent.setOption *)

Lemma get_path_app R p q :
  get_path R (p ++ q) = (x ← get_path R p; get_path x q).
Proof.
  revert R. induction p as [|s p IH]; intros R; [done|].
  cbn [app get_path]. destruct (get_prop R s) as [ch|e]; cbn; [apply IH|done].
Qed.

Lemma plug_snoc R p s new :
  plug R (p ++ [s]) new
  = (tgt ← get_path R p; _ ← get_prop tgt s; tgt' ← put_prop tgt s new; plug R p tgt').
Proof.
  revert R. induction p as [|a p IH]; intros R.
  - cbn. destruct (get_prop R s); cbn; [|done]. by destruct (put_prop R s new).
  - cbn [app plug get_path]. destruct (get_prop R a) as [ch|e]; cbn [mbind outcome_bind]; [|done].
    rewrite IH. destruct (get_path ch p) as [tgt|e]; cbn [mbind outcome_bind]; [|done].
    destruct (get_prop tgt s); cbn [mbind outcome_bind]; [|done].
    by destruct (put_prop tgt s new).
Qed.

Lemma plain_key_proto k : plain_key k → String.eqb k "__proto__" = false.
Proof.
  unfold plain_key, inherited. cbn [app object_members existsb].
  intros H. apply orb_false_iff in H. tauto.
Qed.

Lemma focus_root : focus VObj [].
Proof. by intros t. Qed.

Lemma focus_child ctx p k t :
  focus ctx p → plain_key k →
  focus (λ ch, ctx (<[k := VObj ch]> t)) (p ++ [k]).
Proof.
  intros F Hk ch. split.
  - rewrite get_path_app. destruct (F (<[k := VObj ch]> t)) as [-> _].
    cbn [mbind outcome_bind get_path].
    by rewrite (get_prop_own _ k (VObj ch)) by apply lookup_insert_eq.
  - intros ch'. rewrite plug_snoc.
    destruct (F (<[k := VObj ch]> t)) as [-> Hp]. cbn [mbind outcome_bind].
    rewrite (get_prop_own _ k (VObj ch)) by apply lookup_insert_eq.
    cbn [mbind outcome_bind]. rewrite put_prop_obj by by apply plain_key_proto.
    cbn [mbind outcome_bind]. by rewrite insert_insert_eq, Hp.
Qed.

Lemma focus_store ctx p k x t c :
  focus ctx p → plain_key k → _options c = ctx t →
  store p k x c = (Ret (), with_options (ctx (<[k := x]> t)) c).
Proof.
  intros F Hk Hc. unfold store, put_path. rewrite Hc.
  destruct (F t) as [-> Hp]. cbn [mbind outcome_bind].
  rewrite put_prop_obj by by apply plain_key_proto.
  cbn [mbind outcome_bind]. by rewrite Hp.
Qed.

Lemma focus_load ctx p k t c :
  focus ctx p → plain_key k → _options c = ctx t →
  load (p ++ [k]) c = (Ret (default VUndefined (t !! k)), c).
Proof.
  intros F Hk Hc. unfold load. rewrite Hc, get_path_app.
  destruct (F t) as [-> _]. cbn [mbind outcome_bind get_path get_prop].
  unfold absent. rewrite Hk. by destruct (t !! k).
Qed.

Lemma M_bind_assoc {A B C : Type} (m : M A) (f : A → M B) (g : B → M C) c :
  ((m ≫= f) ≫= g) c = (m ≫= λ x, f x ≫= g) c.
Proof. unfold mbind, M_bind. by destruct (m c) as [[a|e] c']. Qed.

Lemma setOption_walk_cons p k k2 rest :
  setOption_walk p (k :: k2 :: rest)
  = (child ← load (p ++ [k]);
     when (nullish child) (store p k empty_obj);;
     setOption_walk (p ++ [k]) (k2 :: rest)).
Proof. reflexivity. Qed.

Lemma setOption_walk_spec v parts :
  ∀ ctx p t c,
    parts ≠ [] → Forall plain_key parts → mappings_along parts t →
    focus ctx p → _options c = ctx t →
    (current ← setOption_walk p parts; store current (last_part parts) v) c
    = (Ret (), with_options (ctx (spec_set parts v t)) c).
Proof.
  induction parts as [|k rest IH]; intros ctx p t c Hne Hk Hm F Hc; [done|].
  apply Forall_cons in Hk as [Hk Hrest].
  destruct rest as [|k2 rest].
  - cbn. unfold mbind, M_bind, mret, M_ret. by apply focus_store.
  - change (last_part (k :: k2 :: rest)) with (last_part (k2 :: rest)).
    assert (Hw : ∀ c' ch, _options c' = ctx (<[k := VObj ch]> t) →
        mappings_along (k2 :: rest) ch →
        (current ← setOption_walk (p ++ [k]) (k2 :: rest);
         store current (last_part (k2 :: rest)) v) c'
        = (Ret (), with_options (ctx (<[k := VObj (spec_set (k2 :: rest) v ch)]> t)) c')).
    { intros c' ch Hc' Hch.
      apply (IH (λ ch, ctx (<[k := VObj ch]> t)) (p ++ [k]) ch c');
        [done|done|done|by apply focus_child|done]. }
    assert (Hnew : (store p k empty_obj;;
                    current ← setOption_walk (p ++ [k]) (k2 :: rest);
                    store current (last_part (k2 :: rest)) v) c
                   = (Ret (), with_options (ctx (<[k := VObj (spec_set (k2 :: rest) v ∅)]> t)) c)).
    { unfold mbind at 1. unfold M_bind at 1.
      rewrite (focus_store ctx p k empty_obj t c F Hk Hc).
      rewrite (Hw _ ∅); [done|done|].
      destruct rest; [done|]. cbn [mappings_along]. by rewrite lookup_empty. }
    rewrite setOption_walk_cons, M_bind_assoc. cbn [spec_set].
    unfold mbind at 1. unfold M_bind at 1.
    rewrite (focus_load ctx p k t c F Hk Hc), M_bind_assoc.
    cbn [mappings_along] in Hm.
    destruct (t !! k) as [child|] eqn:E; cbn [default child_map].
    + destruct child as [| | | | | | |ch]; try done; cbn [nullish when];
        try apply Hnew.
      unfold mbind at 1. unfold M_bind at 1. cbn [mret M_ret].
      apply Hw; [|done]. by rewrite insert_id.
    + apply Hnew.
Qed.

Lemma split_dot_aux_nonempty s : ∀ acc, split_dot_aux acc s ≠ [].
Proof.
  induction s as [|a s IH]; intros acc; [done|].
  cbn [split_dot_aux]. destruct (_ =? _)%nat; [done|apply IH].
Qed.

Lemma focus_store_last ctx p k x t c :
  focus ctx p → k ≠ "__proto__" → _options c = ctx t →
  store p k x c = (Ret (), with_options (ctx (<[k := x]> t)) c).
Proof.
  intros F Hk Hc. unfold store, put_path. rewrite Hc.
  destruct (F t) as [-> Hp]. cbn [mbind outcome_bind].
  rewrite put_prop_obj by by apply String.eqb_neq.
  cbn [mbind outcome_bind]. by rewrite Hp.
Qed.

Lemma setOption_walk_last v parts :
  ∀ ctx p t c,
    parts ≠ [] → walk_keys parts → mappings_along parts t →
    focus ctx p → _options c = ctx t →
    (current ← setOption_walk p parts; store current (last_part parts) v) c
    = (Ret (), with_options (ctx (spec_set parts v t)) c).
Proof.
  induction parts as [|k rest IH]; intros ctx p t c Hne [Hk Hl] Hm F Hc; [done|].
  destruct rest as [|k2 rest].
  - cbn. unfold mbind, M_bind, mret, M_ret. by apply focus_store_last.
  - change (last_part (k :: k2 :: rest)) with (last_part (k2 :: rest)) in *.
    change (removelast (k :: k2 :: rest)) with (k :: removelast (k2 :: rest)) in Hk.
    apply Forall_cons in Hk as [Hk Hrest].
    assert (Hw : ∀ c' ch, _options c' = ctx (<[k := VObj ch]> t) →
        mappings_along (k2 :: rest) ch →
        (current ← setOption_walk (p ++ [k]) (k2 :: rest);
         store current (last_part (k2 :: rest)) v) c'
        = (Ret (), with_options (ctx (<[k := VObj (spec_set (k2 :: rest) v ch)]> t)) c')).
    { intros c' ch Hc' Hch.
      apply (IH (λ ch, ctx (<[k := VObj ch]> t)) (p ++ [k]) ch c');
        [done|done|done|by apply focus_child|done]. }
    assert (Hnew : (store p k empty_obj;;
                    current ← setOption_walk (p ++ [k]) (k2 :: rest);
                    store current (last_part (k2 :: rest)) v) c
                   = (Ret (), with_options (ctx (<[k := VObj (spec_set (k2 :: rest) v ∅)]> t)) c)).
    { unfold mbind at 1. unfold M_bind at 1.
      rewrite (focus_store ctx p k empty_obj t c F Hk Hc).
      rewrite (Hw _ ∅); [done|done|].
      destruct rest; [done|]. cbn [mappings_along]. by rewrite lookup_empty. }
    rewrite setOption_walk_cons, M_bind_assoc. cbn [spec_set].
    unfold mbind at 1. unfold M_bind at 1.
    rewrite (focus_load ctx p k t c F Hk Hc), M_bind_assoc.
    cbn [mappings_along] in Hm.
    destruct (t !! k) as [child|] eqn:E; cbn [default child_map].
    + destruct child as [| | | | | | |ch]; try done; cbn [nullish when];
        try apply Hnew.
      unfold mbind at 1. unfold M_bind at 1. cbn [mret M_ret].
      apply Hw; [|done]. by rewrite insert_id.
    + apply Hnew.
Qed.

(** C1 (as it holds): on a chart whose tree is the mapping [m], when no
    segment of the path before the last names a member of
    [Object.prototype], the last segment is not [__proto__], and every
    child met before the last segment is absent, [undefined], [null] or a
    mapping, [setOption] returns its receiver and leaves the tree
    [spec_set]: an empty mapping is created where the child is absent,
    [undefined] or [null], and the last segment is assigned the value,
    whatever it held. *)
Theorem setOption_walks {T : Type} (this : T) (path : string) (v : value)
    (c : Chart) (m : props) :
  _options c = VObj m →
  walk_keys (split_dot path) →
  mappings_along (split_dot path) m →
  setOption this path v c
  = (Ret this, with_options (VObj (spec_set (split_dot path) v m)) c).
Proof.
  intros Hc Hk Hm. unfold setOption.
  assert (Hne : split_dot path ≠ []) by apply split_dot_aux_nonempty.
  pose proof (setOption_walk_last v _ VObj [] m c Hne Hk Hm focus_root Hc) as H.
  unfold mbind, M_bind in *.
  destruct (setOption_walk [] (split_dot path) c) as [[cur|e] c'].
  - by rewrite H.
  - by inversion H.
Qed.

(** Setting [xaxis.labels.style.fontSize] on an empty tree, and a key
    named [toString] in a style that has a colour. *)
Lemma setOption_walks_example :
  setOption TheTooltip "xaxis.labels.style.fontSize" (VStr "12px")
    (MkChart (VObj ∅) empty_manager 0)
  = (Ret TheTooltip,
     MkChart (VObj {[ "xaxis" := VObj {[ "labels" := VObj {[ "style" :=
                VObj {[ "fontSize" := VStr "12px" ]} ]} ]} ]}) empty_manager 0)
  ∧ setOption TheTooltip "style.toString" (VNum 1)
      (MkChart (VObj {[ "style" := VObj {[ "color" := VStr "red" ]} ]}) empty_manager 0)
    = (Ret TheTooltip,
       MkChart (VObj {[ "style" := VObj {[ "color" := VStr "red"; "toString" := VNum 1 ]} ]})
         empty_manager 0).
Proof.
  split.
  - rewrite (setOption_walks TheTooltip "xaxis.labels.style.fontSize" (VStr "12px")
               (MkChart (VObj ∅) empty_manager 0) ∅).
    + vm_compute. reflexivity.
    + reflexivity.
    + split; [vm_compute; repeat constructor|vm_compute; discriminate].
    + vm_compute. done.
  - rewrite (setOption_walks TheTooltip "style.toString" (VNum 1)
               (MkChart (VObj {[ "style" := VObj {[ "color" := VStr "red" ]} ]})
                  empty_manager 0)
               {[ "style" := VObj {[ "color" := VStr "red" ]} ]}).
    + vm_compute. reflexivity.
    + reflexivity.
    + split; [vm_compute; repeat constructor|vm_compute; discriminate].
    + vm_compute. done.
Defined.

(** C6 (as it holds): the scenario exports the listed tree together with
    the scaffolding of the tooltip, the legend, the grid, the data labels,
    the markers, the theme and the plot options: every listed key has its
    listed value, and every scaffolded key is exported and is not listed. *)
Theorem scenario_exported :
  fst (scenario blank) = Ret (VObj (scenario_listed ∪ leaf_scaffold))
  ∧ _options (snd (scenario blank)) = VObj (scenario_listed ∪ leaf_scaffold)
  ∧ (∀ k v, scenario_listed !! k = Some v →
            (scenario_listed ∪ leaf_scaffold) !! k = Some v)
  ∧ (∀ k v, leaf_scaffold !! k = Some v →
            (scenario_listed ∪ leaf_scaffold) !! k = Some v
            ∧ scenario_listed !! k = None).
Proof.
  rewrite scenario_run. split; [done|]. split; [done|]. split.
  - intros k v H. by apply lookup_union_Some_l.
  - intros k v H.
    assert (D : scenario_listed ##ₘ leaf_scaffold).
    { unfold scenario_listed.
      repeat (apply map_disjoint_insert_l_2; [by vm_compute|]).
      apply map_disjoint_empty_l. }
    split; [by apply lookup_union_Some_r|]. by eapply map_disjoint_Some_r.
Qed.

(** The exported tree of the scenario is not the listed tree: it has the
    key [tooltip]. *)
Lemma scenario_not_listed : fst (scenario blank) ≠ Ret (VObj scenario_listed).
Proof.
  rewrite scenario_run. cbn [fst]. intros H.
  assert (E : (scenario_listed ∪ leaf_scaffold) !! "tooltip" = scenario_listed !! "tooltip")
    by congruence.
  vm_compute in E. discriminate E.
Qed.

(** C3: after [donut] with the labels [value] and [total], a second call
    of [donut] whose labels only set [name.show] leaves [value] and [total]
    empty: the assignment of [donut] replaces [labels] by the labels of the
    argument before the entries are merged. *)
Theorem donut_discards_labels :
  fst (donut_session blank)
  = Ret (VObj {[ "name" := VObj {[ "show" := VBool true ]};
                 "value" := empty_obj;
                 "total" := empty_obj ]}).
Proof. vm_compute. reflexivity. Qed.

(** The path-set primitive stops with a [TypeError] when a child met
    before the last segment is a string. *)
Lemma setOption_throws :
  fst (setOption TheTooltip "chart.type.x" (VNum 1) (snd (Chart_create line)))
  = Throw TypeError.
Proof. vm_compute. reflexivity. Qed.

(** [categories] on a y axis that has been replaced by the number [5] stops
    with a [TypeError]. *)
Lemma categories_throws :
  fst (Axis_categories Chart_yaxis [VStr "a"] (tampered line "yaxis" (VNum 5)))
  = Throw TypeError.
Proof. vm_compute. reflexivity. Qed.

(** ** Further facts about reads and writes *)

Lemma get_prop_obj (t : props) k :
  inherited [] k = false → get_prop (VObj t) k = Ret (default VUndefined (t !! k)).
Proof. intros H. unfold get_prop, absent. rewrite H. by destruct (t !! k). Qed.

Lemma get_path_last (t : props) k :
  inherited [] k = false → get_path (VObj t) [k] = Ret (default VUndefined (t !! k)).
Proof. intros H. cbn [get_path]. by rewrite get_prop_obj. Qed.

Lemma get_path_first e rest p : get_path (VArr (e :: rest)) ("0" :: p) = get_path e p.
Proof. reflexivity. Qed.

Lemma put_path_obj (m : props) k x :
  String.eqb k "__proto__" = false →
  put_path (VObj m) [] k x = Ret (VObj (<[k := x]> m)).
Proof. intros H. by rewrite put_path_nil, put_prop_obj. Qed.

Lemma put_path_first e rest p k x :
  put_path (VArr (e :: rest)) ("0" :: p) k x
  = (e' ← put_path e p k x; Ret (VArr (e' :: rest))).
Proof.
  unfold put_path. change (get_path (VArr (e :: rest)) ("0" :: p)) with (get_path e p).
  destruct (get_path e p) as [t|err]; cbn [mbind outcome_bind]; [|done].
  destruct (put_prop t k x) as [t'|err]; cbn [mbind outcome_bind]; [|done].
  change (plug (VArr (e :: rest)) ("0" :: p) t')
    with (v' ← plug e p t'; put_prop (VArr (e :: rest)) "0" v').
  by destruct (plug e p t').
Qed.

Lemma plug_last (m : props) s v new :
  m !! s = Some v → String.eqb s "__proto__" = false →
  plug (VObj m) [s] new = Ret (VObj (<[s := new]> m)).
Proof. intros H Hs. by rewrite (plug_own _ _ _ _ _ H Hs). Qed.

Lemma get_path_throw e p : get_path VUndefined (e :: p) = Throw TypeError.
Proof. reflexivity. Qed.

Lemma put_path_undefined p k x : put_path VUndefined p k x = Throw TypeError.
Proof. by destruct p. Qed.

Lemma put_path_null p k x : put_path VNull p k x = Throw TypeError.
Proof. by destruct p. Qed.

Arguments get_prop : simpl never.
Arguments put_prop : simpl never.
Arguments get_path : simpl never.
Arguments put_path : simpl never.
Arguments plug : simpl never.

Lemma ins_ins (m : props) k x y : <[k := x]> (<[k := y]> m) = <[k := x]> m.
Proof. apply insert_insert_eq. Qed.
Lemma ins_single k (x y : value) : <[k := x]> ({[k := y]} : props) = {[k := x]}.
Proof. apply insert_singleton_eq. Qed.
Lemma lk_ins (m : props) k x : <[k := x]> m !! k = Some x.
Proof. apply lookup_insert_eq. Qed.
Lemma lk_ins_ne (m : props) k k' x : k ≠ k' → <[k := x]> m !! k' = m !! k'.
Proof. apply lookup_insert_ne. Qed.
Lemma lk_single k (x : value) : ({[k := x]} : props) !! k = Some x.
Proof. apply lookup_singleton_eq. Qed.
Lemma lk_single_ne k k' (x : value) : k ≠ k' → ({[k := x]} : props) !! k' = None.
Proof. apply lookup_singleton_ne. Qed.
Lemma lk_empty k : (∅ : props) !! k = None.
Proof. apply lookup_empty. Qed.

Lemma lk_union_l (m n : props) k x : m !! k = Some x → (m ∪ n) !! k = Some x.
Proof. apply lookup_union_Some_l. Qed.

Lemma js_or_truthy v x : truthy v = true → js_or v x = v.
Proof. intros H. unfold js_or. by rewrite H. Qed.
Lemma js_or_falsy v x : truthy v = false → js_or v x = x.
Proof. intros H. unfold js_or. by rewrite H. Qed.

Lemma get_prop_opt_falsy v :
  truthy v = false → get_prop_opt v "title" = Ret VUndefined.
Proof.
  destruct v as [| |b|n|s| | |]; try done.
  intros H. destruct s; [reflexivity|done].
Qed.

Ltac lookup_solve :=
  lazymatch goal with
  | |- <[?k := _]> _ !! ?k = _ => apply lk_ins
  | |- <[_ := _]> _ !! _ = _ => rewrite lk_ins_ne by done; lookup_solve
  | |- {[?k := _]} !! ?k = _ => apply lk_single
  | |- _ => eassumption
  end.

Ltac step :=
  match goal with
  | |- context [get_path _ []] => rewrite get_path_nil
  | |- context [get_path (VArr (_ :: _)) ("0" :: _)] => rewrite get_path_first
  | |- context [get_path (VObj ?m) (?s :: ?p)] =>
      first [ erewrite (get_path_own m s p) by lookup_solve
            | rewrite (get_path_last m s) by reflexivity ]
  | |- context [put_path (VArr (_ :: _)) ("0" :: _) _ _] => rewrite put_path_first
  | |- context [put_path (VObj ?m) [] ?k ?x] =>
      rewrite (put_path_obj m k x) by reflexivity
  | |- context [put_path (VObj ?m) (?s :: ?p) ?k ?x] =>
      erewrite (put_path_own m s p k x) by first [lookup_solve | reflexivity]
  | |- context [get_prop (VObj ?m) ?k] => rewrite (get_prop_obj m k) by reflexivity
  | |- context [plug (VObj ?m) [?s] ?new] =>
      erewrite (plug_last m s _ new) by first [lookup_solve | reflexivity]
  | |- context [put_path VUndefined _ _ _] => rewrite put_path_undefined
  | |- context [put_path VNull _ _ _] => rewrite put_path_null
  | |- context [<[?k := _]> (<[?k := _]> _)] => rewrite ins_ins
  | |- context [<[?k := _]> {[?k := _]}] => rewrite ins_single
  | |- context [<[?k := _]> _ !! ?k] => rewrite lk_ins
  | |- context [<[?k := _]> _ !! ?k'] => rewrite (lk_ins_ne _ k k') by done
  | |- context [{[?k := _]} !! ?k] => rewrite lk_single
  | |- context [{[?k := _]} !! ?k'] => rewrite (lk_single_ne k k') by done
  | |- context [∅ !! _] => rewrite lk_empty
  | H : ?m !! ?k = Some ?x |- context [(?m ∪ ?n) !! ?k] =>
      rewrite (lk_union_l m n k x H)
  | H : ?m !! ?k = _ |- context [?m !! ?k] => rewrite H
  | H : truthy ?v = true |- context [js_or ?v ?x] => rewrite (js_or_truthy v x H)
  | H : truthy ?v = false |- context [js_or ?v ?x] => rewrite (js_or_falsy v x H)
  | H : truthy ?v = _ |- context [truthy ?v] => rewrite H
  | |- context [get_prop_opt (VObj ?m) ?k] =>
      change (get_prop_opt (VObj m) k) with (get_prop (VObj m) k)
  | |- context [get_prop_opt ?v "title"] =>
      rewrite (get_prop_opt_falsy v eq_refl)
  | H : truthy ?v = false |- context [get_prop_opt ?v "title"] =>
      rewrite (get_prop_opt_falsy v H)
  end.

(** ** Shapes *)

Lemma get_path_cons v s p :
  get_path v (s :: p) = (child ← get_prop v s; get_path child p).
Proof. reflexivity. Qed.

Lemma plug_cons v s p new :
  plug v (s :: p) new
  = (child ← get_prop v s; child' ← plug child p new; put_prop v s child').
Proof. reflexivity. Qed.

Lemma fits_kids_insert_fresh ks (t : props) k x :
  named ks k = false → fits_kids ks t → fits_kids ks (<[k := x]> t).
Proof.
  induction ks as [|k' sh rest IH]; cbn; [done|].
  intros [Hk Hn]%orb_false_iff [(y & Hy & Hf) Hr]. split; [|by apply IH].
  exists y. split; [|done]. rewrite lookup_insert_ne; [done|].
  intros <-. by rewrite String.eqb_refl in Hk.
Qed.

Lemma fits_kids_insert ks (t : props) k x :
  wf_kids ks = true → fits_kids ks t → fits (kid ks k) x →
  fits_kids ks (<[k := x]> t).
Proof.
  induction ks as [|k' sh rest IH]; cbn; [done|].
  intros [[Hn Hw]%andb_prop Hwr]%andb_prop [(y & Hy & Hf) Hr] Hx.
  destruct (String.eqb k' k) eqn:E.
  - apply String.eqb_eq in E as ->. split.
    + exists x. by rewrite lookup_insert_eq.
    + apply fits_kids_insert_fresh; [|done]. by apply negb_true_iff.
  - split; [|by apply IH]. exists y. split; [|done].
    rewrite lookup_insert_ne; [done|]. intros <-. by rewrite String.eqb_refl in E.
Qed.

Lemma fits_kid ks (t : props) s x :
  fits_kids ks t → t !! s = Some x → fits (kid ks s) x.
Proof.
  induction ks as [|k' sh rest IH]; cbn; [done|].
  intros [(y & Hy & Hf) Hr] Hs. destruct (String.eqb k' s) eqn:E; [|by apply IH].
  apply String.eqb_eq in E as ->. congruence.
Qed.

Lemma fits_kid_missing ks (t : props) s :
  fits_kids ks t → t !! s = None → kid ks s = Any.
Proof.
  induction ks as [|k' sh rest IH]; cbn; [done|].
  intros [(y & Hy & Hf) Hr] Hs. destruct (String.eqb k' s) eqn:E; [|by apply IH].
  apply String.eqb_eq in E as ->. congruence.
Qed.

Lemma wf_kid ks k : wf_kids ks = true → wf (kid ks k) = true.
Proof.
  induction ks as [|k' sh rest IH]; cbn; [done|].
  intros [[Hn Hw]%andb_prop Hwr]%andb_prop. destruct (String.eqb k' k); auto.
Qed.

Lemma sub_Any p : sub Any p = Any.
Proof. by destruct p. Qed.

Lemma get_fits sh v p a :
  fits sh v → get_path v p = Ret a → fits (sub sh p) a.
Proof.
  revert sh v. induction p as [|s p IH]; intros sh v Hf Hg.
  - rewrite get_path_nil in Hg. by injection Hg as <-.
  - destruct sh as [|ks]; [by rewrite sub_Any|].
    destruct Hf as (t & -> & Hk). cbn [sub].
    destruct (t !! s) as [x|] eqn:E.
    + rewrite (get_path_own _ _ _ _ E) in Hg. apply (IH _ x); [by eapply fits_kid|done].
    + rewrite (fits_kid_missing _ _ _ Hk E). by rewrite sub_Any.
Qed.

Lemma put_path_obj_inv (t : props) s p k x v' :
  put_path (VObj t) (s :: p) k x = Ret v' →
  ∃ ch ch', t !! s = Some ch ∧ put_path ch p k x = Ret ch'
            ∧ v' = VObj (<[s := ch']> t).
Proof.
  intros H. destruct (t !! s) as [ch|] eqn:E.
  - destruct (String.eqb s "__proto__") eqn:Es.
    + exfalso. unfold put_path in H. rewrite (get_path_own _ _ _ _ E) in H.
      destruct (get_path ch p); cbn [mbind outcome_bind] in H; [|done].
      destruct (put_prop _ k x); cbn [mbind outcome_bind] in H; [|done].
      rewrite plug_cons, (get_prop_own _ _ _ E) in H. cbn [mbind outcome_bind] in H.
      destruct (plug ch p _); cbn [mbind outcome_bind] in H; [|done].
      unfold put_prop in H. by rewrite Es in H.
    + rewrite (put_path_own _ _ _ _ _ _ E Es) in H.
      destruct (put_path ch p k x) as [ch'|] eqn:E'; cbn in H; [|done].
      injection H as <-. by exists ch, ch'.
  - exfalso. unfold put_path in H. rewrite get_path_cons in H. unfold get_prop in H.
    rewrite E in H. unfold absent in H.
    destruct (inherited [] s); cbn [mbind outcome_bind] in H; [done|].
    by destruct p.
Qed.

Lemma put_fits sh v p k x v' :
  wf sh = true → fits sh v → put_path v p k x = Ret v' →
  fits (sub sh (p ++ [k])) x → fits sh v'.
Proof.
  revert sh v v'. induction p as [|s p IH]; intros sh v v' Hw Hf Hp Hx.
  - destruct sh as [|ks]; [done|]. destruct Hf as (t & -> & Hk).
    rewrite put_path_nil in Hp. unfold put_prop in Hp.
    destruct (String.eqb k "__proto__"); [done|]. injection Hp as <-.
    eexists. split; [done|]. by apply fits_kids_insert.
  - destruct sh as [|ks]; [done|]. destruct Hf as (t & -> & Hk).
    apply put_path_obj_inv in Hp as (ch & ch' & Hs & Hc & ->).
    eexists. split; [done|]. apply fits_kids_insert; [done|done|].
    apply (IH _ ch); [by apply wf_kid|by eapply fits_kid|done|done].
Qed.

(** ** Running a method on a tree that is partly known *)

Lemma run_bind {A B : Type} (m : M A) (f : A → M B) c r r' :
  m c = r →
  match r with
  | (Ret a, c') => f a c'
  | (Throw e, c') => (Throw e, c')
  end = r' →
  (m ≫= f) c = r'.
Proof. intros <- <-. reflexivity. Qed.

Ltac norm :=
  repeat first
    [ progress cbn [_options plotOptions created with_options with_manager js_or
        truthy nullish negb default app merge_config merge spread isArray
        target deref mbind outcome_bind mret outcome_ret fst snd from_option
        empty_obj _bar _pie _radialBar _heatmap cached length Nat.ltb Nat.leb
        axisType axis_name id Chart_xaxis Chart_yaxis when lift
        Z.eqb String.eqb Ascii.eqb Bool.eqb ]
    | progress unfold empty_obj, merge_config, merge
    | step ].

Ltac exec :=
  norm;
  lazymatch goal with
  | |- mbind (M := M) ?f ?m ?c = _ =>
      eapply (run_bind m f c); [exec | cbv beta iota; exec]
  | |- (_, _) = _ => reflexivity
  | |- mret (M := M) _ _ = _ => unfold mret, M_ret; reflexivity
  | |- M_ret _ _ _ = _ => unfold M_ret; reflexivity
  | |- load _ _ = _ => unfold load; norm; reflexivity
  | |- store _ _ _ _ = _ => unfold store; norm; reflexivity
  | |- update _ _ _ = _ => unfold update; norm; reflexivity
  | |- lift _ _ = _ => unfold lift; norm; reflexivity
  | |- ensure _ _ _ = _ => unfold ensure; exec
  | |- assign_merged _ _ _ _ = _ => unfold assign_merged; exec
  | |- assign_merged_or _ _ _ _ = _ => unfold assign_merged_or; exec
  | |- done_ _ _ = _ => unfold done_; exec
  | |- manager _ = _ => unfold manager; norm; reflexivity
  | |- set_manager _ _ = _ => unfold set_manager; norm; reflexivity
  | |- set_options _ _ = _ => unfold set_options; norm; reflexivity
  | |- new_component _ = _ => unfold new_component; norm; reflexivity
  | |- ?lhs = _ => fail "cannot run" lhs
  end.

(** ** Invariants *)

Section Keeps.
Context (I : Chart → Prop).

Lemma keeps_ret {A : Type} (Q : A → Prop) (a : A) : Q a → keeps I Q (mret a).
Proof. intros Ha c Hc. split; [done|]. by intros ? [= <-]. Qed.

Lemma keeps_bind {A B : Type} (P : A → Prop) (Q : B → Prop) (m : M A) (f : A → M B) :
  keeps I P m → (∀ a, P a → keeps I Q (f a)) → keeps I Q (m ≫= f).
Proof.
  intros Hm Hf c Hc. destruct (Hm c Hc) as [Hi HP].
  unfold mbind, M_bind. destruct (m c) as [[a|e] c']; cbn in *.
  - by apply Hf; [apply HP|].
  - split; [done|]. intros ? [=].
Qed.

Lemma keeps_weaken {A : Type} (P Q : A → Prop) (m : M A) :
  keeps I P m → (∀ a, P a → Q a) → keeps I Q m.
Proof.
  intros Hm HPQ c Hc. destruct (Hm c Hc) as [Hi HP].
  split; [done|]. intros a Ha. by apply HPQ, HP.
Qed.

Lemma keeps_lift {A : Type} (r : outcome A) : keeps I (λ a, r = Ret a) (lift r).
Proof. intros c Hc. split; [done|]. by intros a <-. Qed.

Lemma keeps_when (b : bool) (body : M unit) :
  (b = true → keeps I (λ _, True) body) → keeps I (λ _, True) (when b body).
Proof. destruct b; [by intros H; apply H|]. intros _. by apply keeps_ret. Qed.
End Keeps.

Section Shaped.
Context (sh : shape) (Hwf : wf sh = true).

Lemma keeps_load p : keeps (shaped sh) (λ a, fits (sub sh p) a) (load p).
Proof.
  intros c Hc. split; [done|]. intros a Ha. cbn in Ha. by eapply get_fits.
Qed.

Lemma keeps_store p k x :
  fits (sub sh (p ++ [k])) x → keeps (shaped sh) (λ _, True) (store p k x).
Proof.
  intros Hx c Hc. split; [|done]. unfold store.
  destruct (put_path _ p k x) as [o|e] eqn:E; [|done].
  by eapply put_fits.
Qed.

Lemma keeps_manager : keeps (shaped sh) (λ _, True) manager.
Proof. by intros c Hc. Qed.

Lemma keeps_set_manager f : keeps (shaped sh) (λ _, True) (set_manager f).
Proof. by intros c Hc. Qed.

Lemma keeps_new_component : keeps (shaped sh) (λ _, True) new_component.
Proof. by intros c Hc. Qed.
End Shaped.

Section Managed.
Context (J : PlotOptionsManager → Prop).

Lemma managed_load p : keeps (managed J) (λ _, True) (load p).
Proof. by intros c Hc. Qed.

Lemma managed_store p k x : keeps (managed J) (λ _, True) (store p k x).
Proof.
  intros c Hc. split; [|done]. unfold store. by destruct (put_path _ p k x).
Qed.

Lemma managed_manager : keeps (managed J) J manager.
Proof. intros c Hc. split; [done|]. by intros ? [= <-]. Qed.

Lemma managed_new_component : keeps (managed J) (λ _, True) new_component.
Proof. by intros c Hc. Qed.

Lemma managed_set_manager f :
  (∀ mg, J mg → J (f mg)) → keeps (managed J) (λ _, True) (set_manager f).
Proof. intros Hf c Hc. split; [|done]. by apply Hf. Qed.
End Managed.

Ltac kp_fits :=
  cbn [sub kid kids_of app String.eqb Ascii.eqb Bool.eqb fits fits_kids
       scaffold axis_shape mapping axis_name js_or truthy merge_config merge
       empty_obj];
  try done; try (eexists; split; [reflexivity|]; try done).

Ltac kp_dest H :=
  cbn [sub kid kids_of app String.eqb Ascii.eqb Bool.eqb fits fits_kids
       scaffold axis_shape mapping axis_name] in H;
  lazymatch type of H with
  | ∃ _, _ => let t := fresh "t" in
              let Hk := fresh "Hk" in destruct H as (t & -> & Hk)
  | _ = _ => try (injection H as <-)
  | _ => idtac
  end.

Ltac kp :=
  lazymatch goal with
  | |- keeps _ _ (mbind (M := M) _ _) =>
      eapply keeps_bind; [kp | let a := fresh "a" in
                               let Ha := fresh "Ha" in
                               intros a Ha; kp_dest Ha; kp]
  | |- keeps _ _ (mret _) =>
      first [by apply keeps_ret | by apply (keeps_ret _ (λ _, True))]
  | |- keeps _ _ (when _ _) => apply keeps_when; intros ?; kp
  | |- keeps (managed _) _ (load _) => apply managed_load
  | |- keeps (managed _) _ (store _ _ _) => apply managed_store
  | |- keeps (managed _) _ new_component => apply managed_new_component
  | |- keeps _ (λ _, True) (load _) =>
      eapply keeps_weaken; [by apply keeps_load | done]
  | |- keeps _ _ (load _) => by apply keeps_load
  | |- keeps _ (λ _, True) (lift _) =>
      eapply keeps_weaken; [apply keeps_lift | done]
  | |- keeps _ _ (lift _) => apply keeps_lift
  | |- keeps _ (λ _, True) (store _ _ _) =>
      apply keeps_store; [done | kp_fits]
  | |- keeps _ _ (store _ _ _) =>
      eapply keeps_weaken; [apply keeps_store; [done | kp_fits] | done]
  | |- keeps _ (λ _, True) manager =>
      eapply keeps_weaken; [apply keeps_manager | done]
  | |- keeps _ _ manager => apply keeps_manager
  | |- keeps _ _ (set_manager _) => apply keeps_set_manager
  | |- keeps _ _ new_component => apply keeps_new_component
  | |- keeps _ _ (ensure _ _) => unfold ensure; kp
  | |- keeps _ _ (assign_merged _ _ _) => unfold assign_merged; kp
  | |- keeps _ _ (assign_merged_or _ _ _) => unfold assign_merged_or; kp
  | |- keeps _ _ (done_ _) => unfold done_; kp
  | |- keeps _ _ (merge_field _ _ _) => unfold merge_field; kp
  | |- keeps _ _ (merged_entry _ _ _) => unfold merged_entry; kp
  | |- keeps _ _ (states_filter _ _) => unfold states_filter; kp
  | |- keeps _ _ ensure_chart => unfold ensure_chart; kp
  end.

Section Scaffold.
Local Abbreviation kept := (keeps (shaped scaffold) (λ _, True)).

Lemma kept_getAxisConfig t :
  keeps (shaped scaffold) (λ r, r = Some [axis_name t]) (getAxisConfig (MkAxis t)).
Proof.
  unfold getAxisConfig. destruct t; cbn [axisType axis_name].
  - eapply keeps_bind; [by apply keeps_load|]. intros a Ha. by apply keeps_ret.
  - eapply keeps_bind; [by apply keeps_load|]. intros a Ha. kp_dest Ha.
    by apply keeps_ret.
Qed.

Lemma union_has (config l : props) k x :
  l !! k = Some x → ∃ y, (config ∪ l) !! k = Some y ∧ True.
Proof.
  intros H. destruct (config !! k) as [y|] eqn:E.
  - exists y. split; [|done]. by apply lookup_union_Some_l.
  - exists x. split; [|done]. rewrite lookup_union_r; done.
Qed.

Lemma kept_Axis call t : kept (Axis_call (MkAxis t) call).
Proof.
  destruct call; cbn [Axis_call];
    unfold Axis_title, Axis_categories, Axis_type, Axis_labels, Axis_range,
      Axis_tickAmount, Axis_axisBorder, Axis_axisTicks, Axis_crosshairs;
    (eapply keeps_bind; [apply kept_getAxisConfig|]); intros ? ->;
    cbn [deref target default id from_option]; destruct t; cbn [axis_name].
  all: try by kp.
  all: eapply keeps_bind; [by apply keeps_load|]; intros a Ha; kp_dest Ha.
  all: eapply keeps_bind; [|intros; by apply keeps_ret].
  all: apply keeps_when; intros _.
  all: eapply keeps_bind; [unfold ensure; kp|]; intros _ _.
  all: eapply keeps_bind;
    [unfold assign_merged; eapply keeps_bind; [by apply keeps_load|];
     intros a' Ha'; kp_dest Ha'; apply keeps_store; [done|]; kp_fits;
     split; [|done]; destruct Hk0 as [(x & Hx & _) _]; by eapply union_has|].
  all: intros _ _; kp.
Qed.

Lemma kept_Tooltip call this : kept (Tooltip_call this call).
Proof.
  destruct call; cbn [Tooltip_call];
    unfold Tooltip_enabled, Tooltip_shared, Tooltip_followCursor, Tooltip_theme,
      Tooltip_style, Tooltip_custom, Tooltip_xFormatter, Tooltip_yFormatter;
    cbv zeta; kp.
Qed.

Lemma kept_Legend call this : kept (Legend_call this call).
Proof.
  destruct call; cbn [Legend_call];
    unfold Legend_show, Legend_position, Legend_horizontalAlign, Legend_fontSize,
      Legend_fontFamily, Legend_labels, Legend_markers, Legend_itemMargin;
    cbv zeta; kp.
Qed.

Lemma kept_Grid call this : kept (Grid_call this call).
Proof.
  destruct call; cbn [Grid_call];
    unfold Grid_show, Grid_borderColor, Grid_strokeDashArray, Grid_position,
      Grid_xaxis, Grid_yaxis, Grid_padding, Grid_lines;
    cbv zeta; cbn [app]; kp.
Qed.

Lemma kept_DataLabels call this : kept (DataLabels_call this call).
Proof.
  destruct call; cbn [DataLabels_call];
    unfold DataLabels_enabled, DataLabels_formatter, DataLabels_style,
      DataLabels_background, DataLabels_offsetX, DataLabels_offsetY;
    cbv zeta; kp.
Qed.

Lemma kept_Markers call this : kept (Markers_call this call).
Proof.
  destruct call; cbn [Markers_call];
    unfold Markers_size, Markers_colors, Markers_strokeColors, Markers_strokeWidth,
      Markers_shape, Markers_radius, Markers_hover;
    cbv zeta; kp.
Qed.

Lemma kept_Theme call this : kept (Theme_call this call).
Proof.
  destruct call; cbn [Theme_call];
    unfold Theme_mode, Theme_palette, Theme_monochrome; cbv zeta; kp.
Qed.

Lemma kept_ensurePlotOptionType type :
  keeps (shaped scaffold) (λ r, r = ["plotOptions"; type]) (ensurePlotOptionType type).
Proof.
  unfold ensurePlotOptionType, ensurePlotOptions.
  eapply keeps_bind.
  { eapply (keeps_bind _ _ (λ r, r = ["plotOptions"])); [by apply keeps_load|].
    intros a Ha. eapply keeps_bind; [kp|]. intros _ _. by apply keeps_ret. }
  intros ? ->. cbn [app]. eapply keeps_bind; [by apply keeps_load|].
  intros a Ha. eapply keeps_bind; [kp|]. intros _ _. by apply keeps_ret.
Qed.

Lemma kept_Plot call this : kept (Plot_call this call).
Proof.
  destruct call as [call|call|call|call]; destruct call; cbn [Plot_call
      BarOptions_call PieOptions_call RadialBarOptions_call HeatmapOptions_call];
    unfold BarOptions_horizontal, BarOptions_columnWidth, BarOptions_barHeight,
      BarOptions_distributed, BarOptions_borderRadius, BarOptions_colors,
      PieOptions_startAngle, PieOptions_endAngle, PieOptions_expandOnClick,
      PieOptions_donut, RadialBarOptions_hollow, RadialBarOptions_track,
      RadialBarOptions_dataLabels, HeatmapOptions_radius,
      HeatmapOptions_enableShades, HeatmapOptions_shadeIntensity,
      HeatmapOptions_colorScale, ensureBarOptions, ensurePieOptions,
      ensureRadialBarOptions, ensureHeatmapOptions;
    (eapply keeps_bind; [apply kept_ensurePlotOptionType|]); intros ? ->;
    cbn [app]; kp.
Qed.

Lemma kept_get t : kept (PlotOptionsManager_get t).
Proof.
  destruct t; cbn [PlotOptionsManager_get];
    unfold PlotOptionsManager_bar, PlotOptionsManager_pie,
      PlotOptionsManager_radialBar, PlotOptionsManager_heatmap;
    (eapply keeps_bind; [apply keeps_manager|]); intros mg _.
  - destruct (_bar mg); kp.
  - destruct (_pie mg); kp.
  - destruct (_radialBar mg); kp.
  - destruct (_heatmap mg); kp.
Qed.

Lemma kept_Chart call : kept (Chart_call call).
Proof.
  destruct call; cbn [Chart_call];
    unfold Chart_title, Chart_subtitle, Chart_height, Chart_width, Chart_series,
      Chart_colors, Chart_states, Chart_responsive, Chart_animations,
      Chart_options, Bar_horizontal; cbv zeta; try by kp.
  eapply keeps_bind; [apply (kept_get PBar)|]. intros b _.
  eapply keeps_bind; [apply (kept_Plot (OfBar (BHorizontal isHorizontal)))|].
  intros; by apply keeps_ret.
Qed.

Lemma kept_Builder call : kept (Builder_call call).
Proof.
  destruct call; cbn [Builder_call]; unfold done_.
  - apply kept_Chart.
  - eapply keeps_bind; [apply kept_Axis|]. intros; by apply keeps_ret.
  - eapply keeps_bind; [apply kept_Tooltip|]. intros; by apply keeps_ret.
  - eapply keeps_bind; [apply kept_Legend|]. intros; by apply keeps_ret.
  - eapply keeps_bind; [apply kept_Grid|]. intros; by apply keeps_ret.
  - eapply keeps_bind; [apply kept_DataLabels|]. intros; by apply keeps_ret.
  - eapply keeps_bind; [apply kept_Markers|]. intros; by apply keeps_ret.
  - eapply keeps_bind; [apply kept_Theme|]. intros; by apply keeps_ret.
  - eapply keeps_bind; [apply kept_get|]. intros; by apply keeps_ret.
  - eapply keeps_bind; [apply kept_get|]. intros this _.
    eapply keeps_bind; [apply kept_Plot|]. intros; by apply keeps_ret.
Qed.

Lemma kept_Builder_calls calls : kept (Builder_calls calls).
Proof.
  induction calls as [|call rest IH]; cbn [Builder_calls].
  - by apply keeps_ret.
  - eapply keeps_bind; [apply kept_Builder|]. by intros.
Qed.
End Scaffold.

Section Cache.
Context (t : plot_type) (i : instance).

Local Abbreviation remembers :=
  (keeps (managed (λ mg, cached t mg = Some i)) (λ _, True)).

Lemma remembers_getAxisConfig this : remembers (getAxisConfig this).
Proof.
  unfold getAxisConfig. destruct (axisType this).
  - kp.
  - eapply keeps_bind; [apply managed_load|]. intros y _.
    destruct y as [| | | | | |items|]; try by apply keeps_ret.
    destruct (0 <? length items)%nat; by apply keeps_ret.
Qed.

Lemma remembers_Axis call this : remembers (Axis_call this call).
Proof.
  destruct call; cbn [Axis_call];
    unfold Axis_title, Axis_categories, Axis_type, Axis_labels, Axis_range,
      Axis_tickAmount, Axis_axisBorder, Axis_axisTicks, Axis_crosshairs;
    (eapply keeps_bind; [apply remembers_getAxisConfig|]); intros r _;
    destruct r; cbn [deref]; kp.
Qed.

Lemma remembers_Tooltip call this : remembers (Tooltip_call this call).
Proof.
  destruct call; cbn [Tooltip_call];
    unfold Tooltip_enabled, Tooltip_shared, Tooltip_followCursor, Tooltip_theme,
      Tooltip_style, Tooltip_custom, Tooltip_xFormatter, Tooltip_yFormatter;
    cbv zeta; kp.
Qed.

Lemma remembers_Legend call this : remembers (Legend_call this call).
Proof.
  destruct call; cbn [Legend_call];
    unfold Legend_show, Legend_position, Legend_horizontalAlign, Legend_fontSize,
      Legend_fontFamily, Legend_labels, Legend_markers, Legend_itemMargin;
    cbv zeta; kp.
Qed.

Lemma remembers_Grid call this : remembers (Grid_call this call).
Proof.
  destruct call; cbn [Grid_call];
    unfold Grid_show, Grid_borderColor, Grid_strokeDashArray, Grid_position,
      Grid_xaxis, Grid_yaxis, Grid_padding, Grid_lines;
    cbv zeta; kp.
Qed.

Lemma remembers_DataLabels call this : remembers (DataLabels_call this call).
Proof.
  destruct call; cbn [DataLabels_call];
    unfold DataLabels_enabled, DataLabels_formatter, DataLabels_style,
      DataLabels_background, DataLabels_offsetX, DataLabels_offsetY;
    cbv zeta; kp.
Qed.

Lemma remembers_Markers call this : remembers (Markers_call this call).
Proof.
  destruct call; cbn [Markers_call];
    unfold Markers_size, Markers_colors, Markers_strokeColors, Markers_strokeWidth,
      Markers_shape, Markers_radius, Markers_hover;
    cbv zeta; kp.
Qed.

Lemma remembers_Theme call this : remembers (Theme_call this call).
Proof.
  destruct call; cbn [Theme_call];
    unfold Theme_mode, Theme_palette, Theme_monochrome; cbv zeta; kp.
Qed.

Lemma remembers_Plot call this : remembers (Plot_call this call).
Proof.
  destruct call as [call|call|call|call]; destruct call; cbn [Plot_call
      BarOptions_call PieOptions_call RadialBarOptions_call HeatmapOptions_call];
    unfold BarOptions_horizontal, BarOptions_columnWidth, BarOptions_barHeight,
      BarOptions_distributed, BarOptions_borderRadius, BarOptions_colors,
      PieOptions_startAngle, PieOptions_endAngle, PieOptions_expandOnClick,
      PieOptions_donut, RadialBarOptions_hollow, RadialBarOptions_track,
      RadialBarOptions_dataLabels, HeatmapOptions_radius,
      HeatmapOptions_enableShades, HeatmapOptions_shadeIntensity,
      HeatmapOptions_colorScale, ensureBarOptions, ensurePieOptions,
      ensureRadialBarOptions, ensureHeatmapOptions, ensurePlotOptionType,
      ensurePlotOptions; kp.
Qed.

Lemma remembers_get t' : remembers (PlotOptionsManager_get t').
Proof.
  destruct t'; cbn [PlotOptionsManager_get];
    unfold PlotOptionsManager_bar, PlotOptionsManager_pie,
      PlotOptionsManager_radialBar, PlotOptionsManager_heatmap;
    (eapply keeps_bind; [apply managed_manager|]); cbv beta; intros mg Hmg.
  - destruct (_bar mg) eqn:E; [by apply keeps_ret|].
    eapply keeps_bind; [apply managed_new_component|]. intros b _.
    eapply keeps_bind; [|intros; by apply keeps_ret].
    apply managed_set_manager. intros mg'. destruct t; cbn in *; congruence.
  - destruct (_pie mg) eqn:E; [by apply keeps_ret|].
    eapply keeps_bind; [apply managed_new_component|]. intros b _.
    eapply keeps_bind; [|intros; by apply keeps_ret].
    apply managed_set_manager. intros mg'. destruct t; cbn in *; congruence.
  - destruct (_radialBar mg) eqn:E; [by apply keeps_ret|].
    eapply keeps_bind; [apply managed_new_component|]. intros b _.
    eapply keeps_bind; [|intros; by apply keeps_ret].
    apply managed_set_manager. intros mg'. destruct t; cbn in *; congruence.
  - destruct (_heatmap mg) eqn:E; [by apply keeps_ret|].
    eapply keeps_bind; [apply managed_new_component|]. intros b _.
    eapply keeps_bind; [|intros; by apply keeps_ret].
    apply managed_set_manager. intros mg'. destruct t; cbn in *; congruence.
Qed.

Lemma remembers_Chart call : remembers (Chart_call call).
Proof.
  destruct call; cbn [Chart_call];
    unfold Chart_title, Chart_subtitle, Chart_height, Chart_width, Chart_series,
      Chart_colors, Chart_states, Chart_responsive, Chart_animations,
      Chart_options, Bar_horizontal; cbv zeta; try by kp.
  eapply keeps_bind; [apply (remembers_get PBar)|]. intros b _.
  eapply keeps_bind; [apply (remembers_Plot (OfBar (BHorizontal isHorizontal)))|].
  intros; by apply keeps_ret.
Qed.

Lemma remembers_Builder call : remembers (Builder_call call).
Proof.
  destruct call; cbn [Builder_call]; unfold done_.
  - apply remembers_Chart.
  - eapply keeps_bind; [apply remembers_Axis|]. intros; by apply keeps_ret.
  - eapply keeps_bind; [apply remembers_Tooltip|]. intros; by apply keeps_ret.
  - eapply keeps_bind; [apply remembers_Legend|]. intros; by apply keeps_ret.
  - eapply keeps_bind; [apply remembers_Grid|]. intros; by apply keeps_ret.
  - eapply keeps_bind; [apply remembers_DataLabels|]. intros; by apply keeps_ret.
  - eapply keeps_bind; [apply remembers_Markers|]. intros; by apply keeps_ret.
  - eapply keeps_bind; [apply remembers_Theme|]. intros; by apply keeps_ret.
  - eapply keeps_bind; [apply remembers_get|]. intros; by apply keeps_ret.
  - eapply keeps_bind; [apply remembers_get|]. intros this _.
    eapply keeps_bind; [apply remembers_Plot|]. intros; by apply keeps_ret.
Qed.

Lemma remembers_Builder_calls calls : remembers (Builder_calls calls).
Proof.
  induction calls as [|call rest IH]; cbn [Builder_calls].
  - by apply keeps_ret.
  - eapply keeps_bind; [apply remembers_Builder|]. by intros.
Qed.
End Cache.

(** ** Trees that differ around one value *)

Section Focus.
Context (pre : path) (small big : value → value) (Inv : value → Prop).
Context (cs0 cb0 : Chart).

Hypothesis get_small : ∀ e q, get_path (small e) (pre ++ q) = get_path e q.
Hypothesis get_big : ∀ e q, get_path (big e) (pre ++ q) = get_path e q.
Hypothesis put_small : ∀ e q k x,
  put_path (small e) (pre ++ q) k x = (e' ← put_path e q k x; Ret (small e')).
Hypothesis put_big : ∀ e q k x,
  put_path (big e) (pre ++ q) k x = (e' ← put_path e q k x; Ret (big e')).
Hypothesis Inv_put : ∀ e q k x e',
  Inv e → put_path e q k x = Ret e' → Inv e'.

Lemma sim_ret {A : Type} (P : A → Prop) (a : A) : P a → simP small big Inv cs0 cb0 P (mret a).
Proof. intros Ha cs cb S. cbn. split; [done|]. split; [done|]. by intros ? [= <-]. Qed.

Lemma sim_bind {A B : Type} (P : A → Prop) (Q : B → Prop) (ma : M A) (f : A → M B) :
  simP small big Inv cs0 cb0 P ma → (∀ a, P a → simP small big Inv cs0 cb0 Q (f a)) → simP small big Inv cs0 cb0 Q (ma ≫= f).
Proof.
  intros Hm Hf cs cb S. destruct (Hm cs cb S) as (Hr & S' & HP).
  unfold mbind, M_bind.
  destruct (ma cs) as [[a|e] cs'], (ma cb) as [[a'|e'] cb']; cbn in *; try done.
  - injection Hr as <-. exact (Hf a (HP a eq_refl) cs' cb' S').
  - injection Hr as ->. split; [done|]. split; [done|]. intros ? [=].
Qed.

Lemma sim_weaken {A : Type} (P Q : A → Prop) (ma : M A) :
  simP small big Inv cs0 cb0 P ma → (∀ a, P a → Q a) → simP small big Inv cs0 cb0 Q ma.
Proof.
  intros Hm HPQ cs cb S. destruct (Hm cs cb S) as (Hr & S' & HP).
  split; [done|]. split; [done|]. intros a Ha. by apply HPQ, HP.
Qed.

Lemma sim_lift {A : Type} (r : outcome A) : simP small big Inv cs0 cb0 (λ _, True) (lift r).
Proof. intros cs cb S. by cbn. Qed.

Lemma sim_when (b : bool) (body : M unit) :
  simP small big Inv cs0 cb0 (λ _, True) body → simP small big Inv cs0 cb0 (λ _, True) (when b body).
Proof. destruct b; [done|]. intros _. by apply sim_ret. Qed.

Lemma sim_load q : simP small big Inv cs0 cb0 (λ _, True) (load (pre ++ q)).
Proof.
  intros cs cb (e & He & -> & ->). unfold load. cbn.
  rewrite get_small, get_big. split; [done|]. split; [by exists e|done].
Qed.

Lemma sim_store q k x : simP small big Inv cs0 cb0 (λ _, True) (store (pre ++ q) k x).
Proof.
  intros cs cb (e & He & -> & ->). unfold store. cbn.
  rewrite put_small, put_big.
  destruct (put_path e q k x) as [e'|err] eqn:E; cbn.
  - split; [done|]. split; [|done]. exists e'. split; [by eapply Inv_put|done].
  - split; [done|]. split; [by exists e|done].
Qed.

Lemma sim_load_pre : simP small big Inv cs0 cb0 (λ _, True) (load pre).
Proof. rewrite <- (app_nil_r pre). apply sim_load. Qed.

Lemma sim_store_pre k x : simP small big Inv cs0 cb0 (λ _, True) (store pre k x).
Proof. rewrite <- (app_nil_r pre). apply sim_store. Qed.

Lemma sim_ensure q k : simP small big Inv cs0 cb0 (λ _, True) (ensure (pre ++ q) k).
Proof.
  unfold ensure. rewrite <- app_assoc.
  eapply sim_bind; [apply sim_load|]. intros a _. apply sim_store.
Qed.

Lemma sim_ensure_pre k : simP small big Inv cs0 cb0 (λ _, True) (ensure pre k).
Proof. rewrite <- (app_nil_r pre). apply sim_ensure. Qed.

Lemma sim_assign_merged_or k config :
  simP small big Inv cs0 cb0 (λ _, True) (assign_merged_or pre k config).
Proof.
  unfold assign_merged_or.
  eapply sim_bind; [apply sim_load|]. intros a _. apply sim_store_pre.
Qed.

Variable this : Axis.
Hypothesis resolve : simP small big Inv cs0 cb0 (λ r, r = Some pre) (getAxisConfig this).

Lemma sim_Axis_call call : simP small big Inv cs0 cb0 (λ r, r = this) (Axis_call this call).
Proof.
  destruct call; cbn [Axis_call];
    unfold Axis_title, Axis_categories, Axis_type, Axis_labels, Axis_range,
      Axis_tickAmount, Axis_axisBorder, Axis_axisTicks, Axis_crosshairs;
    (eapply sim_bind; [apply resolve|]); intros ? ->; cbn [deref target];
    (eapply sim_bind; [apply sim_load_pre|]); intros a _.
  - eapply sim_bind; [apply sim_lift|]. intros t _.
    eapply sim_bind; [apply sim_when, sim_store|]. intros _ _. by apply sim_ret.
  - eapply sim_bind; [apply sim_when, sim_store_pre|]. intros _ _. by apply sim_ret.
  - eapply sim_bind; [apply sim_when, sim_store_pre|]. intros _ _. by apply sim_ret.
  - eapply sim_bind; [apply sim_when|]; [|intros _ _; by apply sim_ret].
    eapply sim_bind; [apply sim_ensure_pre|]. intros _ _.
    eapply sim_bind.
    { unfold assign_merged. eapply sim_bind; [apply sim_load|].
      intros ? _. apply sim_store_pre. }
    intros _ _. eapply sim_bind; [apply sim_lift|]. intros style _.
    apply sim_when.
    eapply sim_bind; [apply sim_ensure|]. intros _ _.
    eapply sim_bind; [apply (sim_load ["labels"; "style"])|]. intros ? _.
    apply sim_store.
  - eapply sim_bind; [apply sim_when|]; [|intros _ _; by apply sim_ret].
    eapply sim_bind; [apply sim_store_pre|]. intros _ _. apply sim_store_pre.
  - eapply sim_bind; [apply sim_when, sim_store_pre|]. intros _ _. by apply sim_ret.
  - eapply sim_bind; [apply sim_when, sim_assign_merged_or|]. intros _ _. by apply sim_ret.
  - eapply sim_bind; [apply sim_when, sim_assign_merged_or|]. intros _ _. by apply sim_ret.
  - eapply sim_bind; [apply sim_when, sim_assign_merged_or|]. intros _ _. by apply sim_ret.
Qed.
End Focus.

Lemma put_prop_isArray s k x s' :
  put_prop s k x = Ret s' → isArray s' = isArray s.
Proof.
  unfold put_prop. destruct s; try done.
  - by destruct (String.eqb k "__proto__").
  - by destruct (String.eqb k "__proto__").
  - by destruct (String.eqb k "__proto__").
  - destruct (index_in _ _); [|done]. by intros [= <-].
  - destruct (String.eqb k "__proto__"); [done|]. by intros [= <-].
Qed.

Lemma put_path_isArray s q k x s' :
  put_path s q k x = Ret s' → isArray s' = isArray s.
Proof.
  destruct q as [|a q].
  - rewrite put_path_nil. apply put_prop_isArray.
  - unfold put_path. destruct (get_path s (a :: q)); cbn [mbind outcome_bind]; [|done].
    destruct (put_prop _ k x); cbn [mbind outcome_bind]; [|done].
    unfold plug; fold plug. destruct (get_prop s a); cbn [mbind outcome_bind]; [|done].
    destruct (plug _ q _); cbn [mbind outcome_bind]; [|done].
    apply put_prop_isArray.
Qed.

Section YAxis.
Context (m : props) (c : Chart).

(** The slot is a sequence: the builder works on its first element. *)
Section First.
Context (rest : list value).

Lemma first_sim call :
  simP (λ e, VObj {[ "yaxis" := VArr [e] ]})
    (λ e, VObj (<["yaxis" := VArr (e :: rest)]> m))
    (λ _, True) (only_yaxis VUndefined) c
    (λ r, r = Chart_yaxis) (Axis_call Chart_yaxis call).
Proof.
  apply (sim_Axis_call ["yaxis"; "0"]); cbv beta.
  - intros e q. cbn [app]. erewrite get_path_own by apply lookup_singleton_eq.
    apply get_path_first.
  - intros e q. cbn [app]. erewrite get_path_own by apply lookup_insert_eq.
    apply get_path_first.
  - intros e q k x. cbn [app].
    erewrite put_path_own by first [apply lookup_singleton_eq|done].
    rewrite put_path_first. destruct (put_path e q k x); cbn; [|done].
    by rewrite insert_singleton_eq.
  - intros e q k x. cbn [app].
    erewrite put_path_own by first [apply lookup_insert_eq|done].
    rewrite put_path_first. destruct (put_path e q k x); cbn; [|done].
    by rewrite insert_insert_eq.
  - done.
  - intros cs cb (e & _ & -> & ->). unfold getAxisConfig, load, mbind, M_bind.
    cbn [axisType Chart_yaxis with_options _options].
    erewrite !get_path_own by first [apply lookup_singleton_eq|apply lookup_insert_eq].
    rewrite !get_path_nil. cbn. split; [done|]. split; [by exists e|].
    by intros ? [= <-].
Qed.
End First.

(** The slot is not a sequence: the builder works on the slot. *)
Section Single.
Lemma single_sim call :
  simP (λ s, VObj {[ "yaxis" := s ]}) (λ s, VObj (<["yaxis" := s]> m))
    (λ s, isArray s = false) (only_yaxis VUndefined) c
    (λ r, r = Chart_yaxis) (Axis_call Chart_yaxis call).
Proof.
  apply (sim_Axis_call ["yaxis"]); cbv beta.
  - intros e q. cbn [app]. by erewrite get_path_own by apply lookup_singleton_eq.
  - intros e q. cbn [app]. by erewrite get_path_own by apply lookup_insert_eq.
  - intros e q k x. cbn [app].
    erewrite put_path_own by first [apply lookup_singleton_eq|done].
    destruct (put_path e q k x); cbn; [|done].
    by rewrite insert_singleton_eq.
  - intros e q k x. cbn [app].
    erewrite put_path_own by first [apply lookup_insert_eq|done].
    destruct (put_path e q k x); cbn; [|done].
    by rewrite insert_insert_eq.
  - intros e q k x e' He Hp. by rewrite (put_path_isArray _ _ _ _ _ Hp).
  - intros cs cb (e & He & -> & ->). unfold getAxisConfig, load, mbind, M_bind.
    cbn [axisType Chart_yaxis with_options _options].
    erewrite !get_path_own by first [apply lookup_singleton_eq|apply lookup_insert_eq].
    rewrite !get_path_nil. destruct e; try done; cbn.
    all: split; [done|]; split; [by eexists|]; by intros ? [= <-].
Qed.
End Single.
End YAxis.

Lemma with_options_id c : with_options (_options c) c = c.
Proof. by destruct c. Qed.

Lemma axis_tree_inserts :
  <["crosshairs" := VObj ∅]>
    (<["axisTicks" := VObj ∅]>
       (<["axisBorder" := VObj ∅]>
          (<["labels" := VObj (<["style" := VObj ∅]> ∅)]>
             (<["title" := VObj ∅]> ∅)))) = axis_tree ∅.
Proof. vm_compute. reflexivity. Qed.

Lemma Axis_slot_empty c (m : props) :
  _options c = VObj m → m !! "yaxis" = Some (VArr []) →
  Axis_slot yaxis c
  = (Ret (), with_options (VObj (<["yaxis" := VArr [empty_obj]]> m)) c).
Proof.
  intros Hc Hy. destruct c as [o mg n]. cbn in Hc. subst o.
  unfold Axis_slot. exec.
Qed.

Lemma Axis_constructor_empty c (m : props) :
  _options c = VObj m → m !! "yaxis" = Some (VArr []) →
  Axis_constructor yaxis c
  = (Ret Chart_yaxis,
     with_options (VObj (<["yaxis" := VArr [VObj (axis_tree ∅)]]> m)) c).
Proof.
  intros Hc Hy. destruct c as [o mg n]. cbn in Hc. subst o.
  rewrite <- axis_tree_inserts.
  unfold Axis_constructor, Axis_slot, Axis_nested, getAxisConfig. cbv zeta. exec.
Qed.

(** ** Axis setters on a slot that is not an axis *)

Ltac unfold_axis :=
  cbn [Axis_call];
  unfold Axis_title, Axis_categories, Axis_type, Axis_labels, Axis_range,
    Axis_tickAmount, Axis_axisBorder, Axis_axisTicks, Axis_crosshairs,
    getAxisConfig.

Lemma falsy_cases v :
  truthy v = false →
  v = VUndefined ∨ v = VNull ∨ v = VBool false ∨ v = VNum 0 ∨ v = VStr "".
Proof.
  destruct v as [| |b|z|s| | |]; cbn; try done; auto.
  - intros ->. auto.
  - intros H%negb_false_iff%Z.eqb_eq. subst. auto 10.
  - intros H%negb_false_iff%String.eqb_eq. subst. auto 10.
Qed.

Lemma Axis_call_falsy this call c (m : props) :
  _options c = VObj m →
  truthy (resolved_axis (axisType this) m) = false →
  Axis_call this call c = (Ret this, c).
Proof.
  intros Hc Hf. destruct c as [o mg n]. cbn in Hc. subst o.
  destruct this as [[|]]; cbn [axisType resolved_axis] in Hf.
  - destruct (m !! "xaxis") as [v|] eqn:E; cbn [default id from_option] in Hf.
    + apply falsy_cases in Hf as [->|[->|[->|[->| ->]]]];
        destruct call; unfold_axis; cbn [axisType]; exec.
    + destruct call; unfold_axis; cbn [axisType]; exec.
  - destruct (m !! "yaxis") as [v|] eqn:E.
    + destruct v as [| |b|z|s|h|items|o]; try done.
      1-5: cbn [from_option default id] in Hf;
        apply falsy_cases in Hf as [Hv|[Hv|[Hv|[Hv|Hv]]]]; simplify_eq;
        destruct call; unfold_axis; cbn [axisType]; exec.
      destruct items as [|e rest]; cbn [head default id from_option] in Hf.
      * destruct call; unfold_axis; cbn [axisType]; exec.
      * apply falsy_cases in Hf as [->|[->|[->|[->| ->]]]];
          destruct call; unfold_axis; cbn [axisType]; exec.
    + destruct call; unfold_axis; cbn [axisType]; exec.
Qed.

Lemma Axis_call_mapping this call c (m a : props) :
  _options c = VObj m →
  resolved_axis (axisType this) m = VObj a →
  quiet_title a →
  ∃ c', Axis_call this call c = (Ret this, c').
Proof.
  intros Hc Ha Hq. destruct c as [o mg n]. cbn in Hc. subst o.
  assert (Hcases :
    (this = Chart_xaxis ∧ m !! "xaxis" = Some (VObj a))
    ∨ (this = Chart_yaxis ∧ m !! "yaxis" = Some (VObj a))
    ∨ (this = Chart_yaxis ∧ ∃ rest, m !! "yaxis" = Some (VArr (VObj a :: rest)))).
  { destruct this as [[|]]; cbn [axisType resolved_axis] in Ha.
    - left. split; [done|]. destruct (m !! "xaxis"); by simplify_eq/=.
    - right. destruct (m !! "yaxis") as [[| | | | | |[|e rest]|]|]; simplify_eq/=;
        [right; split; [done|by eexists]|left; done]. }
  unfold quiet_title in Hq.
  destruct call as [text|cats|ty|config|lo hi|amount|config|config|config].
  - destruct (a !! "title") as [t|] eqn:Et.
    + destruct Hq as [Hq|[tm ->]].
      * destruct Hcases as [[-> Hm]|[[-> Hm]|[-> [rest Hm]]]];
          eexists; unfold_axis; cbn [axisType]; exec.
      * destruct Hcases as [[-> Hm]|[[-> Hm]|[-> [rest Hm]]]];
          eexists; unfold_axis; cbn [axisType]; exec.
    + destruct Hcases as [[-> Hm]|[[-> Hm]|[-> [rest Hm]]]];
        eexists; unfold_axis; cbn [axisType]; exec.
  - destruct Hcases as [[-> Hm]|[[-> Hm]|[-> [rest Hm]]]];
      eexists; unfold_axis; cbn [axisType]; exec.
  - destruct Hcases as [[-> Hm]|[[-> Hm]|[-> [rest Hm]]]];
      eexists; unfold_axis; cbn [axisType]; exec.
  - destruct (a !! "labels") as [l|] eqn:El; [destruct (truthy l) eqn:Hl|];
    (destruct (config !! "style") as [st|] eqn:Es; [destruct (truthy st) eqn:Hs|]);
    destruct Hcases as [[-> Hm]|[[-> Hm]|[-> [rest Hm]]]];
      eexists; unfold_axis; cbn [axisType]; exec.
  - destruct Hcases as [[-> Hm]|[[-> Hm]|[-> [rest Hm]]]];
      eexists; unfold_axis; cbn [axisType]; exec.
  - destruct Hcases as [[-> Hm]|[[-> Hm]|[-> [rest Hm]]]];
      eexists; unfold_axis; cbn [axisType]; exec.
  - destruct (a !! "axisBorder") as [t|] eqn:Et; [destruct (truthy t) eqn:Ht|];
    destruct Hcases as [[-> Hm]|[[-> Hm]|[-> [rest Hm]]]];
      eexists; unfold_axis; cbn [axisType]; exec.
  - destruct (a !! "axisTicks") as [t|] eqn:Et; [destruct (truthy t) eqn:Ht|];
    destruct Hcases as [[-> Hm]|[[-> Hm]|[-> [rest Hm]]]];
      eexists; unfold_axis; cbn [axisType]; exec.
  - destruct (a !! "crosshairs") as [t|] eqn:Et; [destruct (truthy t) eqn:Ht|];
    destruct Hcases as [[-> Hm]|[[-> Hm]|[-> [rest Hm]]]];
      eexists; unfold_axis; cbn [axisType]; exec.
Qed.

(** ** The plot options manager *)

Lemma PlotOptionsManager_constructor_run c (m : props) :
  _options c = VObj m → m !! "plotOptions" = None →
  PlotOptionsManager_constructor c
  = (Ret (), MkChart (VObj (<["plotOptions" := empty_obj]> m)) empty_manager (created c)).
Proof.
  intros Hc Hm. destruct c as [o mg n]. cbn in Hc. subst o.
  unfold PlotOptionsManager_constructor, ensurePlotOptions. exec.
Qed.

Lemma PlotOptionsManager_get_cached t c i :
  cached t (plotOptions c) = Some i → PlotOptionsManager_get t c = (Ret i, c).
Proof.
  destruct c as [o [b p r h] n]. destruct t; cbn; intros ->; reflexivity.
Qed.

Lemma PlotOptionsManager_get_fresh t c :
  cached t (plotOptions c) = None →
  ∃ c', PlotOptionsManager_get t c = (Ret (Instance (created c)), c')
        ∧ _options c' = _options c
        ∧ created c' = S (created c)
        ∧ cached t (plotOptions c') = Some (Instance (created c)).
Proof.
  destruct c as [o [b p r h] n]. destruct t; cbn; intros ->; eexists; by split.
Qed.

Lemma ensurePlotOptionType_run t c (m po : props) :
  _options c = VObj m → m !! "plotOptions" = Some (VObj po) →
  po !! plot_key t = None →
  ensurePlotOptionType (plot_key t) c
  = (Ret ["plotOptions"; plot_key t],
     with_options (VObj (<["plotOptions" := VObj (<[plot_key t := empty_obj]> po)]> m)) c).
Proof.
  intros Hc Hm Hpo. destruct c as [o mg n]. cbn in Hc. subst o.
  unfold ensurePlotOptionType, ensurePlotOptions. destruct t; cbn [plot_key] in *; exec.
Qed.

Lemma Plot_call_creates call this c (m po : props) :
  _options c = VObj m → m !! "plotOptions" = Some (VObj po) →
  po !! plot_key (plot_call_type call) = None →
  fits (plot_shape (plot_call_type call)) (_options (snd (Plot_call this call c))).
Proof.
  intros Hc Hm Hpo.
  pose proof (ensurePlotOptionType_run _ c m po Hc Hm Hpo) as He.
  set (c1 := with_options _ c) in He.
  assert (H1 : shaped (plot_shape (plot_call_type call)) c1).
  { subst c1. eexists. split; [reflexivity|]. cbn [plot_shape kids_of fits_kids].
    split; [|done]. eexists. split; [apply lk_ins|].
    eexists. split; [reflexivity|]. split; [|done].
    eexists. split; [apply lk_ins|]. by eexists. }
  destruct call as [call|call|call|call]; destruct call; cbn [Plot_call
        BarOptions_call PieOptions_call RadialBarOptions_call HeatmapOptions_call];
      unfold BarOptions_horizontal, BarOptions_columnWidth, BarOptions_barHeight,
        BarOptions_distributed, BarOptions_borderRadius, BarOptions_colors,
        PieOptions_startAngle, PieOptions_endAngle, PieOptions_expandOnClick,
        PieOptions_donut, RadialBarOptions_hollow, RadialBarOptions_track,
        RadialBarOptions_dataLabels, HeatmapOptions_radius,
        HeatmapOptions_enableShades, HeatmapOptions_shadeIntensity,
        HeatmapOptions_colorScale, ensureBarOptions, ensurePieOptions,
        ensureRadialBarOptions, ensureHeatmapOptions;
      cbn [plot_call_type plot_key] in *;
      unfold mbind at 1; unfold M_bind at 1; rewrite He;
      (match goal with
       | |- fits ?sh (_options (snd (?f ?c'))) =>
           assert (K : keeps (shaped sh) (λ _, True) f)
             by (cbn [app]; unfold plot_shape; cbn [plot_key]; kp);
           exact (proj1 (K c' H1))
       end).
Qed.

(** C9: on a chart whose tree is a mapping, [series(L1)] followed by
    [series(L2)] returns and leaves the tree with the entry [series] equal
    to [L2], every other entry as it was. *)
Theorem series_twice c (m : props) L1 L2 :
  _options c = VObj m →
  (Chart_series L1;; Chart_series L2) c
  = (Ret (), with_options (VObj (<["series" := VArr L2]> m)) c).
Proof.
  intros H. destruct c as [o mg n]. cbn in H. subst o.
  unfold Chart_series. exec.
Qed.

(** Two calls on a line chart that has just been constructed. *)
Lemma series_twice_example :
  (Chart_series [VNum 1; VNum 2];; Chart_series [VNum 3]) (snd (Chart_create line))
  = (Ret (), with_options (VObj (<["series" := VArr [VNum 3]]> (fresh_tree line)))
               (snd (Chart_create line))).
Proof.
  apply (series_twice (snd (Chart_create line)) (fresh_tree line)).
  vm_compute. reflexivity.
Defined.

Lemma fitsb_sound sh : ∀ v, fitsb sh v = true → fits sh v.
Proof.
  induction sh as [|ks IH| |k sh IHsh rest IHrest]
    using shape_kids_ind
    with (P0 := λ ks, ∀ t, fits_kidsb ks t = true → fits_kids ks t).
  - done.
  - intros [| | | | | | |t] H; try done. exists t. split; [done|]. by apply IH.
  - done.
  - intros t H. cbn [fits_kidsb] in H. apply andb_prop in H as [H1 H2].
    split; [|by apply IHrest].
    destruct (t !! k) as [x|]; [|done]. exists x. split; [done|]. by apply IHsh.
Qed.

Lemma fresh_tree_fits type : fits scaffold (VObj (fresh_tree type)).
Proof.
  apply fitsb_sound. unfold fresh_tree.
  generalize (ChartType_name type). intros name. vm_compute. reflexivity.
Qed.

(** ** Constructors keep what is populated *)

Lemma index_from_spec n i k j :
  index_from i n k = Some j → key_of_index j = k ∧ (i ≤ j < i + n)%nat.
Proof.
  revert i. induction n as [|n IH]; intros i; cbn [index_from]; [done|].
  destruct (String.eqb (key_of_index i) k) eqn:E.
  - intros [= <-]. apply String.eqb_eq in E. split; [done|lia].
  - intros H. destruct (IH _ H) as [? ?]. split; [done|lia].
Qed.

Lemma index_in_spec n k j :
  index_in n k = Some j → key_of_index j = k ∧ (j < n)%nat.
Proof. intros H. destruct (index_from_spec _ _ _ _ H). split; [done|lia]. Qed.

Lemma put_prop_other v k x v' a :
  put_prop v k x = Ret v' → a ≠ k → get_prop v' a = get_prop v a.
Proof.
  intros H Hak. destruct v as [| |b|z|s|h|items|m]; unfold put_prop in H; try done.
  - by destruct (String.eqb k "__proto__").
  - by destruct (String.eqb k "__proto__").
  - by destruct (String.eqb k "__proto__").
  - destruct (index_in (length items) k) as [i|] eqn:Ei; [|done].
    injection H as <-. unfold get_prop, get_item.
    rewrite length_insert.
    destruct (index_in (length items) a) as [j|] eqn:Ej; [|done].
    rewrite list_lookup_insert_ne; [done|].
    intros ->. apply index_in_spec in Ei as [Hi _], Ej as [Hj _]. congruence.
  - destruct (String.eqb k "__proto__"); [done|]. injection H as <-.
    unfold get_prop. rewrite lookup_insert_ne; done.
Qed.

Lemma put_prop_same v k x v' :
  put_prop v k x = Ret v' → get_prop v' k = Ret x.
Proof.
  intros H. destruct v as [| |b|z|s|h|items|m]; unfold put_prop in H; try done.
  - by destruct (String.eqb k "__proto__").
  - by destruct (String.eqb k "__proto__").
  - by destruct (String.eqb k "__proto__").
  - destruct (index_in (length items) k) as [i|] eqn:Ei; [|done].
    injection H as <-. unfold get_prop, get_item.
    rewrite length_insert, Ei.
    apply index_in_spec in Ei as [_ Hi].
    by rewrite list_lookup_insert_eq.
  - destruct (String.eqb k "__proto__"); [done|]. injection H as <-.
    unfold get_prop. by rewrite lookup_insert_eq.
Qed.

Lemma put_prop_back v k old v' :
  get_prop v k = Ret old → truthy old = true → put_prop v k old = Ret v' → v' = v.
Proof.
  intros Hg Ht H. destruct v as [| |b|z|s|h|items|m]; unfold put_prop in H; try done.
  - by destruct (String.eqb k "__proto__").
  - by destruct (String.eqb k "__proto__").
  - by destruct (String.eqb k "__proto__").
  - unfold get_prop, get_item in Hg.
    destruct (index_in (length items) k) as [i|] eqn:Ei; [|done].
    injection H as <-. injection Hg as <-.
    apply index_in_spec in Ei as [_ Hi].
    destruct (lookup_lt_is_Some_2 items i Hi) as [y Hy].
    rewrite Hy. cbn. by rewrite list_insert_id.
  - destruct (String.eqb k "__proto__"); [done|]. injection H as <-.
    unfold get_prop in Hg. destruct (m !! k) as [y|] eqn:Ey.
    + injection Hg as ->. by rewrite insert_id.
    + unfold absent in Hg. destruct (inherited [] k); [done|].
      injection Hg as <-. done.
Qed.

Lemma hollow_undefined r w : get_path VUndefined r = Ret w → truthy w = false.
Proof. destruct r; [by intros [= <-]|done]. Qed.

Lemma hollow_absent extra k r w :
  (x ← absent extra k; get_path x r) = Ret w → truthy w = false.
Proof.
  unfold absent. destruct (inherited extra k); [done|]. apply hollow_undefined.
Qed.

Lemma hollow_num n r w : get_path (VNum n) r = Ret w → r ≠ [] → truthy w = false.
Proof.
  destruct r as [|a r]; [done|]. rewrite get_path_cons. intros H _.
  by apply hollow_absent in H.
Qed.

Lemma hollow v a r w :
  truthy v = false ∨ v = VArr [] →
  get_path v (a :: r) = Ret w → truthy w = false.
Proof.
  intros Hv H. rewrite get_path_cons in H.
  destruct v as [| |b|z|s|h|items|m]; try done.
  - by apply hollow_absent in H.
  - by apply hollow_absent in H.
  - destruct Hv as [Hv|?]; [|done]. destruct s; [|done].
    unfold get_prop, get_item in H. cbn [units length index_in index_from] in H.
    destruct (String.eqb a "length").
    + cbn [mbind outcome_bind] in H.
      destruct r as [|b r]; [by injection H as <-|]. by apply hollow_num in H.
    + by apply hollow_absent in H.
  - destruct Hv as [?|Hv]; [done|]. injection Hv as ->.
    unfold get_prop, get_item in H. cbn [length index_in index_from] in H.
    destruct (String.eqb a "length").
    + cbn [mbind outcome_bind] in H.
      destruct r as [|b r]; [by injection H as <-|]. by apply hollow_num in H.
    + by apply hollow_absent in H.
  - by destruct Hv.
Qed.

Lemma put_path_cons root s q k x :
  put_path root (s :: q) k x
  = (child ← get_prop root s; child' ← put_path child q k x; put_prop root s child').
Proof.
  unfold put_path. rewrite get_path_cons.
  destruct (get_prop root s) as [child|e] eqn:E; cbn [mbind outcome_bind]; [|done].
  destruct (get_path child q) as [t|e]; cbn [mbind outcome_bind]; [|done].
  destruct (put_prop t k x) as [t'|e]; cbn [mbind outcome_bind]; [|done].
  by rewrite plug_cons, E.
Qed.

Lemma put_prop_truthy v k x v' : put_prop v k x = Ret v' → truthy v' = true.
Proof.
  unfold put_prop. destruct v as [| |b|z|s|h|items|m]; try done.
  - by destruct (String.eqb k "__proto__").
  - by destruct (String.eqb k "__proto__").
  - by destruct (String.eqb k "__proto__").
  - destruct (index_in _ _); [|done]. by intros [= <-].
  - destruct (String.eqb k "__proto__"); [done|]. by intros [= <-].
Qed.

Lemma truthy_at_nil v : truthy_at v [] = truthy v.
Proof. reflexivity. Qed.

Lemma truthy_at_cons v a r :
  truthy_at v (a :: r)
  = match get_prop v a with
    | Ret x => truthy_at x r
    | Throw _ => false
    end.
Proof. unfold truthy_at. rewrite get_path_cons. by destruct (get_prop v a). Qed.

(** Nothing truthy is found below a falsy value. *)
Lemma truthy_at_below v r :
  truthy v = false → truthy_at v r = false.
Proof.
  intros Hv. destruct r as [|a r]; [done|]. unfold truthy_at.
  destruct (get_path v (a :: r)) as [w|] eqn:E; [|done].
  apply (hollow v a r w); [by left|done].
Qed.

(** A write at [q ++ [k]] is not seen at a place apart from it. *)
Lemma put_path_apart q : ∀ root k x root' p,
  put_path root q k x = Ret root' →
  strict_prefix p (q ++ [k]) = false →
  is_prefix (q ++ [k]) p = false →
  get_path root' p = get_path root p.
Proof.
  induction q as [|s q IH]; intros root k x root' p Hput Hp Hw.
  - rewrite put_path_nil in Hput. destruct p as [|a r]; [done|].
    cbn in Hw. rewrite andb_true_r in Hw. apply String.eqb_neq in Hw.
    rewrite !get_path_cons. by rewrite (put_prop_other _ _ _ _ a Hput).
  - rewrite put_path_cons in Hput. destruct p as [|a r]; [done|].
    cbn [app strict_prefix is_prefix] in Hp, Hw. rewrite !get_path_cons.
    destruct (get_prop root s) as [child|] eqn:Ec; [|done].
    cbn [mbind outcome_bind] in Hput.
    destruct (put_path child q k x) as [child'|] eqn:Ec'; [|done].
    cbn [mbind outcome_bind] in Hput.
    destruct (decide (a = s)) as [->|Has].
    + rewrite String.eqb_refl in Hp, Hw. cbn in Hp, Hw.
      rewrite Ec, (put_prop_same _ _ _ _ Hput). cbn [mbind outcome_bind].
      by apply (IH child k x).
    + by rewrite (put_prop_other _ _ _ _ a Hput).
Qed.

(** Writing back the truthy value that a place holds changes nothing. *)
Lemma put_path_back q : ∀ root k old root',
  get_path root (q ++ [k]) = Ret old → truthy old = true →
  put_path root q k old = Ret root' → root' = root.
Proof.
  induction q as [|s q IH]; intros root k old root' Hg Ht Hput.
  - rewrite put_path_nil in Hput. cbn [app] in Hg. rewrite get_path_cons in Hg.
    destruct (get_prop root k) as [y|] eqn:Ey; [|done].
    cbn [mbind outcome_bind] in Hg. rewrite get_path_nil in Hg. injection Hg as ->.
    by apply (put_prop_back _ k old).
  - rewrite put_path_cons in Hput. cbn [app] in Hg. rewrite get_path_cons in Hg.
    destruct (get_prop root s) as [child|] eqn:Ec; [|done].
    cbn [mbind outcome_bind] in Hput, Hg.
    destruct (put_path child q k old) as [child'|] eqn:Ec'; [|done].
    cbn [mbind outcome_bind] in Hput.
    assert (child' = child) as -> by (by apply (IH child k old)).
    apply (put_prop_back _ s child); [done| |done].
    destruct (truthy child) eqn:Hc; [done|].
    destruct (q ++ [k]) as [|b r] eqn:Eq; [by destruct q|].
    apply hollow in Hg; [congruence|by left].
Qed.

(** The assignment [x = x || {}] leaves truthy what is truthy. *)
Lemma put_path_truthy q : ∀ root k old root' w,
  get_path root (q ++ [k]) = Ret old →
  put_path root q k (js_or old empty_obj) = Ret root' →
  truthy_at root w = true → truthy_at root' w = true.
Proof.
  induction q as [|s q IH]; intros root k old root' w Hg Hput Hw.
  - rewrite put_path_nil in Hput. cbn [app] in Hg. rewrite get_path_cons in Hg.
    destruct (get_prop root k) as [y|] eqn:Ey; [|done].
    cbn [mbind outcome_bind] in Hg. rewrite get_path_nil in Hg. injection Hg as ->.
    destruct w as [|a r]; [by rewrite truthy_at_nil, (put_prop_truthy _ _ _ _ Hput)|].
    rewrite truthy_at_cons in Hw |- *.
    destruct (decide (a = k)) as [->|Hak].
    + rewrite Ey in Hw. rewrite (put_prop_same _ _ _ _ Hput).
      unfold js_or. destruct (truthy old) eqn:Ht; [done|].
      by rewrite (truthy_at_below _ _ Ht) in Hw.
    + by rewrite (put_prop_other _ _ _ _ a Hput).
  - rewrite put_path_cons in Hput. cbn [app] in Hg. rewrite get_path_cons in Hg.
    destruct (get_prop root s) as [child|] eqn:Ec; [|done].
    cbn [mbind outcome_bind] in Hput, Hg.
    destruct (put_path child q k _) as [child'|] eqn:Ec'; [|done].
    cbn [mbind outcome_bind] in Hput.
    destruct w as [|a r]; [by rewrite truthy_at_nil, (put_prop_truthy _ _ _ _ Hput)|].
    rewrite truthy_at_cons in Hw |- *.
    destruct (decide (a = s)) as [->|Has].
    + rewrite Ec in Hw. rewrite (put_prop_same _ _ _ _ Hput).
      by apply (IH child k old).
    + by rewrite (put_prop_other _ _ _ _ a Hput).
Qed.

Lemma is_prefix_app w r : is_prefix w (w ++ r) = true.
Proof. induction w as [|a w IH]; [done|]. cbn. by rewrite String.eqb_refl. Qed.

Lemma is_prefix_split w p : is_prefix w p = true → ∃ r, p = w ++ r.
Proof.
  revert p. induction w as [|a w IH]; intros p H; [by exists p|].
  destruct p as [|b p]; [done|]. cbn in H. apply andb_prop in H as [Hab H].
  apply String.eqb_eq in Hab as ->. destruct (IH p H) as [r ->]. by exists r.
Qed.

(** What lies above a truthy value is truthy. *)
Lemma truthy_above root w r v :
  get_path root (w ++ r) = Ret v → truthy v = true → truthy_at root w = true.
Proof.
  intros Hg Hv. unfold truthy_at. rewrite get_path_app in Hg.
  destruct (get_path root w) as [x|]; [|done]. cbn [mbind outcome_bind] in Hg.
  destruct (truthy x) eqn:Hx; [done|].
  destruct r as [|a r]; [rewrite get_path_nil in Hg; congruence|].
  apply hollow in Hg; [congruence|by left].
Qed.

Lemma field_of_truthy C root p v :
  get_path root p = Ret v → truthy v = true →
  forallb (λ w, negb (strict_prefix p w)) (written C) = true →
  field_of C root p = true.
Proof.
  intros Hg Hv. unfold field_of. induction (written C) as [|w l IH]; [done|].
  cbn [forallb]. intros [H1 H2]%andb_prop. rewrite (IH H2), andb_true_r.
  unfold clear_of. rewrite H1. cbn [andb].
  destruct (is_prefix w p) eqn:E; [|done]. cbn [negb orb].
  destruct (is_prefix_split _ _ E) as [r ->]. by eapply truthy_above.
Qed.

Lemma keeps_assoc {A B C : Type} (I : Chart → Prop) (Q : C → Prop)
    (m : M A) (f : A → M B) (g : B → M C) :
  keeps I Q ((m ≫= f) ≫= g) → keeps I Q (m ≫= λ x, f x ≫= g).
Proof. intros H c Hc. specialize (H c Hc). by rewrite M_bind_assoc in H. Qed.

Section Held.
Context (W : list path) (p : path) (v : value).
Context (Hs : Forall (λ w, strict_prefix p w = false) W).

Local Abbreviation held := (keeps (settled W p v) (λ _, True)).

(** The assignment [x = x || {}] at a place of [W]. *)
Lemma settled_put q k old c o :
  q ++ [k] ∈ W →
  settled W p v c →
  get_path (_options c) (q ++ [k]) = Ret old →
  put_path (_options c) q k (js_or old empty_obj) = Ret o →
  settled W p v (with_options o c).
Proof.
  intros Hin [Hv HW] Hg Hput. unfold settled. cbn [_options with_options].
  assert (Hp : strict_prefix p (q ++ [k]) = false).
  { rewrite Forall_forall in Hs. by apply Hs. }
  destruct (is_prefix (q ++ [k]) p) eqn:E.
  - assert (Ht : truthy old = true).
    { rewrite Forall_forall in HW. specialize (HW _ Hin E).
      unfold truthy_at in HW. by rewrite Hg in HW. }
    unfold js_or in Hput. rewrite Ht in Hput.
    by rewrite (put_path_back _ _ _ _ _ Hg Ht Hput).
  - split; [by rewrite (put_path_apart _ _ _ _ _ _ Hput Hp E)|].
    eapply Forall_impl; [exact HW|]. intros w Hw Hwp. cbn beta in Hw.
    by eapply put_path_truthy; [exact Hg|exact Hput|apply Hw].
Qed.

Lemma held_ensure q k : q ++ [k] ∈ W → held (ensure q k).
Proof.
  intros Hin c Hc. split; [|done]. unfold ensure, mbind, M_bind, load, store.
  destruct (get_path (_options c) (q ++ [k])) as [old|e] eqn:Eo; [|done].
  destruct (put_path (_options c) q k (js_or old empty_obj)) as [o|e] eqn:E; [|done].
  by eapply settled_put.
Qed.

Lemma held_slot k :
  [k] ∈ W →
  held (x ← load [k]; when (negb (truthy x)) (store [] k empty_obj)).
Proof.
  intros Hin c Hc. split; [|done]. unfold mbind, M_bind, load, store.
  destruct (get_path (_options c) [k]) as [old|e] eqn:Eo; [|done].
  destruct (truthy old) eqn:Ht; [done|]. cbn [negb when].
  destruct (put_path (_options c) [] k empty_obj) as [o|e] eqn:E; [|done].
  apply (settled_put [] k old); try done.
  unfold js_or. by rewrite Ht.
Qed.

(** [push({})] on the empty sequence. *)
Lemma held_push :
  ["yaxis"; "0"] ∈ W → ["yaxis"; "length"] ∈ W →
  ∀ c, settled W p v c → get_path (_options c) ["yaxis"] = Ret (VArr []) →
       settled W p v (snd (update ["yaxis"] (VArr [empty_obj]) c)).
Proof.
  intros H0 Hl c [Hv HW] Hy. unfold update.
  assert (Hp : strict_prefix p ["yaxis"; "0"] = false).
  { rewrite Forall_forall in Hs. by apply Hs. }
  destruct (plug (_options c) ["yaxis"] (VArr [empty_obj])) as [o|e] eqn:E; [|done].
  unfold settled. cbn [snd _options with_options]. rewrite plug_cons in E.
  rewrite get_path_cons in Hy.
  destruct (get_prop (_options c) "yaxis") as [y|] eqn:Ey; [|done].
  cbn [mbind outcome_bind] in Hy, E. rewrite get_path_nil in Hy.
  injection Hy as ->. cbn [plug mbind outcome_bind] in E.
  rewrite Forall_forall in HW.
  assert (Hsame : ∀ b r, is_prefix ["yaxis"; b] p = true →
            get_path o ("yaxis" :: b :: r) = get_path (_options c) ("yaxis" :: b :: r)).
  { intros b r Hb. rewrite !get_path_cons.
    rewrite Ey, (put_prop_same _ _ _ _ E). cbn [mbind outcome_bind].
    rewrite !get_path_cons.
    unfold get_prop, get_item. cbn [length index_in index_from].
    change (key_of_index 0) with "0".
    destruct (String.eqb "0" b) eqn:E0.
    { apply String.eqb_eq in E0 as <-. specialize (HW _ H0 Hb).
      unfold truthy_at in HW. rewrite !get_path_cons, Ey in HW.
      cbn [mbind outcome_bind] in HW.
      unfold get_prop, get_item in HW. by vm_compute in HW. }
    destruct (String.eqb b "length") eqn:El; [|done].
    apply String.eqb_eq in El as ->. specialize (HW _ Hl Hb).
    unfold truthy_at in HW. rewrite !get_path_cons, Ey in HW.
    cbn [mbind outcome_bind] in HW.
    unfold get_prop, get_item in HW. by vm_compute in HW. }
  destruct p as [|a [|b r]]; [done| |].
  - destruct (decide (a = "yaxis")) as [->|Ha]; [done|]. split.
    + rewrite !get_path_cons in Hv |- *. by rewrite (put_prop_other _ _ _ _ a E).
    + apply Forall_forall. intros w Hin Hwp.
      destruct w as [|a' [|b' r']];
        [by rewrite truthy_at_nil, (put_prop_truthy _ _ _ _ E)| |cbn in Hwp; by rewrite andb_false_r in Hwp].
      cbn in Hwp. rewrite andb_true_r in Hwp. apply String.eqb_eq in Hwp as ->.
      specialize (HW _ Hin). cbn in HW. rewrite String.eqb_refl in HW.
      specialize (HW eq_refl). unfold truthy_at in HW |- *.
      rewrite !get_path_cons in HW |- *. by rewrite (put_prop_other _ _ _ _ a E).
  - destruct (decide (a = "yaxis")) as [->|Ha].
    + split.
      * rewrite Hsame; [done|]. cbn. by rewrite String.eqb_refl.
      * apply Forall_forall. intros w Hin Hwp.
        destruct w as [|a' [|b' r']]; [by rewrite truthy_at_nil, (put_prop_truthy _ _ _ _ E)| |].
        -- cbn in Hwp. rewrite andb_true_r in Hwp. apply String.eqb_eq in Hwp as ->.
           unfold truthy_at. rewrite get_path_cons, (put_prop_same _ _ _ _ E). done.
        -- assert (Hw2 := Hwp). cbn in Hwp.
           apply andb_prop in Hwp as [->%String.eqb_eq [->%String.eqb_eq Hr]%andb_prop].
           unfold truthy_at. rewrite Hsame.
           ++ by apply (HW _ Hin).
           ++ cbn. by rewrite !String.eqb_refl.
    + split.
      * rewrite !get_path_cons in Hv |- *. by rewrite (put_prop_other _ _ _ _ a E).
      * apply Forall_forall. intros w Hin Hwp.
        destruct w as [|a' w']; [by rewrite truthy_at_nil, (put_prop_truthy _ _ _ _ E)|].
        assert (a' = a) as ->.
        { cbn in Hwp. apply andb_prop in Hwp as [H%String.eqb_eq _]. done. }
        specialize (HW _ Hin Hwp). unfold truthy_at in HW |- *.
        rewrite !get_path_cons in HW |- *. by rewrite (put_prop_other _ _ _ _ a E).
Qed.

Lemma held_load q : held (load q).
Proof. by intros c Hc. Qed.

Lemma held_getAxisConfig a :
  keeps (settled W p v)
    (λ r, r = Some [axis_name a] ∨ a = yaxis ∧ (r = Some ["yaxis"; "0"] ∨ r = None))
    (getAxisConfig (MkAxis a)).
Proof.
  unfold getAxisConfig. destruct a; cbn [axisType axis_name].
  - eapply keeps_bind; [apply held_load|]. intros _ _. apply keeps_ret. by left.
  - eapply keeps_bind; [apply held_load|]. intros y _.
    destruct y as [| | | | | |items|]; try (apply keeps_ret; by left).
    destruct (0 <? length items)%nat; apply keeps_ret; auto.
Qed.

Lemma held_deref r : held (deref r).
Proof. destruct r; [apply held_load|by apply keeps_ret]. Qed.

Lemma held_ensures q :
  Forall (λ w, w ∈ W) (app q <$> axis_children) →
  held (ensure q "title";;
        ensure q "labels";;
        ensure (q ++ ["labels"]) "style";;
        ensure q "axisBorder";;
        ensure q "axisTicks";;
        ensure q "crosshairs").
Proof.
  intros Hp. cbn [axis_children fmap list_fmap] in Hp.
  repeat match goal with
         | H : Forall _ (_ :: _) |- _ => apply Forall_cons in H as [? H]
         end.
  repeat (eapply keeps_bind; [|intros _ _]); apply held_ensure;
    rewrite <- ?(assoc_L app); done.
Qed.
End Held.

(** The place is among those that the constructor may assign to. *)
Ltac place_in :=
  cbn [written axis_children fmap list_fmap app axis_name];
  repeat first [apply list_elem_of_here | apply list_elem_of_further].

Local Abbreviation held C p v := (keeps (settled (written C) p v) (λ _, True)).

Section Constructors.
Context (p : path) (v : value).

Lemma held_Axis_slot a :
  Forall (λ w, strict_prefix p w = false) (written (CAxis a)) →
  held (CAxis a) p v (Axis_slot a).
Proof.
  intros Hs. destruct a; unfold Axis_slot.
  - apply held_slot; [done|place_in].
  - intros c Hc. split; [|done].
    assert (Hin : ["yaxis"] ∈ written (CAxis yaxis)) by place_in.
    pose proof (held_slot _ p v Hs "yaxis" Hin c Hc) as [Hslot _].
    unfold mbind, M_bind, load in Hslot |- *.
    destruct (get_path (_options c) ["yaxis"]) as [y|e] eqn:Ey; [|done].
    destruct (truthy y) eqn:Ht; cbn [negb when] in Hslot |- *; [|done].
    destruct y as [| | | | | |[|e rest]|]; try done.
    apply held_push; [done|place_in|place_in|done|done].
Qed.

Lemma held_Axis_nested a :
  Forall (λ w, strict_prefix p w = false) (written (CAxis a)) →
  held (CAxis a) p v (Axis_nested (MkAxis a)).
Proof.
  intros Hs. unfold Axis_nested.
  eapply keeps_bind; [apply held_getAxisConfig|]. intros r Hr.
  destruct Hr as [->|[-> [->| ->]]].
  3: { eapply keeps_bind; [by apply (keeps_ret _ (λ x, x = VUndefined))|].
       intros x ->. by apply keeps_ret. }
  all: eapply keeps_bind; [apply held_deref|]; intros x _;
    apply keeps_when; intros _; cbn [target default id];
    apply held_ensures; [done|].
  - destruct a; cbn [axis_name axis_children fmap list_fmap app];
      repeat constructor; place_in.
  - cbn [axis_children fmap list_fmap app]; repeat constructor; place_in.
Qed.

Ltac held_steps Hs :=
  repeat first
    [ apply keeps_assoc; eapply keeps_bind;
      [apply held_slot; [exact Hs|place_in]|intros _ _]
    | eapply keeps_bind; [apply held_ensure; [exact Hs|place_in]|intros _ _]
    | by apply (keeps_ret _ (λ _, True)) ].

Lemma held_construct C :
  Forall (λ w, strict_prefix p w = false) (written C) →
  held C p v (construct C).
Proof.
  intros Hs. destruct C as [a| | | | | |]; cbn [construct]; unfold done_.
  - eapply keeps_bind; [|intros _ _; by apply keeps_ret].
    unfold Axis_constructor. cbv zeta.
    eapply keeps_bind; [by apply held_Axis_slot|]. intros _ _.
    eapply keeps_bind; [by apply held_Axis_nested|]. intros _ _.
    by apply (keeps_ret _ (λ _, True)).
  - eapply keeps_bind; [|intros _ _; by apply keeps_ret].
    unfold Tooltip_constructor. cbv zeta. held_steps Hs.
  - eapply keeps_bind; [|intros _ _; by apply keeps_ret].
    unfold Legend_constructor. cbv zeta. held_steps Hs.
  - eapply keeps_bind; [|intros _ _; by apply keeps_ret].
    unfold Grid_constructor. cbv zeta. held_steps Hs.
  - eapply keeps_bind; [|intros _ _; by apply keeps_ret].
    unfold DataLabels_constructor. cbv zeta. held_steps Hs.
  - eapply keeps_bind; [|intros _ _; by apply keeps_ret].
    unfold Markers_constructor. cbv zeta. held_steps Hs.
  - eapply keeps_bind; [|intros _ _; by apply keeps_ret].
    unfold Theme_constructor. cbv zeta. held_steps Hs.
Qed.
End Constructors.

Lemma field_of_settled C c p v :
  field_of C (_options c) p = true → get_path (_options c) p = Ret v →
  Forall (λ w, strict_prefix p w = false) (written C)
  ∧ settled (written C) p v c.
Proof.
  unfold field_of, settled. intros H Hg.
  induction (written C) as [|w l IH]; [done|].
  cbn [forallb] in H. apply andb_prop in H as [Hw H].
  destruct (IH H) as (IH1 & _ & IH2).
  unfold clear_of in Hw. apply andb_prop in Hw as [Hw1%negb_true_iff Hw2].
  split; [by constructor|]. split; [done|]. constructor; [|done].
  intros E. rewrite E in Hw2. done.
Qed.



(** ** Merge setters *)

Ltac unfold_setters :=
  cbn [Builder_call merge_op Axis_call Tooltip_call Legend_call Grid_call
       DataLabels_call Markers_call Theme_call Plot_call BarOptions_call
       RadialBarOptions_call HeatmapOptions_call plot_call_type
       PlotOptionsManager_get];
  unfold Axis_axisBorder, Axis_axisTicks, Axis_crosshairs, getAxisConfig,
    Tooltip_style, Legend_labels, Legend_markers, Legend_itemMargin,
    Grid_xaxis, Grid_yaxis, Grid_lines, Grid_padding, DataLabels_style,
    DataLabels_background, Markers_hover, Theme_monochrome,
    BarOptions_colors, RadialBarOptions_hollow, RadialBarOptions_track,
    HeatmapOptions_colorScale, ensureBarOptions, ensureRadialBarOptions,
    ensureHeatmapOptions, ensurePlotOptionType, ensurePlotOptions,
    PlotOptionsManager_bar, PlotOptionsManager_radialBar,
    PlotOptionsManager_heatmap;
  cbv zeta.

Lemma merge_setter_run (s : merge_setter) (c : Chart) (old partial : props) :
  fits (chain (merged_place s)) (_options c) →
  get_path (_options c) (merged_place s) = Ret (VObj old) →
  ∃ c', Builder_call (merge_op s partial) c = (Ret (), c')
        ∧ get_path (_options c') (merged_place s) = Ret (VObj (partial ∪ old)).
Proof.
  intros Hf Hg. destruct c as [o [b p r h] n]. cbn [_options] in *.
  destruct s as [a|a|a| | | | | | | | | | | | | | | ]; try destruct a;
    cbn [merged_place axis_name chain mapping fits fits_kids] in Hf, Hg.
  1-10,13-17:
    destruct Hf as (m & -> & (x1 & H1 & (t1 & -> & (x2 & H2 & (t2 & -> & _)) & _)) & _);
    revert Hg; repeat step; intros [= ->];
    eexists; (split; [unfold_setters; exec|]); cbn [_options merged_place axis_name]; by norm.
  1-2:
    destruct Hf as (m & -> & (x1 & H1 & (t1 & -> & (x2 & H2 & (t2 & -> &
                     (x3 & H3 & (t3 & -> & _)) & _)) & _)) & _);
    revert Hg; repeat step; intros [= ->];
    eexists; (split; [unfold_setters; exec|]); cbn [_options merged_place axis_name]; by norm.
  all:
    destruct Hf as (m & -> & (x1 & H1 & (t1 & -> & (x2 & H2 & (t2 & -> &
                     (x3 & H3 & (t3 & -> & _)) & _)) & _)) & _);
    revert Hg; repeat step; intros [= ->].
  - destruct b; eexists; (split; [unfold_setters; exec|]); cbn [_options merged_place axis_name]; by norm.
  - destruct r; eexists; (split; [unfold_setters; exec|]); cbn [_options merged_place axis_name]; by norm.
  - destruct r; eexists; (split; [unfold_setters; exec|]); cbn [_options merged_place axis_name]; by norm.
  - destruct h; eexists; (split; [unfold_setters; exec|]); cbn [_options merged_place axis_name]; by norm.
Qed.

(** C2: a merge setter called with a partial object on a tree that has the
    sub-mapping [old] of the setter, reached through mappings, returns and
    leaves at that place the mapping [partial ∪ old]: every key of the
    partial object has the value that the partial object gives it, and
    every other key has the value it had in [old]. *)
Theorem merge_setter_shallow (s : merge_setter) (c : Chart) (old partial : props) :
  fits (chain (merged_place s)) (_options c) →
  get_path (_options c) (merged_place s) = Ret (VObj old) →
  ∃ c' new,
    Builder_call (merge_op s partial) c = (Ret (), c')
    ∧ get_path (_options c') (merged_place s) = Ret (VObj new)
    ∧ new = partial ∪ old
    ∧ (∀ k x, partial !! k = Some x → new !! k = Some x)
    ∧ (∀ k, partial !! k = None → new !! k = old !! k).
Proof.
  intros Hf Hg.
  destruct (merge_setter_run s c old partial Hf Hg) as (c' & Hrun & Hnew).
  exists c', (partial ∪ old). split; [done|]. split; [done|]. split; [done|]. split.
  - intros k x Hk. by apply lookup_union_Some_l.
  - intros k Hk. by apply lookup_union_r.
Qed.

(** Merging [{b:3,c:4}] into the tooltip style [{a:1,b:2}] yields
    [{a:1,b:3,c:4}]. *)
Lemma merge_setter_shallow_example :
  ∃ c', Builder_call (merge_op STooltipStyle {[ "b" := VNum 3; "c" := VNum 4 ]}) styled
        = (Ret (), c')
        ∧ get_path (_options c') ["tooltip"; "style"]
          = Ret (VObj {[ "a" := VNum 1; "b" := VNum 3; "c" := VNum 4 ]}).
Proof.
  destruct (merge_setter_shallow STooltipStyle styled
              {[ "a" := VNum 1; "b" := VNum 2 ]}
              {[ "b" := VNum 3; "c" := VNum 4 ]})
    as (c' & new & Hrun & Hget & Hnew & _).
  - apply fitsb_sound. vm_compute. reflexivity.
  - vm_compute. reflexivity.
  - exists c'. split; [exact Hrun|]. cbn [merged_place] in Hget.
    rewrite Hget, Hnew. vm_compute. reflexivity.
Defined.

(** ** Setters on a tree without the slot of the component *)

Lemma get_path_nullish (m : props) s k p :
  nullish (default VUndefined (m !! s)) = true → plain_key s →
  get_path (VObj m) (s :: k :: p) = Throw TypeError.
Proof.
  intros Hn Hs. rewrite get_path_cons. destruct (m !! s) as [v|] eqn:E.
  - rewrite (get_prop_own _ _ _ E). cbn [mbind outcome_bind default id] in *.
    destruct v; try done; by rewrite get_path_cons.
  - rewrite (get_prop_missing _ _ E Hs). cbn [mbind outcome_bind].
    by rewrite get_path_cons.
Qed.

Lemma put_path_nullish (m : props) s p k x :
  nullish (default VUndefined (m !! s)) = true → plain_key s →
  put_path (VObj m) (s :: p) k x = Throw TypeError.
Proof.
  intros Hn Hs. destruct (m !! s) as [v|] eqn:E.
  - rewrite (put_path_own _ _ _ _ _ _ E (plain_key_proto _ Hs)).
    cbn [default id] in Hn.
    destruct v; try done; by rewrite ?put_path_undefined, ?put_path_null.
  - by apply put_path_missing.
Qed.

Lemma load_nullish (m : props) s k p mg n :
  nullish (default VUndefined (m !! s)) = true → plain_key s →
  load (s :: k :: p) (MkChart (VObj m) mg n)
  = (Throw TypeError, MkChart (VObj m) mg n).
Proof. intros Hn Hs. unfold load. cbn [_options]. by rewrite get_path_nullish. Qed.

Lemma store_nullish (m : props) s p k x mg n :
  nullish (default VUndefined (m !! s)) = true → plain_key s →
  store (s :: p) k x (MkChart (VObj m) mg n)
  = (Throw TypeError, MkChart (VObj m) mg n).
Proof. intros Hn Hs. unfold store. cbn [_options]. by rewrite put_path_nullish. Qed.

(** X1: the setters of the tooltip, the legend, the grid, the data labels,
    the markers and the theme stop with a [TypeError], the chart
    unchanged, when the slot of the component is missing, [undefined] or
    [null]. *)
Theorem component_setter_needs_slot (call : builder_call) (c : Chart)
    (m : props) (s : string) :
  _options c = VObj m → component_slot call = Some s →
  nullish (default VUndefined (m !! s)) = true →
  Builder_call call c = (Throw TypeError, c).
Proof.
  intros Hc Hs Hn. destruct c as [o mg n]. cbn in Hc. subst o.
  destruct call as [| |call|call|call|call|call|call| |]; try done;
    injection Hs as <-; destruct call; cbn [Builder_call Tooltip_call Legend_call
      Grid_call DataLabels_call Markers_call Theme_call];
    unfold Tooltip_enabled, Tooltip_shared, Tooltip_followCursor, Tooltip_theme,
      Tooltip_style, Tooltip_custom, Tooltip_xFormatter, Tooltip_yFormatter,
      Legend_show, Legend_position, Legend_horizontalAlign, Legend_fontSize,
      Legend_fontFamily, Legend_labels, Legend_markers, Legend_itemMargin,
      Grid_show, Grid_borderColor, Grid_strokeDashArray, Grid_position,
      Grid_xaxis, Grid_yaxis, Grid_lines, Grid_padding,
      DataLabels_enabled, DataLabels_formatter, DataLabels_style,
      DataLabels_background, DataLabels_offsetX, DataLabels_offsetY,
      Markers_size, Markers_colors, Markers_strokeColors, Markers_strokeWidth,
      Markers_shape, Markers_radius, Markers_hover,
      Theme_mode, Theme_palette, Theme_monochrome,
      done_, assign_merged, ensure;
    cbv zeta; cbn [app]; unfold mbind, M_bind;
    rewrite ?store_nullish, ?load_nullish by done; reflexivity.
Qed.

(** [tooltip.enabled(true)] on a chart whose tree is empty. *)
Lemma component_setter_needs_slot_example :
  Builder_call (OnTooltip (TEnabled true)) (MkChart (VObj ∅) empty_manager 0)
  = (Throw TypeError, MkChart (VObj ∅) empty_manager 0).
Proof.
  apply (component_setter_needs_slot (OnTooltip (TEnabled true))
           (MkChart (VObj ∅) empty_manager 0) ∅ "tooltip").
  - reflexivity.
  - reflexivity.
  - vm_compute. reflexivity.
Defined.

(** ** The labels of an axis *)

(** X2: [Axis.labels(config)] on an axis that is a mapping with the labels
    [l] returns the axis and leaves the labels [config ∪ l], except that a
    truthy [config.style] is stored as a copy of its own entries: the
    entries of the style that the labels had are not kept. *)
Theorem Axis_labels_run (a : axis_key) (c : Chart) (m ax l config : props) :
  _options c = VObj m →
  m !! axis_name a = Some (VObj ax) → ax !! "labels" = Some (VObj l) →
  Axis_labels (MkAxis a) config c
  = (Ret (MkAxis a),
     with_options
       (VObj (<[axis_name a := VObj (<["labels" := VObj (labels_after config l)]> ax)]> m))
       c).
Proof.
  intros Hc Hm Hl. destruct c as [o mg n]. cbn in Hc. subst o.
  unfold labels_after.
  destruct (config !! "style") as [st|] eqn:Es; [destruct (truthy st) eqn:Hs|];
    destruct a; cbn [axis_name] in *; unfold Axis_labels, getAxisConfig;
    cbn [axisType];
    (etransitivity; [exec|]); rewrite ?(idemp_L (∪)); reflexivity.
Qed.

(** A font size for the labels of the x axis, whose style had a colour:
    the colour is gone. *)
Lemma Axis_labels_run_example :
  let ax : props := {[ "labels" := VObj {[ "style" := VObj {[ "color" := VStr "red" ]} ]} ]} in
  let config : props := {[ "style" := VObj {[ "fontSize" := VStr "12px" ]} ]} in
  Axis_labels (MkAxis xaxis) config (MkChart (VObj {[ "xaxis" := VObj ax ]}) empty_manager 0)
  = (Ret (MkAxis xaxis),
     MkChart (VObj {[ "xaxis" := VObj {[ "labels" := VObj config ]} ]}) empty_manager 0).
Proof.
  intros ax config.
  rewrite (Axis_labels_run xaxis (MkChart (VObj {[ "xaxis" := VObj ax ]}) empty_manager 0)
             {[ "xaxis" := VObj ax ]} ax
             {[ "style" := VObj {[ "color" := VStr "red" ]} ]} config).
  - vm_compute. reflexivity.
  - reflexivity.
  - vm_compute. reflexivity.
  - vm_compute. reflexivity.
Defined.

(** ** Entries of the chart that are made on demand *)

Ltac by_cases_on H :=
  lazymatch type of H with
  | absent_or_mapping (?m !! ?k) =>
      let v := fresh "v" in let E := fresh "E" in let t := fresh "t" in
      unfold absent_or_mapping in H;
      destruct (m !! k) as [v|] eqn:E;
      [destruct H as [H|[t ->]]; [apply falsy_cases in H as [->|[->|[->|[->| ->]]]]|]|]
  end.

(** X3: [height] and [width] on a tree whose [chart] is absent or falsy
    create [chart] with the type [line] and set the entry; on a tree whose
    [chart] is a mapping they set the entry and keep the others. *)
Theorem Chart_height_width_run (c : Chart) (m : props) (x : value) :
  _options c = VObj m → absent_or_mapping (m !! "chart") →
  Chart_height x c
  = (Ret (), with_options
               (VObj (<["chart" := VObj (<["height" := x]> (chart_or_line (m !! "chart")))]> m)) c)
  ∧ Chart_width x c
    = (Ret (), with_options
                 (VObj (<["chart" := VObj (<["width" := x]> (chart_or_line (m !! "chart")))]> m)) c).
Proof.
  intros Hc H. destruct c as [o mg n]. cbn in Hc. subst o.
  by_cases_on H; cbn [chart_or_line]; split;
    unfold Chart_height, Chart_width, ensure_chart; exec.
Qed.

(** A height for a chart whose tree is empty. *)
Lemma Chart_height_width_run_example :
  Chart_height (VNum 350) (MkChart (VObj ∅) empty_manager 0)
  = (Ret (),
     MkChart (VObj {[ "chart" := VObj {[ "type" := VStr "line"; "height" := VNum 350 ]} ]})
       empty_manager 0).
Proof.
  destruct (Chart_height_width_run (MkChart (VObj ∅) empty_manager 0) ∅ (VNum 350))
    as [H _].
  - reflexivity.
  - vm_compute. exact I.
  - rewrite H. vm_compute. reflexivity.
Defined.

(** X4: [title] and [subtitle] on a tree whose entry is absent or falsy
    create the mapping with the text; on a tree whose entry is a mapping
    they set the text and keep the other entries. *)
Theorem Chart_title_subtitle_run (c : Chart) (m : props) (text : string) :
  _options c = VObj m →
  (absent_or_mapping (m !! "title") →
   Chart_title text c
   = (Ret (), with_options
                (VObj (<["title" := VObj (<["text" := VStr text]> (child_map (m !! "title")))]> m)) c))
  ∧ (absent_or_mapping (m !! "subtitle") →
     Chart_subtitle text c
     = (Ret (), with_options
                  (VObj (<["subtitle" := VObj (<["text" := VStr text]>
                                                 (child_map (m !! "subtitle")))]> m)) c)).
Proof.
  intros Hc. destruct c as [o mg n]. cbn in Hc. subst o.
  split; intros H; by_cases_on H; cbn [child_map];
    unfold Chart_title, Chart_subtitle; exec.
Qed.

(** A title for a chart whose tree is empty. *)
Lemma Chart_title_subtitle_run_example :
  Chart_title "Sales" (MkChart (VObj ∅) empty_manager 0)
  = (Ret (),
     MkChart (VObj {[ "title" := VObj {[ "text" := VStr "Sales" ]} ]}) empty_manager 0).
Proof.
  destruct (Chart_title_subtitle_run (MkChart (VObj ∅) empty_manager 0) ∅ "Sales")
    as [H _].
  - reflexivity.
  - rewrite H.
    + vm_compute. reflexivity.
    + vm_compute. exact I.
Defined.

(** X5: [new Donut(config)], for a configuration without labels, gives the
    tree of a constructed donut chart with [config] as
    [plotOptions.pie.donut], and the manager has made the pie component
    and no other. *)
Theorem Donut_constructor_run (config : props) :
  truthy (default VUndefined (config !! "labels")) = false →
  Donut_constructor config blank
  = (Ret (),
     MkChart (VObj (<["plotOptions" := VObj {[ "pie" := VObj {[ "donut" := VObj config ]} ]}]>
                      (fresh_tree donut)))
       (Manager None (Some (Instance 0)) None None) 1).
Proof.
  intros Hl. unfold Donut_constructor.
  eapply run_bind; [apply Chart_constructor_run|]. cbv beta iota.
  assert (Hpo : fresh_tree donut !! "plotOptions" = Some (VObj ∅))
    by (vm_compute; reflexivity).
  generalize dependent (fresh_tree donut). intros m Hpo.
  unfold PlotOptionsManager_pie, PieOptions_donut, ensurePieOptions,
    ensurePlotOptionType, ensurePlotOptions, empty_manager, blank. cbn [created].
  destruct (config !! "labels") as [lb|] eqn:El; cbn [default id] in Hl.
  - etransitivity; [exec|]. rewrite (right_id_L ∅ (∪)).
    by rewrite insert_empty.
  - etransitivity; [exec|]. rewrite (right_id_L ∅ (∪)).
    by rewrite insert_empty.
Qed.

(** A donut with a size. *)
Lemma Donut_constructor_run_example :
  Donut_constructor {[ "size" := VStr "65%" ]} blank
  = (Ret (),
     MkChart (VObj (<["plotOptions" :=
                        VObj {[ "pie" := VObj {[ "donut" := VObj {[ "size" := VStr "65%" ]} ]} ]}]>
                      (fresh_tree donut)))
       (Manager None (Some (Instance 0)) None None) 1).
Proof.
  apply (Donut_constructor_run {[ "size" := VStr "65%" ]}).
  vm_compute. reflexivity.
Defined.

(** ** The options of a plot type *)

Lemma get_after_put q : ∀ root k x root',
  put_path root q k x = Ret root' → get_path root' (q ++ [k]) = Ret x.
Proof.
  induction q as [|s q IH]; intros root k x root' H.
  - rewrite put_path_nil in H. cbn [app]. rewrite get_path_cons.
    by rewrite (put_prop_same _ _ _ _ H).
  - rewrite put_path_cons in H. cbn [app]. rewrite get_path_cons.
    destruct (get_prop root s) as [child|]; [|done]. cbn [mbind outcome_bind] in H.
    destruct (put_path child q k x) as [child'|] eqn:E; [|done].
    cbn [mbind outcome_bind] in H. rewrite (put_prop_same _ _ _ _ H).
    cbn [mbind outcome_bind]. by apply (IH child).
Qed.

Lemma spread_or_self x : spread x ∪ spread (js_or x (VObj ∅)) = spread x.
Proof.
  unfold js_or. destruct (truthy x); [apply (idemp_L (∪))|].
  cbn [spread]. apply (right_id_L ∅ (∪)).
Qed.

(** X6: a second call of the helper that ensures the sub-key of a plot type
    returns the same object and changes nothing, whatever the tree is. *)
Theorem ensurePlotOptionType_again (type : string) (c c1 : Chart) (p : path) :
  ensurePlotOptionType type c = (Ret p, c1) →
  ensurePlotOptionType type c1 = (Ret p, c1).
Proof.
  unfold ensurePlotOptionType, ensurePlotOptions. intros H.
  assert (Hc1 : p = ["plotOptions"; type]
                ∧ ∃ y, get_path (_options c1) ["plotOptions"; type] = Ret y
                       ∧ truthy y = true).
  { destruct c as [o0 mg n].
    unfold mbind, M_bind, load, store, when in H.
    repeat match type of H with
    | context [get_path ?r ?q] =>
        lazymatch r with _options _ => fail | _ => idtac end;
        let E := fresh "E" in
        destruct (get_path r q) eqn:E
    | context [put_path ?r ?q ?k ?x] =>
        lazymatch r with _options _ => fail | _ => idtac end;
        let E := fresh "E" in
        destruct (put_path r q k x) eqn:E
    | context [truthy ?t] => let E := fresh "E" in destruct (truthy t) eqn:E
    | _ => progress cbn [negb mret M_ret _options with_options fst snd app
                         plotOptions created] in H
    end;
    try (by inversion H); injection H as <- <-; (split; [done|]);
    cbn [_options with_options];
    first [ eexists; split; [eassumption|done]
          | exists empty_obj; split; [|done];
            by eapply (get_after_put ["plotOptions"]) ]. }
  destruct Hc1 as (-> & y & Hy & Ht).
  assert (Hpo : ∃ po, get_path (_options c1) ["plotOptions"] = Ret po ∧ truthy po = true).
  { pose proof (truthy_above (_options c1) ["plotOptions"] [type] y Hy Ht) as Ha.
    unfold truthy_at in Ha.
    destruct (get_path (_options c1) ["plotOptions"]) as [po|]; [|done]. by exists po. }
  destruct Hpo as (po & Hpo & Htpo).
  unfold mbind, M_bind, load, when. cbn [app]. rewrite Hpo, Htpo. cbn [negb].
  cbn [mret M_ret app]. by rewrite Hy, Ht.
Qed.

(** The bar options of a chart whose tree is empty. *)
Lemma ensurePlotOptionType_again_example :
  let c1 := MkChart (VObj {[ "plotOptions" := VObj {[ "bar" := empty_obj ]} ]})
              empty_manager 0 in
  ensurePlotOptionType "bar" c1 = (Ret ["plotOptions"; "bar"], c1).
Proof.
  intros c1.
  apply (ensurePlotOptionType_again "bar" (MkChart (VObj ∅) empty_manager 0)).
  vm_compute. reflexivity.
Defined.

(** X7: [PieOptions.donut(config)] on a tree with the mapping
    [plotOptions.pie], whose [donut] is absent, falsy or a mapping [d],
    returns and leaves [donut] equal to [config ∪ d]; when [config.labels]
    is a mapping, the labels are those of [config], with [name], [value]
    and [total] replaced by copies of themselves, or by empty mappings:
    nothing of the labels that [d] had is kept. *)
Theorem PieOptions_donut_run (this : PieOptions) (c : Chart) (m po pi config : props) :
  _options c = VObj m →
  m !! "plotOptions" = Some (VObj po) → po !! "pie" = Some (VObj pi) →
  absent_or_mapping (pi !! "donut") →
  absent_or_mapping (config !! "labels") →
  PieOptions_donut this config c
  = (Ret this,
     with_options
       (VObj (<["plotOptions" :=
                  VObj (<["pie" :=
                     VObj (<["donut" := VObj (donut_after config (child_map (pi !! "donut")))]> pi)]>
                          po)]> m)) c).
Proof.
  intros Hc Hm Hpo Hd Hl. destruct c as [o mg n]. cbn in Hc. subst o.
  unfold donut_after.
  by_cases_on Hl; by_cases_on Hd; cbn [child_map];
    unfold PieOptions_donut, ensurePieOptions, ensurePlotOptionType,
      ensurePlotOptions, merged_entry; (etransitivity; [exec|]);
    unfold entry_copy;
    rewrite ?spread_or_self, ?(idemp_L (∪)), ?(right_id_L ∅ (∪)); reflexivity.
Qed.

(** Labels for a donut that has none. *)
Lemma PieOptions_donut_run_example :
  let m : props := {[ "plotOptions" := VObj {[ "pie" := empty_obj ]} ]} in
  let config : props := {[ "labels" := VObj {[ "show" := VBool true ]} ]} in
  PieOptions_donut (Instance 0) config (MkChart (VObj m) empty_manager 0)
  = (Ret (Instance 0),
     MkChart
       (VObj {[ "plotOptions" :=
                  VObj {[ "pie" :=
                     VObj {[ "donut" :=
                        VObj {[ "labels" :=
                           VObj {[ "show" := VBool true; "name" := empty_obj;
                                   "value" := empty_obj; "total" := empty_obj ]} ]} ]} ]} ]})
       empty_manager 0).
Proof.
  intros m config.
  rewrite (PieOptions_donut_run (Instance 0) (MkChart (VObj m) empty_manager 0) m
             {[ "pie" := empty_obj ]} ∅ config).
  - vm_compute. reflexivity.
  - reflexivity.
  - vm_compute. reflexivity.
  - vm_compute. reflexivity.
  - vm_compute. exact I.
  - vm_compute. right. eexists. reflexivity.
Defined.

(** ** What an operation leaves alone *)

Section Seen.
Context (p : path) (o : outcome value).

Local Abbreviation seen := (keeps (sees p o) (λ _, True)).

Lemma seen_load q : seen (load q).
Proof. by intros c Hc. Qed.

Lemma seen_manager : seen manager.
Proof. by intros c Hc. Qed.

Lemma seen_set_manager f : seen (set_manager f).
Proof. by intros c Hc. Qed.

Lemma seen_new_component : seen new_component.
Proof. by intros c Hc. Qed.

(** A write at a place apart from [p]. *)
Lemma seen_store q k x :
  strict_prefix p (q ++ [k]) = false → is_prefix (q ++ [k]) p = false →
  seen (store q k x).
Proof.
  intros H1 H2 c Hc. split; [|done]. unfold store, sees in *.
  destruct (put_path (_options c) q k x) as [o'|] eqn:E; [|done]. cbn.
  by rewrite (put_path_apart _ _ _ _ _ _ E H1 H2).
Qed.
End Seen.

(** A write under another key of the tree. *)
Lemma seen_store_head a r o q k x s :
  head (q ++ [k]) = Some s → a ≠ s →
  keeps (sees (a :: r) o) (λ _, True) (store q k x).
Proof.
  intros Hh Ha. destruct (q ++ [k]) as [|s' w] eqn:E; [done|].
  injection Hh as ->. apply seen_store; rewrite E; cbn.
  - apply andb_false_iff. left. by apply String.eqb_neq.
  - apply andb_false_iff. left. apply String.eqb_neq. congruence.
Qed.

Ltac fr_dest H :=
  try (cbn in H; simplify_eq).

Ltac fr st :=
  lazymatch goal with
  | |- keeps _ _ (mbind (M := M) _ _) =>
      eapply keeps_bind; [fr st | let a := fresh "a" in
                                  let Ha := fresh "Ha" in
                                  intros a Ha; fr_dest Ha; fr st]
  | |- keeps _ _ (mret _) =>
      first [by apply keeps_ret | by apply (keeps_ret _ (λ _, True))]
  | |- keeps _ _ (when _ _) =>
      apply keeps_when; let Hb := fresh "Hb" in
                        intros Hb; first [discriminate Hb | fr st]
  | |- keeps _ _ (load _) => apply seen_load
  | |- keeps _ _ (deref None) => by apply (keeps_ret _ (λ x, x = VUndefined))
  | |- keeps _ _ (deref (Some _)) => apply seen_load
  | |- keeps _ (λ _, True) (lift _) =>
      eapply keeps_weaken; [apply keeps_lift | done]
  | |- keeps _ _ (lift _) => apply keeps_lift
  | |- keeps _ _ (store _ _ _) => st
  | |- keeps _ _ manager => apply seen_manager
  | |- keeps _ _ (set_manager _) => apply seen_set_manager
  | |- keeps _ _ new_component => apply seen_new_component
  | |- keeps _ _ (ensure _ _) => unfold ensure; fr st
  | |- keeps _ _ (assign_merged _ _ _) => unfold assign_merged; fr st
  | |- keeps _ _ (assign_merged_or _ _ _) => unfold assign_merged_or; fr st
  | |- keeps _ _ (done_ _) => unfold done_; fr st
  | |- keeps _ _ (merge_field _ _ _) => unfold merge_field; fr st
  | |- keeps _ _ (merged_entry _ _ _) => unfold merged_entry; fr st
  | |- keeps _ _ (states_filter _ _) => unfold states_filter; fr st
  | |- keeps _ _ ensure_chart => unfold ensure_chart; fr st
  | |- keeps _ _ (Grid_lines _ _) => unfold Grid_lines; cbv zeta; fr st
  end.

Ltac st_head :=
  cbn [app target default id];
  eapply seen_store_head; [reflexivity | first [done | congruence]].

Ltac st_apart :=
  cbn [app target default id]; apply seen_store; reflexivity.

Ltac unfold_calls :=
  cbn [Builder_call Chart_call Axis_call Tooltip_call Legend_call Grid_call
       DataLabels_call Markers_call Theme_call Plot_call BarOptions_call
       PieOptions_call RadialBarOptions_call HeatmapOptions_call plot_call_type
       PlotOptionsManager_get];
  unfold Chart_title, Chart_subtitle, Chart_height, Chart_width, Chart_series,
    Chart_colors, Chart_states, Chart_responsive, Chart_animations,
    Chart_options, Bar_horizontal,
    Axis_title, Axis_categories, Axis_type, Axis_labels, Axis_range,
    Axis_tickAmount, Axis_axisBorder, Axis_axisTicks, Axis_crosshairs,
    Tooltip_enabled, Tooltip_shared, Tooltip_followCursor, Tooltip_theme,
    Tooltip_style, Tooltip_custom, Tooltip_xFormatter, Tooltip_yFormatter,
    Legend_show, Legend_position, Legend_horizontalAlign, Legend_fontSize,
    Legend_fontFamily, Legend_labels, Legend_markers, Legend_itemMargin,
    Grid_show, Grid_borderColor, Grid_strokeDashArray, Grid_position,
    Grid_xaxis, Grid_yaxis, Grid_padding,
    DataLabels_enabled, DataLabels_formatter, DataLabels_style,
    DataLabels_background, DataLabels_offsetX, DataLabels_offsetY,
    Markers_size, Markers_colors, Markers_strokeColors, Markers_strokeWidth,
    Markers_shape, Markers_radius, Markers_hover,
    Theme_mode, Theme_palette, Theme_monochrome,
    BarOptions_horizontal, BarOptions_columnWidth, BarOptions_barHeight,
    BarOptions_distributed, BarOptions_borderRadius, BarOptions_colors,
    PieOptions_startAngle, PieOptions_endAngle, PieOptions_expandOnClick,
    PieOptions_donut, RadialBarOptions_hollow, RadialBarOptions_track,
    RadialBarOptions_dataLabels, HeatmapOptions_radius,
    HeatmapOptions_enableShades, HeatmapOptions_shadeIntensity,
    HeatmapOptions_colorScale, ensureBarOptions, ensurePieOptions,
    ensureRadialBarOptions, ensureHeatmapOptions,
    PlotOptionsManager_bar, PlotOptionsManager_pie,
    PlotOptionsManager_radialBar, PlotOptionsManager_heatmap;
  cbv zeta.

(** The axis that a builder resolves to. *)
Lemma seen_getAxisConfig p o t :
  keeps (sees p o)
    (λ r, r = Some [axis_name t] ∨ r = Some ["yaxis"; "0"] ∧ t = yaxis ∨ r = None)
    (getAxisConfig (MkAxis t)).
Proof.
  unfold getAxisConfig. destruct t; cbn [axisType axis_name].
  - eapply keeps_bind; [apply seen_load|]. intros _ _. apply keeps_ret. by left.
  - eapply keeps_bind; [apply seen_load|]. intros y _.
    destruct y as [| | | | | |items|]; try (apply keeps_ret; by left).
    destruct (0 <? length items)%nat; apply keeps_ret; auto.
Qed.

Lemma seen_ensurePlotOptionType a r o type :
  a ≠ "plotOptions" →
  keeps (sees (a :: r) o) (λ q, q = ["plotOptions"; type]) (ensurePlotOptionType type).
Proof.
  intros Ha. unfold ensurePlotOptionType, ensurePlotOptions.
  eapply keeps_bind.
  { eapply (keeps_bind _ _ (λ q, q = ["plotOptions"])); [apply seen_load|].
    intros po _. eapply keeps_bind; [fr st_head|]. intros _ _. by apply keeps_ret. }
  intros ? ->. cbn [app]. eapply keeps_bind; [apply seen_load|].
  intros t _. eapply keeps_bind; [fr st_head|]. intros _ _. by apply keeps_ret.
Qed.

Lemma frame_get a r o t :
  keeps (sees (a :: r) o) (λ _, True) (PlotOptionsManager_get t).
Proof.
  destruct t; unfold_calls;
    (eapply keeps_bind; [apply seen_manager|]); intros mg _.
  - destruct (_bar mg); fr st_head.
  - destruct (_pie mg); fr st_head.
  - destruct (_radialBar mg); fr st_head.
  - destruct (_heatmap mg); fr st_head.
Qed.

Lemma frame_Plot a r o this call :
  a ≠ "plotOptions" → keeps (sees (a :: r) o) (λ _, True) (Plot_call this call).
Proof.
  intros Ha. destruct call as [call|call|call|call]; destruct call; unfold_calls;
    (eapply keeps_bind; [by apply seen_ensurePlotOptionType|]); intros ? ->;
    fr st_head.
Qed.

Lemma frame_Builder (call : builder_call) a r o :
  a ≠ top_key call → keeps (sees (a :: r) o) (λ _, True) (Builder_call call).
Proof.
  intros Ha.
  destruct call as [call|t call|call|call|call|call|call|call|t|call];
    cbn [top_key] in Ha.
  - destruct call; cbn [top_key] in Ha; unfold_calls; try by fr st_head.
    eapply keeps_bind; [apply (frame_get _ _ _ PBar)|]. intros b _.
    eapply keeps_bind; [|intros; by apply keeps_ret].
    eapply keeps_bind; [by apply seen_ensurePlotOptionType|]. intros ? ->.
    fr st_head.
  - cbn [Builder_call]. unfold done_.
    eapply keeps_bind; [|intros; by apply keeps_ret].
    destruct call; unfold_calls;
      (eapply keeps_bind; [apply seen_getAxisConfig|]);
      intros q [->|[[-> ->]| ->]]; cbn [axis_name] in Ha; fr st_head.
  - destruct call; unfold_calls; fr st_head.
  - destruct call; unfold_calls; fr st_head.
  - destruct call; unfold_calls; fr st_head.
  - destruct call; unfold_calls; fr st_head.
  - destruct call; unfold_calls; fr st_head.
  - destruct call; unfold_calls; fr st_head.
  - cbn [Builder_call]. unfold done_.
    eapply keeps_bind; [apply frame_get|]. intros; by apply keeps_ret.
  - cbn [Builder_call]. unfold done_.
    eapply keeps_bind; [apply frame_get|]. intros this _.
    eapply keeps_bind; [by apply frame_Plot|]. intros; by apply keeps_ret.
Qed.

(** X8: on a tree, where no object occurs at two places, an operation of
    the builder changes the tree under one key only: what is read at or
    below any other key of the tree is afterwards what it was before, also
    when the operation stops with an exception.  (An object that the
    caller has put at two places of the options changes at both; the model
    of the options as a tree does not cover such options.) *)
Theorem builder_call_frame (call : builder_call) (c : Chart) (a : string) (r : path) :
  a ≠ top_key call →
  get_path (_options (snd (Builder_call call c))) (a :: r)
  = get_path (_options c) (a :: r).
Proof.
  intros Ha.
  by destruct (frame_Builder call a r (get_path (_options c) (a :: r)) Ha c eq_refl)
    as [? _].
Qed.

(** Enabling the tooltip of a line chart leaves the position of the
    legend alone. *)
Lemma builder_call_frame_example :
  get_path (_options (snd (Builder_call (OnTooltip (TEnabled true))
                             (snd (Chart_create line))))) ["legend"; "position"]
  = get_path (_options (snd (Chart_create line))) ["legend"; "position"].
Proof.
  apply (builder_call_frame (OnTooltip (TEnabled true)) (snd (Chart_create line))
           "legend" ["position"]).
  vm_compute. discriminate.
Defined.

(** [chart] is not created again when it has a type. *)
Lemma typed_ensure_chart v :
  truthy v = true → keeps (sees ["chart"; "type"] (Ret v)) (λ _, True) ensure_chart.
Proof.
  intros Hv c Hc. split; [|done]. unfold ensure_chart, mbind, M_bind, load.
  pose proof (truthy_above (_options c) ["chart"] ["type"] v Hc Hv) as Ht.
  unfold truthy_at in Ht. destruct (get_path (_options c) ["chart"]) as [ch|]; [|done].
  by rewrite Ht.
Qed.

Lemma typed_Builder (call : builder_call) v :
  truthy v = true → keeps (sees ["chart"; "type"] (Ret v)) (λ _, True) (Builder_call call).
Proof.
  intros Hv. destruct (decide ("chart" = top_key call)) as [E|N];
    [|by apply frame_Builder].
  destruct call as [call|t call|call|call|call|call|call|call|t|call];
    try done; [|by destruct t].
  destruct call; try done; unfold_calls.
  - eapply keeps_bind; [by apply typed_ensure_chart|]. intros _ _. fr st_apart.
  - eapply keeps_bind; [by apply typed_ensure_chart|]. intros _ _. fr st_apart.
  - eapply keeps_bind; [by apply typed_ensure_chart|]. intros _ _. fr st_apart.
Qed.

Lemma typed_Builder_calls calls v :
  truthy v = true →
  keeps (sees ["chart"; "type"] (Ret v)) (λ _, True) (Builder_calls calls).
Proof.
  intros Hv. induction calls as [|call rest IH]; cbn [Builder_calls].
  - by apply keeps_ret.
  - eapply keeps_bind; [by apply typed_Builder|]. by intros.
Qed.

(** X9: no operation of the builder changes the type of the chart: after
    every sequence of operations on a chart made by [Chart.create],
    [chart.type] is the type the chart was created with. *)
Theorem chart_type_kept (type : ChartType) (calls : list builder_call) :
  get_path (_options (snd (Builder_calls calls (snd (Chart_create type)))))
    ["chart"; "type"]
  = Ret (VStr (ChartType_name type)).
Proof.
  apply (typed_Builder_calls calls (VStr (ChartType_name type))).
  - by destruct type.
  - rewrite Chart_create_run. unfold sees, fresh_tree. cbn [snd _options].
    generalize (ChartType_name type). intros name. vm_compute. reflexivity.
Qed.

(** ** Sound trees *)

Lemma put_prop_ok v k x v' :
  put_prop v k x = Ret v' →
  truthy v = true ∧ ∀ t, v = VObj t → ∃ t', v' = VObj t'.
Proof.
  unfold put_prop. destruct v as [| |b|z|s|h|items|m]; try done;
    try (by destruct (String.eqb k "__proto__")).
  destruct (String.eqb k "__proto__"); [done|]. intros [= <-].
  split; [done|]. intros t _. by eexists.
Qed.

(** A write below [p] finds there a truthy value, and leaves a mapping
    where a mapping was. *)
Lemma put_path_below q : ∀ root k x root' p v,
  put_path root q k x = Ret root' →
  strict_prefix p (q ++ [k]) = true →
  get_path root p = Ret v →
  truthy v = true
  ∧ ∃ v', get_path root' p = Ret v' ∧ ∀ t, v = VObj t → ∃ t', v' = VObj t'.
Proof.
  induction q as [|s q IH]; intros root k x root' p v Hput Hp Hg.
  - rewrite put_path_nil in Hput. destruct p as [|a r].
    + rewrite get_path_nil in Hg. injection Hg as <-.
      destruct (put_prop_ok _ _ _ _ Hput) as [Ht Hm]. split; [done|].
      exists root'. by rewrite get_path_nil.
    + cbn in Hp. by rewrite andb_comm in Hp; destruct r.
  - rewrite put_path_cons in Hput.
    destruct (get_prop root s) as [child|] eqn:Ec; [|done].
    cbn [mbind outcome_bind] in Hput.
    destruct (put_path child q k x) as [child'|] eqn:Ec'; [|done].
    cbn [mbind outcome_bind] in Hput. destruct p as [|a r].
    + rewrite get_path_nil in Hg. injection Hg as <-.
      destruct (put_prop_ok _ _ _ _ Hput) as [Ht Hm]. split; [done|].
      exists root'. by rewrite get_path_nil.
    + cbn [app strict_prefix] in Hp. apply andb_prop in Hp as [Ha Hr].
      apply String.eqb_eq in Ha as ->. rewrite get_path_cons in Hg |- *.
      rewrite Ec in Hg. cbn [mbind outcome_bind] in Hg.
      rewrite (put_prop_same _ _ _ _ Hput). cbn [mbind outcome_bind].
      by apply (IH child k x).
Qed.

(** A write at or above [p] leaves at [p] what the written value has
    there. *)
Lemma put_path_above q root k x root' r :
  put_path root q k x = Ret root' →
  get_path root' ((q ++ [k]) ++ r) = get_path x r.
Proof.
  intros H. rewrite get_path_app, (get_after_put _ _ _ _ _ H). done.
Qed.

Section Finds.
Context (ok : value → Prop).
Context (ok_mapping : ∀ t, ok (VObj t)).
Context (ok_truthy : ∀ v, ok v → truthy v = true → ∃ t, v = VObj t).

Lemma finds_frame p m :
  (∀ o, keeps (sees p o) (λ _, True) m) → keeps (finds ok p) (λ _ : unit, True) m.
Proof.
  intros K c (v & Hv & Hok). split; [|done].
  destruct (K (Ret v) c Hv) as [Hs _]. by exists v.
Qed.

Lemma finds_load p q : keeps (finds ok p) (λ _, True) (load q).
Proof. by intros c Hc. Qed.

Lemma finds_manager p : keeps (finds ok p) (λ _, True) manager.
Proof. by intros c Hc. Qed.

Lemma finds_set_manager p f : keeps (finds ok p) (λ _, True) (set_manager f).
Proof. by intros c Hc. Qed.

Lemma finds_new_component p : keeps (finds ok p) (λ _, True) new_component.
Proof. by intros c Hc. Qed.

(** The write is below [p]; or at or above it, and writes what is fine
    at [p]; or apart from it. *)
Lemma finds_store p q k x :
  strict_prefix p (q ++ [k]) = true
  ∨ (is_prefix (q ++ [k]) p = true
     ∧ ∃ v, get_path x (drop (length (q ++ [k])) p) = Ret v ∧ ok v)
  ∨ (strict_prefix p (q ++ [k]) = false ∧ is_prefix (q ++ [k]) p = false) →
  keeps (finds ok p) (λ _, True) (store q k x).
Proof.
  intros H c (v & Hv & Hok). split; [|done]. unfold store.
  destruct (put_path (_options c) q k x) as [o|] eqn:E; [|by exists v].
  unfold finds. cbn [snd _options with_options].
  destruct H as [H|[[H (v' & Hv' & Hok')]|[H1 H2]]].
  - destruct (put_path_below _ _ _ _ _ _ _ E H Hv) as (Ht & v' & Hv' & Hm).
    exists v'. split; [done|]. destruct (ok_truthy v Hok Ht) as [t ->].
    destruct (Hm t eq_refl) as [t' ->]. apply ok_mapping.
  - destruct (is_prefix_split _ _ H) as [r Hr]. exists v'. split; [|done].
    rewrite Hr in Hv' |- *. rewrite drop_app_length in Hv'.
    by rewrite (put_path_above _ _ _ _ _ r E).
  - exists v. split; [|done]. by rewrite (put_path_apart _ _ _ _ _ _ E H1 H2).
Qed.
End Finds.

Lemma falsy_or_mapping_VObj t : falsy_or_mapping (VObj t).
Proof. right. by exists t. Qed.

Lemma falsy_or_mapping_truthy v :
  falsy_or_mapping v → truthy v = true → ∃ t, v = VObj t.
Proof. intros [H|H] Ht; [congruence|done]. Qed.

Lemma is_mapping_VObj t : is_mapping (VObj t).
Proof. by exists t. Qed.

Lemma is_mapping_truthy v : is_mapping v → truthy v = true → ∃ t, v = VObj t.
Proof. by intros H _. Qed.

Lemma keeps_and {A : Type} (I J : Chart → Prop) (Q : A → Prop) (m : M A) :
  keeps I Q m → keeps J (λ _, True) m → keeps (λ c, I c ∧ J c) Q m.
Proof.
  intros HI HJ c [Hi Hj]. destruct (HI c Hi) as [Hi' HQ].
  destruct (HJ c Hj) as [Hj' _]. done.
Qed.

Lemma keeps_all {A B : Type} (I : B → Chart → Prop) (m : M A) :
  (∀ b, keeps (I b) (λ _, True) m) → keeps (λ c, ∀ b, I b c) (λ _, True) m.
Proof.
  intros H c Hc. split; [|done]. intros b. by destruct (H b c (Hc b)).
Qed.

Ltac rd_finds :=
  first [apply finds_load | apply finds_manager | apply finds_set_manager
        | apply finds_new_component].

Ltac side_finds :=
  first [ left; reflexivity
        | right; right; split; reflexivity
        | right; left; split;
          [reflexivity
          | cbn [app length drop]; eexists; split;
            [vm_compute; reflexivity
            | first [by eexists | right; by eexists | left; reflexivity]]] ].

Ltac st_opt :=
  cbn [app target default id];
  apply (finds_store falsy_or_mapping falsy_or_mapping_VObj falsy_or_mapping_truthy);
  side_finds.

Ltac st_map :=
  cbn [app target default id];
  apply (finds_store is_mapping is_mapping_VObj is_mapping_truthy);
  side_finds.

Ltac fd st :=
  lazymatch goal with
  | |- keeps _ _ (mbind (M := M) _ _) =>
      eapply keeps_bind; [fd st | let a := fresh "a" in
                                  let Ha := fresh "Ha" in
                                  intros a Ha; fr_dest Ha; fd st]
  | |- keeps _ _ (mret _) =>
      first [by apply keeps_ret | by apply (keeps_ret _ (λ _, True))]
  | |- keeps _ _ (when _ _) =>
      apply keeps_when; let Hb := fresh "Hb" in
                        intros Hb; first [discriminate Hb | fd st]
  | |- keeps _ _ (load _) => apply finds_load
  | |- keeps _ _ (deref None) => by apply (keeps_ret _ (λ x, x = VUndefined))
  | |- keeps _ _ (deref (Some _)) => apply finds_load
  | |- keeps _ (λ _, True) (lift _) =>
      eapply keeps_weaken; [apply keeps_lift | done]
  | |- keeps _ _ (lift _) => apply keeps_lift
  | |- keeps _ _ (store _ _ _) => st
  | |- keeps _ _ manager => apply finds_manager
  | |- keeps _ _ (set_manager _) => apply finds_set_manager
  | |- keeps _ _ new_component => apply finds_new_component
  | |- keeps _ _ (ensure _ _) => unfold ensure; fd st
  | |- keeps _ _ (assign_merged _ _ _) => unfold assign_merged; fd st
  | |- keeps _ _ (assign_merged_or _ _ _) => unfold assign_merged_or; fd st
  | |- keeps _ _ (done_ _) => unfold done_; fd st
  | |- keeps _ _ (merge_field _ _ _) => unfold merge_field; fd st
  | |- keeps _ _ (merged_entry _ _ _) => unfold merged_entry; fd st
  | |- keeps _ _ (states_filter _ _) => unfold states_filter; fd st
  | |- keeps _ _ ensure_chart => unfold ensure_chart; fd st
  | |- keeps _ _ (Grid_lines _ _) => unfold Grid_lines; cbv zeta; fd st
  end.

Lemma finds_other ok p (call : builder_call) :
  head p ≠ Some (top_key call) → p ≠ [] →
  keeps (finds ok p) (λ _, True) (Builder_call call).
Proof.
  intros Hh Hp. destruct p as [|a r]; [done|]. apply finds_frame. intros o.
  apply frame_Builder. cbn in Hh. congruence.
Qed.

(** [chart] stays a mapping. *)
Lemma chart_Builder (call : builder_call) :
  keeps (finds is_mapping ["chart"]) (λ _, True) (Builder_call call).
Proof.
  destruct (decide ("chart" = top_key call)) as [E|N];
    [|apply finds_other; cbn; congruence].
  destruct call as [call|t call|call|call|call|call|call|call|t|call];
    try done; [|by destruct t].
  destruct call; try done; unfold_calls; fd st_map.
Qed.

Lemma title_Builder (call : builder_call) :
  keeps (finds falsy_or_mapping ["title"]) (λ _, True) (Builder_call call).
Proof.
  destruct (decide ("title" = top_key call)) as [E|N];
    [|apply finds_other; cbn; congruence].
  destruct call as [call|t call|call|call|call|call|call|call|t|call];
    try done; [|by destruct t].
  destruct call; try done; unfold_calls; fd st_opt.
Qed.

Lemma subtitle_Builder (call : builder_call) :
  keeps (finds falsy_or_mapping ["subtitle"]) (λ _, True) (Builder_call call).
Proof.
  destruct (decide ("subtitle" = top_key call)) as [E|N];
    [|apply finds_other; cbn; congruence].
  destruct call as [call|t call|call|call|call|call|call|call|t|call];
    try done; [|by destruct t].
  destruct call; try done; unfold_calls; fd st_opt.
Qed.

Lemma plot_ensurePlotOptionType t type :
  (type = "bar" ∨ type = "pie" ∨ type = "radialBar" ∨ type = "heatmap") →
  keeps (finds falsy_or_mapping ["plotOptions"; plot_key t])
    (λ q, q = ["plotOptions"; type]) (ensurePlotOptionType type).
Proof.
  intros Ht. unfold ensurePlotOptionType, ensurePlotOptions.
  eapply keeps_bind.
  { eapply (keeps_bind _ _ (λ q, q = ["plotOptions"])); [apply finds_load|].
    intros po _. eapply keeps_bind; [|intros _ _; by apply keeps_ret].
    destruct t; fd st_opt. }
  intros ? ->. cbn [app]. eapply keeps_bind; [apply finds_load|].
  intros v _. eapply keeps_bind; [|intros _ _; by apply keeps_ret].
  destruct t; destruct Ht as [->|[->|[->| ->]]]; fd st_opt.
Qed.

Lemma plot_get t t' :
  keeps (finds falsy_or_mapping ["plotOptions"; plot_key t]) (λ _, True)
    (PlotOptionsManager_get t').
Proof.
  destruct t'; unfold_calls;
    (eapply keeps_bind; [apply finds_manager|]); intros mg _.
  - destruct (_bar mg); destruct t; fd st_opt.
  - destruct (_pie mg); destruct t; fd st_opt.
  - destruct (_radialBar mg); destruct t; fd st_opt.
  - destruct (_heatmap mg); destruct t; fd st_opt.
Qed.

Lemma plot_Plot t this call :
  keeps (finds falsy_or_mapping ["plotOptions"; plot_key t]) (λ _, True)
    (Plot_call this call).
Proof.
  destruct call as [call|call|call|call]; destruct call; unfold_calls;
    (eapply keeps_bind; [apply plot_ensurePlotOptionType; auto|]); intros ? ->;
    destruct t; fd st_opt.
Qed.

Lemma plot_Builder t (call : builder_call) :
  keeps (finds falsy_or_mapping ["plotOptions"; plot_key t]) (λ _, True)
    (Builder_call call).
Proof.
  destruct (decide ("plotOptions" = top_key call)) as [E|N];
    [|apply finds_other; cbn; congruence].
  destruct call as [call|a call|call|call|call|call|call|call|t'|call];
    try done; [|by destruct a| |].
  - destruct call; try done. unfold_calls.
    eapply keeps_bind; [apply (plot_get _ PBar)|]. intros b _.
    eapply keeps_bind; [|intros; by apply keeps_ret].
    eapply keeps_bind; [apply plot_ensurePlotOptionType; auto|]. intros ? ->.
    destruct t; fd st_opt.
  - cbn [Builder_call]. unfold done_.
    eapply keeps_bind; [apply plot_get|]. intros; by apply keeps_ret.
  - cbn [Builder_call]. unfold done_.
    eapply keeps_bind; [apply plot_get|]. intros this _.
    eapply keeps_bind; [apply plot_Plot|]. intros; by apply keeps_ret.
Qed.

(** Every operation of the builder keeps the tree sound. *)
Lemma sound_Builder (call : builder_call) :
  keeps sound (λ _, True) (Builder_call call).
Proof.
  unfold sound. apply keeps_and; [apply kept_Builder|].
  apply keeps_and; [apply chart_Builder|].
  apply keeps_and; [apply title_Builder|].
  apply keeps_and; [apply subtitle_Builder|].
  apply keeps_all. intros t. apply plot_Builder.
Qed.

(** ** Operations on a sound tree *)

Ltac open_fits H :=
  cbn [scaffold axis_shape mapping kids_of fits fits_kids] in H;
  repeat match goal with
         | H : ∃ _, _ |- _ => destruct H
         | H : _ ∧ _ |- _ => destruct H
         | H : True |- _ => clear H
         end;
  simplify_eq.

Ltac reads_exec :=
  unfold reads; cbn [set_places axis_name]; repeat constructor;
  cbn [fst snd]; norm; reflexivity.

Ltac runs_exec :=
  unfold runs, merged_entry, merge_field, ensure_chart; eexists;
  (split; [exec|reads_exec]).

Lemma Tooltip_runs this call m mg n :
  fits scaffold (VObj m) →
  runs (Tooltip_call this call) (MkChart (VObj m) mg n) this (set_places (OnTooltip call)).
Proof.
  intros H. open_fits H. destruct call; unfold_calls; runs_exec.
Qed.

Lemma Legend_runs this call m mg n :
  fits scaffold (VObj m) →
  runs (Legend_call this call) (MkChart (VObj m) mg n) this (set_places (OnLegend call)).
Proof.
  intros H. open_fits H. destruct call; unfold_calls; runs_exec.
Qed.

Lemma Grid_runs this call m mg n :
  fits scaffold (VObj m) →
  runs (Grid_call this call) (MkChart (VObj m) mg n) this (set_places (OnGrid call)).
Proof.
  intros H. open_fits H. destruct call; unfold_calls; unfold Grid_lines; cbv zeta;
    runs_exec.
Qed.

Lemma DataLabels_runs this call m mg n :
  fits scaffold (VObj m) →
  runs (DataLabels_call this call) (MkChart (VObj m) mg n) this (set_places (OnDataLabels call)).
Proof.
  intros H. open_fits H. destruct call; unfold_calls; runs_exec.
Qed.

Lemma Markers_runs this call m mg n :
  fits scaffold (VObj m) →
  runs (Markers_call this call) (MkChart (VObj m) mg n) this (set_places (OnMarkers call)).
Proof.
  intros H. open_fits H. destruct call; unfold_calls; runs_exec.
Qed.

Lemma Theme_runs this call m mg n :
  fits scaffold (VObj m) →
  runs (Theme_call this call) (MkChart (VObj m) mg n) this (set_places (OnTheme call)).
Proof.
  intros H. open_fits H. destruct call; unfold_calls; runs_exec.
Qed.

Lemma Axis_runs t call m mg n :
  fits scaffold (VObj m) →
  runs (Axis_call (MkAxis t) call) (MkChart (VObj m) mg n) (MkAxis t)
    (set_places (OnAxis t call)).
Proof.
  intros H. open_fits H.
  destruct call; destruct t; unfold_calls; unfold getAxisConfig;
    try (by runs_exec).
  all: destruct (truthy (default VUndefined (config !! "style"))) eqn:Es.
  all: repeat match goal with
       | H : _ !! "style" = Some ?x |- _ =>
           is_var x; lazymatch goal with
                     | _ : truthy x = _ |- _ => fail
                     | _ => destruct (truthy x) eqn:?
                     end
       end.
  all: runs_exec.
Qed.

Lemma returns_bind {A B : Type} (m : M A) (f : A → M B) c a c' :
  m c = (Ret a, c') → returns (f a) c' → returns (m ≫= f) c.
Proof.
  intros Hm (b & c'' & Hf). exists b, c''. unfold mbind, M_bind. by rewrite Hm.
Qed.

Lemma runs_bind {A B : Type} (m : M A) (f : A → M B) c a c' b l :
  m c = (Ret a, c') → runs (f a) c' b l → runs (m ≫= f) c b l.
Proof.
  intros Hm (c'' & Hf & Hl). exists c''. split; [|done].
  unfold mbind, M_bind. by rewrite Hm.
Qed.

(** The sub-key of a plot type is afterwards a mapping. *)
Lemma ensurePlotOptionType_makes type m po mg n :
  m !! "plotOptions" = Some (VObj po) → absent_or_mapping (po !! type) →
  type = "bar" ∨ type = "pie" ∨ type = "radialBar" ∨ type = "heatmap" →
  ensurePlotOptionType type (MkChart (VObj m) mg n)
  = (Ret ["plotOptions"; type],
     MkChart (VObj (<["plotOptions" := VObj (<[type := VObj (child_map (po !! type))]> po)]> m))
       mg n).
Proof.
  intros Hpo H Ht. unfold ensurePlotOptionType, ensurePlotOptions.
  by_cases_on H; cbn [child_map]; destruct Ht as [->|[->|[->| ->]]];
    try match goal with
        | E : po !! _ = Some (VObj _) |- _ =>
            rewrite (insert_id po _ _ E), (insert_id m _ _ Hpo)
        end;
    exec.
Qed.

Ltac split_truthy config k :=
  destruct (truthy (default VUndefined (config !! k))) eqn:?.

Lemma Plot_runs this call m po mg n :
  m !! "plotOptions" = Some (VObj po) →
  absent_or_mapping (po !! plot_key (plot_call_type call)) →
  (∀ config, call = OfPie (PDonut config) → absent_or_mapping (config !! "labels")) →
  runs (Plot_call this call) (MkChart (VObj m) mg n) this (set_places (OnPlot call)).
Proof.
  intros Hpo Ht Hcalm.
  destruct call as [call|call|call|call]; destruct call;
    cbn [plot_call_type plot_key] in Ht;
    try specialize (Hcalm _ eq_refl); unfold_calls;
    (eapply runs_bind; [apply (ensurePlotOptionType_makes _ m po); auto 10|]);
    try (by runs_exec).
  - by_cases_on Hcalm; runs_exec.
  - split_truthy config "name"; split_truthy config "value";
      split_truthy config "total"; runs_exec.
Qed.

(** An accessor returns and leaves the tree alone. *)
Lemma get_run t c :
  ∃ i c', PlotOptionsManager_get t c = (Ret i, c') ∧ _options c' = _options c.
Proof.
  destruct c as [o [b p r h] n].
  destruct t; unfold_calls;
    [destruct b|destruct p|destruct r|destruct h];
    eexists _, _; (split; [exec|reflexivity]).
Qed.

Lemma get_prop_opt_filter v :
  truthy v = false → get_prop_opt v "filter" = Ret VUndefined.
Proof.
  intros [->|[->|[->|[->| ->]]]]%falsy_cases; vm_compute; reflexivity.
Qed.

(** One of the three interaction states of [states]. *)
Lemma states_filter_run config k m st mg n :
  k = "normal" ∨ k = "hover" ∨ k = "active" →
  m !! "states" = Some (VObj st) →
  absent_or_mapping (config !! k) →
  (∀ cm, config !! k = Some (VObj cm) → st !! k = Some (VObj cm)) →
  ∃ st', states_filter config k (MkChart (VObj m) mg n)
         = (Ret (), MkChart (VObj (<["states" := VObj st']> m)) mg n)
         ∧ ∀ k', k' ≠ k → st' !! k' = st !! k'.
Proof.
  intros Hk Hst H Hin. unfold states_filter, absent_or_mapping in *.
  destruct (config !! k) as [ck|] eqn:E.
  - destruct H as [H|[t ->]].
    + exists st. split; [|done]. rewrite (insert_id m _ _ Hst).
      destruct Hk as [->|[->| ->]];
        (eapply run_bind; [exec|]); cbv beta iota;
        (eapply run_bind; [unfold lift; by rewrite (get_prop_opt_filter ck H)|]);
        exec.
    + specialize (Hin _ eq_refl).
      destruct (truthy (default VUndefined (t !! "filter"))) eqn:Ef.
      * eexists. split; [destruct Hk as [->|[->| ->]]; exec|].
        intros k' Hk'. by rewrite lookup_insert_ne.
      * exists st. split; [|done]. rewrite (insert_id m _ _ Hst).
        destruct Hk as [->|[->| ->]]; exec.
  - exists st. split; [|done]. rewrite (insert_id m _ _ Hst).
    destruct Hk as [->|[->| ->]];
      (eapply run_bind; [exec|]); cbv beta iota;
      (eapply run_bind; [unfold lift; by rewrite (get_prop_opt_filter VUndefined)|]);
      exec.
Qed.

Lemma Chart_states_returns config m mg n :
  absent_or_mapping (config !! "normal") →
  absent_or_mapping (config !! "hover") →
  absent_or_mapping (config !! "active") →
  returns (Chart_states config) (MkChart (VObj m) mg n).
Proof.
  intros Hn Hh Ha. unfold Chart_states.
  eapply returns_bind; [exec|]. cbn [with_options _options plotOptions created].
  set (st := config ∪ _). set (m1 := <["states" := _]> m).
  assert (Hin : ∀ k cm, config !! k = Some (VObj cm) → st !! k = Some (VObj cm)).
  { intros k cm Hk. by apply lookup_union_Some_l. }
  destruct (states_filter_run config "normal" m1 st mg n)
    as (st2 & R2 & H2); auto; [apply lookup_insert_eq|].
  eapply returns_bind; [apply R2|]. clear R2.
  destruct (states_filter_run config "hover" (<["states" := VObj st2]> m1) st2 mg n)
    as (st3 & R3 & H3); auto; [apply lookup_insert_eq| |].
  { intros cm Hk. rewrite H2 by done. by apply Hin. }
  eapply returns_bind; [apply R3|]. clear R3.
  destruct (states_filter_run config "active"
              (<["states" := VObj st3]> (<["states" := VObj st2]> m1)) st3 mg n)
    as (st4 & R4 & H4); auto; [apply lookup_insert_eq| |].
  { intros cm Hk. rewrite H3, H2 by done. by apply Hin. }
  by eexists _, _.
Qed.

(** ** Sequences of operations on a created chart *)

Lemma plain_entry_spec v : plain_entry v = true → absent_or_mapping v.
Proof.
  destruct v as [x|]; [|done]. cbn.
  destruct x as [| |b|z|s|h|items|t]; intros H;
    [left; by apply negb_true_iff..|right; by exists t].
Qed.

Lemma finds_entry ok (m : props) k mg n :
  inherited [] k = false →
  finds ok [k] (MkChart (VObj m) mg n) → ok (default VUndefined (m !! k)).
Proof.
  intros Hk (v & Hv & Hok). cbn [_options] in Hv.
  rewrite get_path_last in Hv by done. by injection Hv as <-.
Qed.

Lemma falsy_or_mapping_entry (m : props) k :
  falsy_or_mapping (default VUndefined (m !! k)) → absent_or_mapping (m !! k).
Proof. by destruct (m !! k). Qed.

Lemma is_mapping_entry (m : props) k :
  is_mapping (default VUndefined (m !! k)) → ∃ t, m !! k = Some (VObj t).
Proof. destruct (m !! k) as [x|]; intros [t Ht]; [|done]. cbn in Ht. subst. by exists t. Qed.

(** What a sound chart has. *)
Lemma sound_open c :
  sound c →
  ∃ m po ch, _options c = VObj m ∧ fits scaffold (VObj m)
    ∧ m !! "plotOptions" = Some (VObj po) ∧ m !! "chart" = Some (VObj ch)
    ∧ absent_or_mapping (m !! "title") ∧ absent_or_mapping (m !! "subtitle")
    ∧ ∀ t, absent_or_mapping (po !! plot_key t).
Proof.
  intros (Hs & Hc & Ht & Hst & Hp). destruct c as [o mg n]. unfold shaped in Hs.
  cbn [_options] in Hs. pose proof Hs as Hf. destruct Hs as (m & -> & Hk).
  assert (∃ po, m !! "plotOptions" = Some (VObj po)) as [po Hpo].
  { clear -Hk. cbn [scaffold kids_of fits_kids] in Hk.
    repeat match goal with H : _ ∧ _ |- _ => destruct H end.
    match goal with
    | H : ∃ x, m !! "plotOptions" = Some x ∧ _ |- _ =>
        destruct H as (x & Hx & t & -> & _); by exists t
    end. }
  apply finds_entry, is_mapping_entry in Hc as [ch Hch]; [|done].
  apply finds_entry, falsy_or_mapping_entry in Ht; [|done].
  apply finds_entry, falsy_or_mapping_entry in Hst; [|done].
  exists m, po, ch. repeat split; try done.
  intros t. destruct (Hp t) as (v & Hv & Hok). cbn [_options] in Hv.
  rewrite (get_path_own m "plotOptions" _ _ Hpo) in Hv.
  rewrite get_path_last in Hv by by destruct t. injection Hv as <-.
  by apply falsy_or_mapping_entry.
Qed.

Lemma Chart_runs call m po ch mg n :
  m !! "plotOptions" = Some (VObj po) → m !! "chart" = Some (VObj ch) →
  absent_or_mapping (m !! "title") → absent_or_mapping (m !! "subtitle") →
  absent_or_mapping (po !! "bar") →
  calm (OnChart call) = true →
  runs (Chart_call call) (MkChart (VObj m) mg n) () (set_places (OnChart call)).
Proof.
  intros Hpo Hch Ht Hs Hb Hcalm. destruct call; unfold_calls.
  - by_cases_on Ht; runs_exec.
  - by_cases_on Hs; runs_exec.
  - runs_exec.
  - runs_exec.
  - runs_exec.
  - runs_exec.
  - cbn [calm] in Hcalm. apply andb_prop in Hcalm as [[H1 H2]%andb_prop H3].
    destruct (Chart_states_returns config m mg n) as ([] & c' & R);
      [by apply plain_entry_spec..|].
    exists c'. split; [done|constructor].
  - runs_exec.
  - destruct config as [config|]; cbn [from_option].
    + split_truthy config "animateGradually";
        split_truthy config "dynamicAnimation"; runs_exec.
    + unfold merge_field, get_prop_opt. cbn [nullish]. runs_exec.
  - runs_exec.
  - destruct (get_run PBar (MkChart (VObj m) mg n)) as (i & [o' mg' n'] & R & Ho).
    cbn [_options] in Ho. subst o'. cbn [PlotOptionsManager_get] in R.
    eapply runs_bind; [apply R|].
    eapply runs_bind; [|eexists; split; [reflexivity|]].
    + eapply run_bind; [apply (ensurePlotOptionType_makes _ m po); auto|].
      cbv beta iota. exec.
    + reads_exec.
Qed.

Lemma runs_done {A : Type} (m : M A) c a l : runs m c a l → runs (done_ m) c () l.
Proof.
  intros (c' & R & Hl). exists c'. split; [|done].
  unfold done_, mbind, M_bind. by rewrite R.
Qed.

(** A quiet operation returns on a sound chart, and the tree then has
    what the operation sets. *)
Lemma Builder_runs call c :
  sound c → calm call = true → runs (Builder_call call) c () (set_places call).
Proof.
  intros (m & po & ch & Hc & Hf & Hpo & Hch & Ht & Hs & Hp)%sound_open Hcalm.
  destruct c as [o mg n]. cbn [_options] in Hc. subst o.
  destruct call as [call|a call|call|call|call|call|call|call|t|call];
    cbn [Builder_call].
  - eapply Chart_runs; eauto. apply (Hp PBar).
  - eapply runs_done. by apply Axis_runs.
  - eapply runs_done. by apply Tooltip_runs.
  - eapply runs_done. by apply Legend_runs.
  - eapply runs_done. by apply Grid_runs.
  - eapply runs_done. by apply DataLabels_runs.
  - eapply runs_done. by apply Markers_runs.
  - eapply runs_done. by apply Theme_runs.
  - destruct (get_run t (MkChart (VObj m) mg n)) as (i & c' & R & _).
    apply (runs_done _ _ i). exists c'. split; [done|constructor].
  - destruct (get_run (plot_call_type call) (MkChart (VObj m) mg n))
      as (i & [o' mg' n'] & R & Ho).
    cbn [_options] in Ho. subst o'.
    eapply runs_bind; [apply R|]. apply (runs_done _ _ i).
    apply (Plot_runs i call m po mg' n' Hpo (Hp _)).
    intros config ->. by apply plain_entry_spec.
Qed.

Lemma Builder_calls_return calls : ∀ c,
  sound c → forallb calm calls = true →
  ∃ c', Builder_calls calls c = (Ret (), c') ∧ sound c'.
Proof.
  induction calls as [|call rest IH]; intros c Hc Hcalm; cbn [Builder_calls].
  - by exists c.
  - cbn [forallb] in Hcalm. apply andb_prop in Hcalm as [H1 H2].
    destruct (Builder_runs call c Hc H1) as (c1 & R & _).
    destruct (sound_Builder call c Hc) as [Hc1 _]. rewrite R in Hc1. cbn [snd] in Hc1.
    destruct (IH c1 Hc1 H2) as (c' & R' & Hc').
    exists c'. split; [|done]. unfold mbind, M_bind. by rewrite R.
Qed.

(** The chart that [Chart.create] makes is sound. *)
Lemma created_sound type : sound (snd (Chart_create type)).
Proof.
  rewrite Chart_create_run. cbn [snd]. unfold sound, shaped, finds. cbn [_options].
  split; [apply fresh_tree_fits|].
  split; [exists (VObj {[ "type" := VStr (ChartType_name type) ]}); split;
          [|by eexists]|].
  { rewrite get_path_last by done. unfold fresh_tree.
    by erewrite lookup_union_Some_l by apply lookup_insert_eq. }
  split; [exists VUndefined; split; [by destruct type; vm_compute|by left]|].
  split; [exists VUndefined; split; [by destruct type; vm_compute|by left]|].
  intros t. exists VUndefined. split; [by destruct type, t; vm_compute|by left].
Qed.

(** X10: a setter and the getter [options] make a round trip: on a chart
    made by [Chart.create] and changed by any quiet sequence of operations,
    an operation that sets an entry to its argument leaves the argument at
    that entry of the tree. *)
Theorem setter_round_trip (type : ChartType) (calls : list builder_call)
    (call : builder_call) (p : path) (v : value) :
  forallb calm calls = true → (p, v) ∈ set_places call →
  get_path (_options (snd (Builder_call call
                             (snd (Builder_calls calls (snd (Chart_create type))))))) p
  = Ret v.
Proof.
  intros H Hin. destruct (Builder_calls_return calls _ (created_sound type) H)
    as (c' & R & Hc'). rewrite R. cbn [snd].
  assert (Hcalm : calm call = true).
  { destruct (calm call) eqn:E; [done|]. exfalso.
    destruct call as [[]| | | | | | | | |[|[]| |]]; try discriminate E;
      by inversion Hin. }
  destruct (Builder_runs call c' Hc' Hcalm) as (c'' & R' & Hl).
  rewrite R'. cbn [snd]. unfold reads in Hl. rewrite Forall_forall in Hl.
  apply (Hl (p, v) Hin).
Qed.

(** A title, a position for the legend and then a width for the columns
    of a bar chart. *)
Lemma setter_round_trip_example :
  get_path
    (_options (snd (Builder_call (OnPlot (OfBar (BColumnWidth "60%")))
                      (snd (Builder_calls [OnChart (CTitle "Sales");
                                           OnLegend (LPosition "top")]
                              (snd (Chart_create bar)))))))
    ["plotOptions"; "bar"; "columnWidth"]
  = Ret (VStr "60%").
Proof.
  apply (setter_round_trip bar [OnChart (CTitle "Sales"); OnLegend (LPosition "top")]
           (OnPlot (OfBar (BColumnWidth "60%")))).
  - vm_compute. reflexivity.
  - cbn [set_places]. apply list_elem_of_here.
Defined.

(** X11: no quiet sequence of operations throws on a created chart. *)
Theorem builder_calls_return (type : ChartType) (calls : list builder_call) :
  forallb calm calls = true →
  fst (Builder_calls calls (snd (Chart_create type))) = Ret ().
Proof.
  intros H. destruct (Builder_calls_return calls _ (created_sound type) H)
    as (c' & R & _). by rewrite R.
Qed.

(** States, a donut and a title of the y axis on a pie chart. *)
Lemma builder_calls_return_example :
  fst (Builder_calls
         [OnChart (CStates {[ "hover" := VObj {[ "filter" := VObj {[ "type" := VStr "none" ]} ]} ]});
          OnPlot (OfPie (PDonut {[ "labels" := VObj {[ "show" := VBool true ]} ]}));
          OnAxis yaxis (ATitle "Value")]
         (snd (Chart_create pie)))
  = Ret ().
Proof.
  apply (builder_calls_return pie).
  vm_compute. reflexivity.
Defined.

(** ** Nested merges that change nothing *)

(** The second step of [states] for one interaction state changes
    nothing. *)
Lemma states_filter_idle config k m st mg n :
  k = "normal" ∨ k = "hover" ∨ k = "active" →
  m !! "states" = Some (VObj st) →
  flat_state (config !! k) →
  (∀ cm, config !! k = Some (VObj cm) → st !! k = Some (VObj cm)) →
  states_filter config k (MkChart (VObj m) mg n) = (Ret (), MkChart (VObj m) mg n).
Proof.
  intros Hk Hst H Hin. unfold states_filter, flat_state in *.
  destruct (config !! k) as [ck|] eqn:E.
  - destruct H as [H|(t & -> & Hf)].
    + destruct Hk as [->|[->| ->]];
        (eapply run_bind; [exec|]); cbv beta iota;
        (eapply run_bind; [unfold lift; by rewrite (get_prop_opt_filter ck H)|]);
        exec.
    + specialize (Hin _ eq_refl). unfold absent_or_mapping in Hf.
      destruct (t !! "filter") as [f|] eqn:Ef.
      * destruct Hf as [Hf|[fm ->]].
        -- destruct Hk as [->|[->| ->]]; exec.
        -- destruct Hk as [->|[->| ->]]; (etransitivity; [exec|]);
             by rewrite (idemp_L (∪) fm), (insert_id t _ _ Ef), (insert_id st _ _ Hin),
               (insert_id m _ _ Hst).
      * destruct Hk as [->|[->| ->]]; exec.
  - destruct Hk as [->|[->| ->]];
      (eapply run_bind; [exec|]); cbv beta iota;
      (eapply run_bind; [unfold lift; by rewrite (get_prop_opt_filter VUndefined)|]);
      exec.
Qed.

(** X12: [states] is the shallow merge alone: when the interaction states of
    the configuration and their filters are mappings (or absent or falsy),
    the three blocks that merge the filters change nothing, so an
    interaction state of the configuration replaces the one the tree has,
    filter included. *)
Theorem Chart_states_shallow (c : Chart) (m config : props) :
  _options c = VObj m →
  flat_state (config !! "normal") → flat_state (config !! "hover") →
  flat_state (config !! "active") →
  Chart_states config c
  = (Ret (),
     with_options
       (VObj (<["states" :=
                  VObj (config ∪ spread (js_or (default VUndefined (m !! "states")) empty_obj))]>
                m)) c).
Proof.
  intros Hc Hn Hh Ha. destruct c as [o mg n]. cbn [_options] in Hc. subst o.
  unfold Chart_states.
  eapply run_bind; [exec|]. cbv beta iota. cbn [with_options _options plotOptions created].
  set (st := config ∪ _). set (m1 := <["states" := _]> m).
  assert (Hin : ∀ k cm, config !! k = Some (VObj cm) → st !! k = Some (VObj cm)).
  { intros k cm Hk. by apply lookup_union_Some_l. }
  assert (Hst : m1 !! "states" = Some (VObj st)) by apply lookup_insert_eq.
  eapply run_bind; [apply (states_filter_idle _ _ _ st); auto|]. cbv beta iota.
  eapply run_bind; [apply (states_filter_idle _ _ _ st); auto|]. cbv beta iota.
  apply (states_filter_idle _ _ _ st); auto.
Qed.

(** A filter for the state [hover] of a chart whose tree is empty. *)
Lemma Chart_states_shallow_example :
  let config : props :=
    {[ "hover" := VObj {[ "filter" := VObj {[ "type" := VStr "none" ]} ]} ]} in
  Chart_states config (MkChart (VObj ∅) empty_manager 0)
  = (Ret (), MkChart (VObj {[ "states" := VObj config ]}) empty_manager 0).
Proof.
  intros config.
  rewrite (Chart_states_shallow (MkChart (VObj ∅) empty_manager 0) ∅ config).
  - vm_compute. reflexivity.
  - reflexivity.
  - vm_compute. exact I.
  - vm_compute. right. eexists. split; [reflexivity|]. right. eexists. reflexivity.
  - vm_compute. exact I.
Defined.

Lemma insert_merged (config rest nm : props) k :
  config !! k = Some (VObj nm) →
  <[k := VObj (nm ∪ nm)]> (config ∪ rest) = config ∪ rest.
Proof.
  intros H. rewrite (idemp_L (∪) nm). apply insert_id. by apply lookup_union_Some_l.
Qed.

Lemma ensure_chart_run m mg n :
  absent_or_mapping (m !! "chart") →
  ensure_chart (MkChart (VObj m) mg n)
  = (Ret (), MkChart (VObj (<["chart" := VObj (chart_or_line (m !! "chart"))]> m)) mg n).
Proof.
  intros H. unfold ensure_chart.
  by_cases_on H; cbn [chart_or_line];
    try match goal with
        | E : m !! _ = Some (VObj _) |- _ => rewrite (insert_id m _ _ E)
        end;
    exec.
Qed.

Ltac entry_cases H :=
  lazymatch type of H with
  | absent_or_mapping (?m !! ?k) =>
      let v := fresh "v" in let E := fresh "E" in let t := fresh "t" in
      unfold absent_or_mapping in H;
      destruct (m !! k) as [v|] eqn:E; [destruct H as [H|[t ->]]|]
  end.

(** X13: [animations] is the shallow merge alone: when [animateGradually]
    and [dynamicAnimation] of the configuration are mappings (or absent or
    falsy), the two blocks that merge them change nothing, so what the
    tree had under these two keys is replaced, not merged. *)
Theorem Chart_animations_shallow (c : Chart) (m : props) (config : option props) :
  _options c = VObj m → absent_or_mapping (m !! "chart") →
  (∀ cf, config = Some cf →
         absent_or_mapping (cf !! "animateGradually")
         ∧ absent_or_mapping (cf !! "dynamicAnimation")) →
  Chart_animations config c
  = (Ret (),
     with_options
       (VObj (<["chart" :=
                  VObj (<["animations" :=
                            VObj (from_option id ∅ config
                                  ∪ spread (js_or (default VUndefined
                                                     (chart_or_line (m !! "chart") !! "animations"))
                                              empty_obj))]>
                          (chart_or_line (m !! "chart")))]> m)) c).
Proof.
  intros Hc Hch Hcf. destruct c as [o mg n]. cbn [_options] in Hc. subst o.
  unfold Chart_animations. cbv zeta.
  eapply run_bind; [by apply ensure_chart_run|]. cbv beta iota.
  generalize (chart_or_line (m !! "chart")). intros ch.
  destruct config as [cf|]; cbn [from_option id].
  - destruct (Hcf cf eq_refl) as [Hg Hd]. unfold merge_field.
    entry_cases Hg; entry_cases Hd; (etransitivity; [exec|]);
      rewrite ?insert_merged by done; reflexivity.
  - unfold merge_field, get_prop_opt. cbn [nullish]. exec.
Qed.

(** Animations for a chart that animates gradually with a delay: the delay
    is gone. *)
Lemma Chart_animations_shallow_example :
  let old : props := {[ "speed" := VNum 800;
                        "animateGradually" := VObj {[ "delay" := VNum 150 ]} ]} in
  let config : props := {[ "animateGradually" := VObj {[ "enabled" := VBool true ]} ]} in
  Chart_animations (Some config)
    (MkChart (VObj {[ "chart" := VObj {[ "type" := VStr "bar"; "animations" := VObj old ]} ]})
       empty_manager 0)
  = (Ret (),
     MkChart (VObj {[ "chart" :=
                        VObj {[ "type" := VStr "bar";
                                "animations" :=
                                  VObj {[ "speed" := VNum 800;
                                          "animateGradually" :=
                                            VObj {[ "enabled" := VBool true ]} ]} ]} ]})
       empty_manager 0).
Proof.
  intros old config.
  rewrite (Chart_animations_shallow
             (MkChart (VObj {[ "chart" := VObj {[ "type" := VStr "bar";
                                                  "animations" := VObj old ]} ]})
                empty_manager 0)
             {[ "chart" := VObj {[ "type" := VStr "bar"; "animations" := VObj old ]} ]}
             (Some config)).
  - vm_compute. reflexivity.
  - reflexivity.
  - vm_compute. right. eexists. reflexivity.
  - intros cf [= <-]. split.
    + vm_compute. right. eexists. reflexivity.
    + vm_compute. exact I.
Defined.

(** X14: [dataLabels] of the radial bar options is the shallow merge alone:
    when [name], [value] and [total] of the configuration are mappings (or
    absent or falsy), the three blocks that merge them change nothing, so
    what the tree had under these keys is replaced, not merged. *)
Theorem RadialBarOptions_dataLabels_shallow
    (this : RadialBarOptions) (c : Chart) (m po config : props) :
  _options c = VObj m → m !! "plotOptions" = Some (VObj po) →
  absent_or_mapping (po !! "radialBar") →
  absent_or_mapping (config !! "name") → absent_or_mapping (config !! "value") →
  absent_or_mapping (config !! "total") →
  RadialBarOptions_dataLabels this config c
  = (Ret this,
     with_options
       (VObj (<["plotOptions" :=
                  VObj (<["radialBar" :=
                            VObj (<["dataLabels" :=
                                      VObj (config
                                            ∪ spread (js_or (default VUndefined
                                                               (child_map (po !! "radialBar")
                                                                !! "dataLabels"))
                                                        empty_obj))]>
                                    (child_map (po !! "radialBar")))]> po)]> m)) c).
Proof.
  intros Hc Hpo Hrb Hn Hv Ht. destruct c as [o mg n]. cbn [_options] in Hc. subst o.
  unfold RadialBarOptions_dataLabels, ensureRadialBarOptions.
  eapply run_bind; [apply (ensurePlotOptionType_makes _ m po); auto|]. cbv beta iota.
  generalize (child_map (po !! "radialBar")). intros rb. unfold merge_field.
  entry_cases Hn; entry_cases Hv; entry_cases Ht; (etransitivity; [exec|]);
    rewrite ?insert_merged by done; reflexivity.
Qed.

(** A font size for the name of the data labels of radial bars whose name
    had a colour and whose value has an offset: the colour is gone, the
    offset is kept. *)
Lemma RadialBarOptions_dataLabels_shallow_example :
  let old : props := {[ "name" := VObj {[ "color" := VStr "red" ]};
                        "value" := VObj {[ "offsetY" := VNum 4 ]} ]} in
  let config : props := {[ "name" := VObj {[ "fontSize" := VStr "12px" ]} ]} in
  RadialBarOptions_dataLabels (Instance 0) config
    (MkChart (VObj {[ "plotOptions" :=
                        VObj {[ "radialBar" := VObj {[ "dataLabels" := VObj old ]} ]} ]})
       empty_manager 0)
  = (Ret (Instance 0),
     MkChart (VObj {[ "plotOptions" :=
                        VObj {[ "radialBar" :=
                           VObj {[ "dataLabels" :=
                              VObj {[ "name" := VObj {[ "fontSize" := VStr "12px" ]};
                                      "value" := VObj {[ "offsetY" := VNum 4 ]} ]} ]} ]} ]})
       empty_manager 0).
Proof.
  intros old config.
  rewrite (RadialBarOptions_dataLabels_shallow (Instance 0)
             (MkChart (VObj {[ "plotOptions" :=
                                 VObj {[ "radialBar" := VObj {[ "dataLabels" := VObj old ]} ]} ]})
                empty_manager 0)
             {[ "plotOptions" := VObj {[ "radialBar" := VObj {[ "dataLabels" := VObj old ]} ]} ]}
             {[ "radialBar" := VObj {[ "dataLabels" := VObj old ]} ]} config).
  - vm_compute. reflexivity.
  - reflexivity.
  - reflexivity.
  - vm_compute. right. eexists. reflexivity.
  - vm_compute. right. eexists. reflexivity.
  - vm_compute. exact I.
  - vm_compute. exact I.
Defined.

(** ** Axis setters, case by case *)

Lemma pretty_N_go_digit x s :
  digit_first s = true → digit_first (pretty_N_go x s) = true.
Proof.
  revert s. induction (N.lt_wf_0 x) as [x _ IH]; intros s Hs.
  assert (x = 0 ∨ 0 < x)%N as [->|?] by lia.
  - by rewrite pretty_N_go_0.
  - rewrite pretty_N_go_step by done. apply IH.
    { by apply N.div_lt. }
    unfold pretty_N_char. by repeat case_match.
Qed.

Lemma key_of_index_digit i : digit_first (key_of_index i) = true.
Proof.
  unfold key_of_index, pretty, pretty_nat, pretty, pretty_N.
  case_decide; [done|].
  rewrite pretty_N_go_step by lia. apply pretty_N_go_digit.
  unfold pretty_N_char. by repeat case_match.
Qed.

Lemma index_in_name n k : digit_first k = false → index_in n k = None.
Proof.
  intros Hk. destruct (index_in n k) as [j|] eqn:E; [|done].
  apply index_in_spec in E as [<- _]. by rewrite key_of_index_digit in Hk.
Qed.

(** What a boolean, a number or a string answers for a name that is not a
    member of its prototype, not an index and not [length]. *)
Lemma get_prop_primitive p k :
  primitive p = true → inherited (number_members ++ string_members) k = false →
  digit_first k = false → k ≠ "length" →
  get_prop p k = Ret VUndefined.
Proof.
  intros Hp Hi Hd Hl. unfold inherited in Hi. rewrite existsb_app in Hi.
  apply orb_false_iff in Hi as [Ho Hi]. rewrite existsb_app in Hi.
  apply orb_false_iff in Hi as [Hn Hs].
  destruct p as [| |b|z|s| | |]; try done; unfold get_prop, get_item, absent, inherited;
    rewrite ?existsb_app, ?Ho, ?Hn, ?Hs; try done.
  rewrite index_in_name by done. by apply String.eqb_neq in Hl as ->.
Qed.

Lemma put_prop_primitive p k x :
  primitive p = true → k ≠ "__proto__" → put_prop p k x = Throw TypeError.
Proof.
  intros Hp Hk. apply String.eqb_neq in Hk.
  destruct p; try done; unfold put_prop; by rewrite Hk.
Qed.

Lemma load_at_primitive c q p k :
  get_path (_options c) q = Ret p → primitive p = true →
  inherited (number_members ++ string_members) k = false →
  digit_first k = false → k ≠ "length" →
  load (q ++ [k]) c = (Ret VUndefined, c).
Proof.
  intros Hq Hp Hi Hd Hl. unfold load. rewrite get_path_app, Hq.
  cbn [mbind outcome_bind]. rewrite get_path_cons.
  by rewrite (get_prop_primitive p k).
Qed.

Lemma store_at_primitive c q p k x :
  get_path (_options c) q = Ret p → primitive p = true → k ≠ "__proto__" →
  store q k x c = (Throw TypeError, c).
Proof.
  intros Hq Hp Hk. unfold store, put_path. rewrite Hq.
  cbn [mbind outcome_bind]. by rewrite put_prop_primitive.
Qed.

(** The axis that a builder resolves to. *)
Lemma getAxisConfig_resolves t c (m : props) :
  _options c = VObj m →
  ∃ r, getAxisConfig (MkAxis t) c = (Ret r, c)
       ∧ deref r c = (Ret (resolved_axis t m), c)
       ∧ ∀ q, r = Some q → get_path (VObj m) q = Ret (resolved_axis t m).
Proof.
  intros Hc. destruct c as [o mg n]. cbn in Hc. subst o.
  unfold getAxisConfig. destruct t; cbn [axisType resolved_axis].
  - exists (Some ["xaxis"]). split; [exec|]. split; [exec|].
    intros q [= <-]. by rewrite get_path_last.
  - destruct (m !! "yaxis") as [y|] eqn:E.
    + destruct y as [| | | | | |[|e rest]|]; cbn [default head];
        first [ exists None; split; [exec|]; split; [exec|]; by intros q [=]
              | exists (Some ["yaxis"; "0"]); split; [exec|]; split; [exec|];
                intros q [= <-]; by rewrite (get_path_own _ _ _ _ E), get_path_first
              | exists (Some ["yaxis"]); split; [exec|]; split; [exec|];
                intros q [= <-]; by rewrite get_path_last, E ].
    + exists (Some ["yaxis"]). split; [exec|]. split; [exec|].
      intros q [= <-]. by rewrite get_path_last, E.
Qed.

Ltac rb H := (eapply run_bind; [apply H|]); cbv beta iota.

(** On a truthy boolean, number or string, [title] does nothing and the
    other setters stop. *)
Lemma Axis_call_primitive t call c (m : props) :
  _options c = VObj m →
  primitive (resolved_axis t m) = true → truthy (resolved_axis t m) = true →
  Axis_call (MkAxis t) call c
  = (if is_title call then Ret (MkAxis t) else Throw TypeError, c).
Proof.
  intros Hc Hp Ht.
  destruct (getAxisConfig_resolves t c m Hc) as (r & Hg & Hd & Hq).
  destruct r as [q|]; [|cbn in Hd; injection Hd as Hd; by rewrite <- Hd in Hp].
  specialize (Hq q eq_refl). rewrite <- Hc in Hq.
  assert (Hn : nullish (resolved_axis t m) = false)
    by by destruct (resolved_axis t m).
  assert (St : ∀ k x, k ≠ "__proto__" → store q k x c = (Throw TypeError, c))
    by (intros; by eapply store_at_primitive).
  destruct call; cbn [Axis_call is_title];
    unfold Axis_title, Axis_categories, Axis_type, Axis_labels, Axis_range,
      Axis_tickAmount, Axis_axisBorder, Axis_axisTicks, Axis_crosshairs,
      assign_merged_or, ensure;
    rb Hg; rb Hd; cbn [target default id]; rewrite ?Ht; cbn [when].
  - unfold get_prop_opt. rewrite Hn.
    rewrite (get_prop_primitive _ "title") by done.
    unfold lift, mbind, M_bind, mret, M_ret. cbn [truthy when]. reflexivity.
  - unfold mbind, M_bind. by rewrite St.
  - unfold mbind, M_bind. by rewrite St.
  - unfold mbind at 1. unfold M_bind at 1. unfold mbind at 1. unfold M_bind at 1.
    unfold mbind at 1. unfold M_bind at 1.
    rewrite (load_at_primitive c q _ "labels") by done. by rewrite St.
  - unfold mbind, M_bind. by rewrite St.
  - unfold mbind, M_bind. by rewrite St.
  - unfold mbind at 1. unfold M_bind at 1. unfold mbind at 1. unfold M_bind at 1.
    rewrite (load_at_primitive c q _ "axisBorder") by done. by rewrite St.
  - unfold mbind at 1. unfold M_bind at 1. unfold mbind at 1. unfold M_bind at 1.
    rewrite (load_at_primitive c q _ "axisTicks") by done. by rewrite St.
  - unfold mbind at 1. unfold M_bind at 1. unfold mbind at 1. unfold M_bind at 1.
    rewrite (load_at_primitive c q _ "crosshairs") by done. by rewrite St.
Qed.

(** [title] stops on an axis whose title is a truthy boolean, number or
    string. *)
Lemma Axis_title_primitive t call c (m a : props) :
  _options c = VObj m → resolved_axis t m = VObj a → title_on_primitive call a →
  Axis_call (MkAxis t) call c = (Throw TypeError, c).
Proof.
  intros Hc Ha Hp. unfold title_on_primitive in Hp.
  destruct call as [text| | | | | | | |]; try done.
  destruct (a !! "title") as [p|] eqn:Et; [|done]. destruct Hp as [Hp Ht].
  destruct (getAxisConfig_resolves t c m Hc) as (r & Hg & Hd & Hq).
  rewrite Ha in Hd, Hq.
  destruct r as [q|]; [|cbn in Hd; by injection Hd].
  specialize (Hq q eq_refl). rewrite <- Hc in Hq.
  cbn [Axis_call]. unfold Axis_title. rb Hg. rb Hd.
  unfold get_prop_opt. cbn [nullish]. rewrite (get_prop_own _ _ _ Et).
  unfold lift at 1. unfold mbind at 1. unfold M_bind at 1. rewrite Ht. cbn [when target default id].
  unfold mbind, M_bind. erewrite (store_at_primitive c (q ++ ["title"]) p); [done| |done|done].
  rewrite get_path_app, Hq. cbn [mbind outcome_bind]. rewrite get_path_cons.
  by rewrite (get_prop_own _ _ _ Et).
Qed.

Lemma with_axis_same t (m a : props) :
  resolved_axis t m = VObj a → with_axis t m (VObj a) = m.
Proof.
  destruct t; cbn [resolved_axis with_axis].
  - destruct (m !! "xaxis") as [x|] eqn:E; [|done]. cbn. intros ->. by apply insert_id.
  - destruct (m !! "yaxis") as [[| | | | | |[|e rest]|]|] eqn:E; try done; cbn.
    + intros ->. by apply insert_id.
    + intros [= ->]. by apply insert_id.
Qed.

(** On an axis that is a mapping, a setter returns and leaves
    [axis_after]. *)
Lemma Axis_call_exact t call c (m a : props) :
  _options c = VObj m → resolved_axis t m = VObj a → title_settable call a →
  Axis_call (MkAxis t) call c
  = (Ret (MkAxis t), with_options (VObj (with_axis t m (VObj (axis_after call a)))) c).
Proof.
  intros Hc Ha Hq. destruct c as [o mg n]. cbn in Hc. subst o.
  assert (Hcases :
    (t = xaxis ∧ m !! "xaxis" = Some (VObj a))
    ∨ (t = yaxis ∧ m !! "yaxis" = Some (VObj a))
    ∨ (t = yaxis ∧ ∃ rest, m !! "yaxis" = Some (VArr (VObj a :: rest)))).
  { destruct t; cbn [resolved_axis] in Ha.
    - left. split; [done|]. destruct (m !! "xaxis"); by simplify_eq/=.
    - right. destruct (m !! "yaxis") as [[| | | | | |[|e rest]|]|]; simplify_eq/=;
        [right; split; [done|by eexists]|left; done]. }
  assert (Hsame : ∀ x, x = a →
            MkChart (VObj m) mg n
            = with_options (VObj (with_axis t m (VObj x))) (MkChart (VObj m) mg n)).
  { intros x ->. by rewrite with_axis_same. }
  unfold title_settable, quiet_title in Hq.
  destruct call as [text|cats|ty|config|lo hi|amount|config|config|config];
    cbn [axis_after]; unfold merged_child, labels_after.
  - destruct (a !! "title") as [tt|] eqn:Et.
    + destruct Hq as [Hq|[tm ->]].
      * rewrite <- (Hsame (match tt with VObj tm => _ | _ => a end))
          by (by destruct tt).
        destruct Hcases as [[-> Hm]|[[-> Hm]|[-> [rest Hm]]]];
          unfold_axis; cbn [axisType]; exec.
      * destruct Hcases as [[-> Hm]|[[-> Hm]|[-> [rest Hm]]]];
          cbn [with_axis]; rewrite ?Hm; unfold_axis; cbn [axisType]; exec.
    + rewrite <- (Hsame a eq_refl).
      destruct Hcases as [[-> Hm]|[[-> Hm]|[-> [rest Hm]]]];
        unfold_axis; cbn [axisType]; exec.
  - destruct Hcases as [[-> Hm]|[[-> Hm]|[-> [rest Hm]]]];
      cbn [with_axis]; rewrite ?Hm; unfold_axis; cbn [axisType]; exec.
  - destruct Hcases as [[-> Hm]|[[-> Hm]|[-> [rest Hm]]]];
      cbn [with_axis]; rewrite ?Hm; unfold_axis; cbn [axisType]; exec.
  - destruct (a !! "labels") as [l|] eqn:El; [destruct (truthy l) eqn:Hl|];
    (destruct (config !! "style") as [st|] eqn:Es; [destruct (truthy st) eqn:Hs|]);
    destruct Hcases as [[-> Hm]|[[-> Hm]|[-> [rest Hm]]]];
      cbn [with_axis default]; rewrite ?Hm; unfold_axis; cbn [axisType];
      (etransitivity; [exec|]);
      rewrite ?(js_or_truthy _ _ Hl), ?(js_or_falsy _ _ Hl), ?(idemp_L (∪));
      reflexivity.
  - destruct Hcases as [[-> Hm]|[[-> Hm]|[-> [rest Hm]]]];
      cbn [with_axis]; rewrite ?Hm; unfold_axis; cbn [axisType]; exec.
  - destruct Hcases as [[-> Hm]|[[-> Hm]|[-> [rest Hm]]]];
      cbn [with_axis]; rewrite ?Hm; unfold_axis; cbn [axisType]; exec.
  - destruct (a !! "axisBorder") as [tt|] eqn:Et; [destruct (truthy tt) eqn:Ht|];
    destruct Hcases as [[-> Hm]|[[-> Hm]|[-> [rest Hm]]]];
      cbn [with_axis default]; rewrite ?Hm; unfold_axis; cbn [axisType];
      (etransitivity; [exec|]);
      rewrite ?(js_or_truthy _ _ Ht), ?(js_or_falsy _ _ Ht); reflexivity.
  - destruct (a !! "axisTicks") as [tt|] eqn:Et; [destruct (truthy tt) eqn:Ht|];
    destruct Hcases as [[-> Hm]|[[-> Hm]|[-> [rest Hm]]]];
      cbn [with_axis default]; rewrite ?Hm; unfold_axis; cbn [axisType];
      (etransitivity; [exec|]);
      rewrite ?(js_or_truthy _ _ Ht), ?(js_or_falsy _ _ Ht); reflexivity.
  - destruct (a !! "crosshairs") as [tt|] eqn:Et; [destruct (truthy tt) eqn:Ht|];
    destruct Hcases as [[-> Hm]|[[-> Hm]|[-> [rest Hm]]]];
      cbn [with_axis default]; rewrite ?Hm; unfold_axis; cbn [axisType];
      (etransitivity; [exec|]);
      rewrite ?(js_or_truthy _ _ Ht), ?(js_or_falsy _ _ Ht); reflexivity.
Qed.

(** C7 (as it holds): on a chart whose tree is a mapping, an axis setter
    returns the axis and leaves the chart as it is when the resolved axis is
    falsy.  When the resolved axis is a mapping, the setter returns the axis
    and leaves the mapping [axis_after] in its place: the entry written, or
    for [title] the text of a title that is a mapping and nothing when the
    title is absent or falsy; [title] stops with a [TypeError], the chart
    unchanged, when the title is a truthy boolean, number or string.  When
    the resolved axis is a truthy boolean, number or string, [title]
    returns the axis and the other setters stop with a [TypeError], the
    chart unchanged in both cases. *)
Theorem axis_setters_quiet (this : Axis) (call : axis_call) (c : Chart) (m : props) :
  _options c = VObj m →
  (truthy (resolved_axis (axisType this) m) = false →
     Axis_call this call c = (Ret this, c))
  ∧ (∀ a, resolved_axis (axisType this) m = VObj a →
       (title_settable call a →
          Axis_call this call c
          = (Ret this,
             with_options
               (VObj (with_axis (axisType this) m (VObj (axis_after call a)))) c))
       ∧ (title_on_primitive call a →
            Axis_call this call c = (Throw TypeError, c)))
  ∧ (primitive (resolved_axis (axisType this) m) = true →
     truthy (resolved_axis (axisType this) m) = true →
     Axis_call this call c
     = (if is_title call then Ret this else Throw TypeError, c)).
Proof.
  intros Hc. destruct this as [t]. cbn [axisType]. split; [|split].
  - intros Hf. by apply (Axis_call_falsy (MkAxis t) call c m).
  - intros a Ha. split.
    + intros Hq. by apply (Axis_call_exact t call c m a).
    + intros Hp. by apply (Axis_title_primitive t call c m a).
  - intros Hp Ht. by apply (Axis_call_primitive t call c m).
Qed.

(** [title] on an x axis that has a title, [categories] on a y axis that
    has been replaced by [0], and [title] and [range] on a y axis that has
    been replaced by [5]. *)
Lemma axis_setters_quiet_example :
  Axis_call Chart_xaxis (ATitle "Month") titled
  = (Ret Chart_xaxis,
     MkChart (VObj {[ "xaxis" := VObj {[ "title" := VObj {[ "text" := VStr "Month" ]} ]} ]})
       empty_manager 0)
  ∧ Axis_call Chart_yaxis (ACategories [VStr "a"]) (only_yaxis (VNum 0))
    = (Ret Chart_yaxis, only_yaxis (VNum 0))
  ∧ Axis_call Chart_yaxis (ATitle "Value") (only_yaxis (VNum 5))
    = (Ret Chart_yaxis, only_yaxis (VNum 5))
  ∧ Axis_call Chart_yaxis (ARange 0 10) (only_yaxis (VNum 5))
    = (Throw TypeError, only_yaxis (VNum 5)).
Proof.
  split; [|split; [|split]].
  - rewrite (proj1 (proj1 (proj2 (axis_setters_quiet Chart_xaxis (ATitle "Month") titled
                    {[ "xaxis" := VObj {[ "title" := VObj {[ "text" := VStr "old" ]} ]} ]}
                    eq_refl))
             {[ "title" := VObj {[ "text" := VStr "old" ]} ]} eq_refl)).
    + vm_compute. reflexivity.
    + right. exists {[ "text" := VStr "old" ]}. vm_compute. reflexivity.
  - apply (proj1 (axis_setters_quiet Chart_yaxis (ACategories [VStr "a"])
                    (only_yaxis (VNum 0)) {[ "yaxis" := VNum 0 ]} eq_refl)).
    vm_compute. reflexivity.
  - apply (proj2 (proj2 (axis_setters_quiet Chart_yaxis (ATitle "Value")
                    (only_yaxis (VNum 5)) {[ "yaxis" := VNum 5 ]} eq_refl))).
    + vm_compute. reflexivity.
    + vm_compute. reflexivity.
  - apply (proj2 (proj2 (axis_setters_quiet Chart_yaxis (ARange 0 10)
                    (only_yaxis (VNum 5)) {[ "yaxis" := VNum 5 ]} eq_refl))).
    + vm_compute. reflexivity.
    + vm_compute. reflexivity.
Defined.

(** ** The plot options manager, instance by instance *)

Lemma PlotOptionsManager_get_first t c :
  cached t (plotOptions c) = None →
  PlotOptionsManager_get t c
  = (Ret (Instance (created c)),
     MkChart (_options c) (caching t (Instance (created c)) (plotOptions c))
       (S (created c))).
Proof.
  destruct c as [o [b p r h] n]. destruct t; cbn; intros ->; reflexivity.
Qed.

Lemma put_path_mapping (t : props) p k x v' :
  put_path (VObj t) p k x = Ret v' → ∃ t', v' = VObj t'.
Proof.
  destruct p as [|s p]; intros H.
  - rewrite put_path_nil in H. unfold put_prop in H.
    destruct (String.eqb k "__proto__"); [done|]. injection H as <-. by eexists.
  - apply put_path_obj_inv in H as (ch & ch' & _ & _ & ->). by eexists.
Qed.

Section OneSubKey.
Context (t : plot_type) (m : props).

Local Abbreviation sub_kept := (keeps (one_sub_key t m) (λ _, True)).

Lemma sub_kept_load q : sub_kept (load q).
Proof. by intros c Hc. Qed.

Lemma sub_kept_store r k x :
  sub_kept (store ("plotOptions" :: plot_key t :: r) k x).
Proof.
  intros c [pt Hc]. split; [|done]. unfold store. rewrite Hc.
  destruct (put_path _ _ k x) as [o|e] eqn:E; [|by exists pt].
  apply put_path_obj_inv in E as (ch & ch' & Hch & E & ->).
  rewrite lk_ins in Hch. injection Hch as <-.
  apply put_path_obj_inv in E as (ch2 & ch2' & Hch2 & E & ->).
  rewrite lk_single in Hch2. injection Hch2 as <-.
  apply put_path_mapping in E as [pt' ->].
  exists pt'. cbn [snd _options with_options]. by rewrite ins_ins, ins_single.
Qed.

End OneSubKey.

Ltac sk :=
  cbn [app];
  lazymatch goal with
  | |- keeps _ _ (mbind (M := M) _ _) => eapply keeps_bind; [sk | intros ? _; sk]
  | |- keeps _ _ (mret _) =>
      first [by apply keeps_ret | by apply (keeps_ret _ (λ _, True))]
  | |- keeps _ _ (when _ _) => apply keeps_when; intros _; sk
  | |- keeps _ _ (load _) => apply sub_kept_load
  | |- keeps _ (λ _, True) (lift _) => eapply keeps_weaken; [apply keeps_lift | done]
  | |- keeps _ _ (lift _) => apply keeps_lift
  | |- keeps (one_sub_key ?t ?m) _ (store (_ :: _ :: ?r) _ _) =>
      apply (sub_kept_store t m r)
  end.

Lemma sub_kept_Plot t m this call :
  plot_call_type call = t →
  ∀ c, _options c = VObj (<["plotOptions" := empty_obj]> m) →
       one_sub_key t m (snd (Plot_call this call c)).
Proof.
  intros <- c Hc.
  pose proof (ensurePlotOptionType_run (plot_call_type call) c _ ∅ Hc (lk_ins _ _ _)
                (lk_empty _)) as He.
  rewrite ins_ins, insert_empty in He.
  set (c1 := with_options _ c) in He.
  assert (H1 : one_sub_key (plot_call_type call) m c1) by by exists ∅.
  assert (K : ∀ f : path → M instance,
             (∀ q, q = ["plotOptions"; plot_key (plot_call_type call)] →
                   keeps (one_sub_key (plot_call_type call) m) (λ _, True) (f q)) →
             one_sub_key (plot_call_type call) m
               (snd ((ensurePlotOptionType (plot_key (plot_call_type call)) ≫= f) c))).
  { intros f Hf. unfold mbind, M_bind. rewrite He. by apply (Hf _ eq_refl c1). }
  destruct call as [call|call|call|call]; destruct call; cbn [Plot_call
        BarOptions_call PieOptions_call RadialBarOptions_call HeatmapOptions_call
        plot_call_type plot_key] in *;
    unfold BarOptions_horizontal, BarOptions_columnWidth, BarOptions_barHeight,
      BarOptions_distributed, BarOptions_borderRadius, BarOptions_colors,
      PieOptions_startAngle, PieOptions_endAngle, PieOptions_expandOnClick,
      PieOptions_donut, RadialBarOptions_hollow, RadialBarOptions_track,
      RadialBarOptions_dataLabels, HeatmapOptions_radius,
      HeatmapOptions_enableShades, HeatmapOptions_shadeIntensity,
      HeatmapOptions_colorScale, ensureBarOptions, ensurePieOptions,
      ensureRadialBarOptions, ensureHeatmapOptions;
    apply K; intros q ->; cbn [app];
    unfold assign_merged_or, merge_field, merged_entry;
    sk.
Qed.

(** C8: on a tree without [plotOptions], the constructor of the manager
    adds the empty mapping [plotOptions], no sub-key of a plot type and no
    instance.  The first call of an accessor makes one new instance, keeps
    it in the private field of that accessor and in no other, and leaves
    the tree as it is, without the sub-key.  Every later call of the
    accessor, after any builder operations, returns that instance and
    changes nothing, so it makes no second instance; the first call of
    another accessor makes another instance.  After the first setter of the
    component, [plotOptions] has the sub-key of its plot type, a mapping,
    and no other key. *)
Theorem PlotOptionsManager_lazy (t : plot_type) (c : Chart) (m : props) :
  _options c = VObj m → m !! "plotOptions" = None →
  let tree := VObj (<["plotOptions" := empty_obj]> m) in
  let c0 := MkChart tree empty_manager (created c) in
  let i := Instance (created c) in
  let c1 := MkChart tree (caching t i empty_manager) (S (created c)) in
  PlotOptionsManager_constructor c = (Ret (), c0)
  ∧ PlotOptionsManager_get t c0 = (Ret i, c1)
  ∧ cached t (plotOptions c1) = Some i
  ∧ (∀ t', t' ≠ t →
       cached t' (plotOptions c1) = None
       ∧ PlotOptionsManager_get t' c1
         = (Ret (Instance (S (created c))),
            MkChart tree (caching t' (Instance (S (created c))) (caching t i empty_manager))
              (S (S (created c)))))
  ∧ (∀ calls, let c2 := snd (Builder_calls calls c1) in
              PlotOptionsManager_get t c2 = (Ret i, c2))
  ∧ (∀ this call, plot_call_type call = t →
       ∃ pt, _options (snd (Plot_call this call c1))
             = VObj (<["plotOptions" := VObj {[ plot_key t := VObj pt ]}]> m)).
Proof.
  intros Hc Hm tree c0 i c1.
  assert (Hi : cached t (plotOptions c1) = Some i) by by destruct t.
  split; [by apply PlotOptionsManager_constructor_run|].
  split; [by rewrite PlotOptionsManager_get_first by by destruct t|].
  split; [done|]. split; [|split].
  - intros t' Ht'.
    assert (Hn : cached t' (plotOptions c1) = None) by by destruct t, t'.
    split; [done|]. by rewrite PlotOptionsManager_get_first.
  - intros calls c2. apply PlotOptionsManager_get_cached.
    by apply (remembers_Builder_calls t i calls c1).
  - intros this call Ht. by apply (sub_kept_Plot t m this call Ht c1).
Qed.

(** The accessor [bar()] on an empty tree, [pie()] after it, and the first
    setter of the bar options. *)
Lemma PlotOptionsManager_lazy_example :
  let tree := VObj {[ "plotOptions" := empty_obj ]} in
  let c0 := MkChart tree empty_manager 0 in
  let c1 := MkChart tree (Manager (Some (Instance 0)) None None None) 1 in
  PlotOptionsManager_constructor (MkChart (VObj ∅) empty_manager 0) = (Ret (), c0)
  ∧ PlotOptionsManager_get PBar c0 = (Ret (Instance 0), c1)
  ∧ PlotOptionsManager_get PPie c1
    = (Ret (Instance 1),
       MkChart tree (Manager (Some (Instance 0)) (Some (Instance 1)) None None) 2)
  ∧ (∀ calls, let c2 := snd (Builder_calls calls c1) in
              PlotOptionsManager_get PBar c2 = (Ret (Instance 0), c2))
  ∧ ∃ pt, _options (snd (Plot_call (Instance 0) (OfBar (BHorizontal true)) c1))
          = VObj {[ "plotOptions" := VObj {[ "bar" := VObj pt ]} ]}.
Proof.
  destruct (PlotOptionsManager_lazy PBar (MkChart (VObj ∅) empty_manager 0) ∅)
    as (H0 & H1 & _ & H2 & H3 & H4).
  - reflexivity.
  - reflexivity.
  - split; [exact H0|]. split; [exact H1|].
    split; [apply (H2 PPie); discriminate|].
    split; [exact H3|].
    apply (H4 (Instance 0) (OfBar (BHorizontal true))). reflexivity.
Defined.

(** ** The style of the labels of an axis *)

Lemma Axis_labels_mapping (a : axis_key) (c : Chart) (m ax l config : props) :
  _options c = VObj m →
  m !! axis_name a = Some (VObj ax) → ax !! "labels" = Some (VObj l) →
  Axis_labels (MkAxis a) config c
  = (Ret (MkAxis a),
     with_options
       (VObj (<[axis_name a := VObj (<["labels" := VObj (labels_after config l)]> ax)]> m))
       c).
Proof.
  intros Hc Hm Hl. destruct c as [o mg n]. cbn in Hc. subst o.
  unfold labels_after.
  destruct (config !! "style") as [st|] eqn:Es; [destruct (truthy st) eqn:Hs|];
    destruct a; cbn [axis_name] in *; unfold Axis_labels, getAxisConfig;
    cbn [axisType];
    (etransitivity; [exec|]); rewrite ?(idemp_L (∪)); reflexivity.
Qed.

Lemma finds_getAxisConfig ok p t :
  keeps (finds ok p)
    (λ r, r = Some [axis_name t] ∨ r = Some ["yaxis"; "0"] ∧ t = yaxis ∨ r = None)
    (getAxisConfig (MkAxis t)).
Proof.
  unfold getAxisConfig. destruct t; cbn [axisType axis_name].
  - eapply keeps_bind; [apply finds_load|]. intros _ _. apply keeps_ret. by left.
  - eapply keeps_bind; [apply finds_load|]. intros y _.
    destruct y as [| | | | | |items|]; try (apply keeps_ret; by left).
    destruct (0 <? length items)%nat; apply keeps_ret; auto.
Qed.

(** The setters of an axis other than [labels] keep the style of its
    labels. *)
Lemma style_Axis a t call :
  (∀ config, call ≠ ALabels config) →
  keeps (finds is_mapping [axis_name a; "labels"; "style"]) (λ _, True)
    (Axis_call (MkAxis t) call).
Proof.
  intros Hl. destruct call; try (by destruct (Hl config)); unfold_calls;
    (eapply keeps_bind; [apply finds_getAxisConfig|]);
    intros q [->|[[-> ->]| ->]]; destruct a; cbn [axis_name];
    try destruct t; cbn [axis_name]; fd st_map.
Qed.

Lemma styled_labels a config :
  tidy (OnAxis a (ALabels config)) = true →
  keeps (styled_axis a) (λ _, True) (Builder_call (OnAxis a (ALabels config))).
Proof.
  intros Ht c [Hs Hf]. split; [|done]. split; [by apply (kept_Builder _ c)|].
  destruct c as [o mg n]. unfold shaped in Hs. cbn [_options] in Hs, Hf.
  destruct Hs as (m & -> & Hk). destruct Hf as (v & Hv & st & ->).
  assert (∃ ax l, m !! axis_name a = Some (VObj ax) ∧ ax !! "labels" = Some (VObj l))
    as (ax & l & Hax & Hlb).
  { clear -Hk. cbn [scaffold axis_shape kids_of fits_kids fits] in Hk.
    destruct Hk as ((x & Hx & ax & -> & _ & (lx & Hl & l & -> & _) & _)
                    & (y & Hy & ay & -> & _ & (ly & Hl' & l' & -> & _) & _) & _).
    destruct a; cbn [axis_name]; eauto. }
  rewrite (get_path_own _ _ _ _ Hax), (get_path_own _ _ _ _ Hlb) in Hv.
  rewrite get_path_last in Hv by done.
  destruct (l !! "style") as [x|] eqn:Est; [|done]. cbn in Hv. injection Hv as ->.
  cbn [Builder_call Axis_call]. unfold done_, mbind, M_bind.
  rewrite (Axis_labels_mapping a (MkChart (VObj m) mg n) m ax l config eq_refl Hax Hlb).
  unfold mret, M_ret, finds. cbn [snd _options with_options].
  erewrite get_path_own by apply lk_ins. erewrite get_path_own by apply lk_ins.
  rewrite get_path_last by done. cbn [tidy] in Ht. unfold labels_after.
  destruct (config !! "style") as [st'|] eqn:Ec.
  - rewrite Ht, lk_ins. eexists. split; [reflexivity|]. by eexists.
  - rewrite lookup_union_r, Est by done. eexists. split; [reflexivity|]. by eexists.
Qed.

Lemma styled_other a (call : builder_call) :
  (∀ config, call ≠ OnAxis a (ALabels config)) →
  keeps (styled_axis a) (λ _, True) (Builder_call call).
Proof.
  intros N. apply keeps_and; [apply kept_Builder|].
  destruct (decide (axis_name a = top_key call)) as [E|NE];
    [|apply finds_other; cbn; congruence].
  destruct call as [call|t call|call|call|call|call|call|call|t|call];
    try (by destruct a); try (by destruct a, call).
  cbn [Builder_call]. unfold done_.
  eapply keeps_bind; [|intros; by apply keeps_ret].
  apply style_Axis. intros config ->. apply (N config).
  cbn [top_key] in E. by destruct a, t.
Qed.

Lemma styled_Builder a (call : builder_call) :
  tidy call = true → keeps (styled_axis a) (λ _, True) (Builder_call call).
Proof.
  intros Ht.
  destruct call as [call|t call|call|call|call|call|call|call|t|call];
    try (by apply styled_other).
  destruct call; try (by apply styled_other).
  destruct a, t; first [by apply styled_labels | by apply styled_other].
Qed.

Lemma styled_Builder_calls a calls :
  forallb tidy calls = true → keeps (styled_axis a) (λ _, True) (Builder_calls calls).
Proof.
  induction calls as [|call rest IH]; cbn [Builder_calls forallb]; intros H.
  - by apply keeps_ret.
  - apply andb_prop in H as [H1 H2].
    eapply keeps_bind; [by apply styled_Builder|]. intros; by apply IH.
Qed.

Lemma created_styled type a : styled_axis a (snd (Chart_create type)).
Proof.
  rewrite Chart_create_run. cbn [snd]. split; [apply fresh_tree_fits|].
  unfold finds. cbn [_options]. exists empty_obj. split; [|by eexists].
  destruct a, type; vm_compute; reflexivity.
Qed.

(** C10 (as it holds): [Chart.create] returns with the tree
    [fresh_tree type], in which the axes, the tooltip, the legend, the grid,
    the data labels, the markers, the theme and the plot options are
    scaffolded with empty mappings; after every sequence of builder
    operations the tree still has these keys and their scaffolded children,
    as mappings, the style of the axis labels as a key with any value; and
    the style of the labels of each axis is still a mapping when no
    operation of the sequence is [labels] with a style that is present and
    falsy. *)
Theorem scaffold_persists (type : ChartType) (calls : list builder_call) :
  Chart_create type = (Ret (), MkChart (VObj (fresh_tree type)) empty_manager 0)
  ∧ fits scaffold (_options (snd (Builder_calls calls (snd (Chart_create type)))))
  ∧ (forallb tidy calls = true →
     ∀ a, ∃ st,
       get_path (_options (snd (Builder_calls calls (snd (Chart_create type)))))
         [axis_name a; "labels"; "style"]
       = Ret (VObj st)).
Proof.
  split; [apply Chart_create_run|]. split.
  - apply kept_Builder_calls. rewrite Chart_create_run. apply fresh_tree_fits.
  - intros Ht a.
    destruct (styled_Builder_calls a calls Ht _ (created_styled type a))
      as [[_ (v & Hv & st & ->)] _].
    by exists st.
Qed.

(** A style for the labels of the x axis of a line chart, and a title. *)
Lemma scaffold_persists_example :
  ∃ st,
    get_path
      (_options (snd (Builder_calls
                        [OnAxis xaxis (ALabels {[ "style" := VObj {[ "colors" := VStr "red" ]} ]});
                         OnChart (CTitle "Sales")]
                        (snd (Chart_create line)))))
      ["xaxis"; "labels"; "style"]
    = Ret (VObj st).
Proof.
  refine (proj2 (proj2 (scaffold_persists line
           [OnAxis xaxis (ALabels {[ "style" := VObj {[ "colors" := VStr "red" ]} ]});
            OnChart (CTitle "Sales")])) _ xaxis).
  vm_compute. reflexivity.
Defined.

(** After [xaxis.labels({style: undefined})] on a created line chart the
    style of the labels of the x axis is [undefined], not a mapping. *)
Lemma labels_style_lost :
  get_path
    (_options (snd (Builder_calls [OnAxis xaxis (ALabels {[ "style" := VUndefined ]})]
                      (snd (Chart_create line)))))
    ["xaxis"; "labels"; "style"]
  = Ret VUndefined.
Proof. vm_compute. reflexivity. Qed.

(** ** The axis builder over a heap of objects *)

Import Heap.

Lemma within_refl T h : within T h h.
Proof. split; [done|]. by split. Qed.

Lemma within_alloc T h0 h o : within T h0 h → within T h0 (h ++ [o]).
Proof.
  intros (Hl & Hf & Hs). split; [rewrite length_app; lia|]. split.
  - intros r Hr HT. rewrite lookup_app_l by lia. by apply Hf.
  - intros r items Hr. rewrite lookup_app_l; [by apply Hs|].
    apply lookup_lt_Some in Hr. lia.
Qed.

(** A write under a name that is no index changes a mapping, and no
    sequence. *)
Lemma write_spec v k x h out h' :
  digit_first k = false → write v k x h = (out, h') →
  (h' = h ∧ out ≠ Ret ())
  ∨ ∃ r m, v = JRef r ∧ h !! r = Some (OMap m) ∧ out = Ret ()
           ∧ h' = <[r := OMap (<[k := x]> m)]> h.
Proof.
  intros Hk H. unfold write in H.
  destruct v as [| |b|n|s|id|r]; try (left; by simplify_eq);
    try (left; destruct (String.eqb k "__proto__"); by simplify_eq).
  destruct (h !! r) as [[items|m]|] eqn:E; try (left; by simplify_eq).
  - rewrite index_in_name in H by done. left. by simplify_eq.
  - destruct (String.eqb k "__proto__"); [left; by simplify_eq|].
    right. exists r, m. by simplify_eq.
Qed.

Lemma within_write T h0 h v k x :
  within T h0 h → digit_first k = false →
  (∀ r, v = JRef r → r ∈ T ∨ (length h0 ≤ r)%nat) →
  within T h0 (snd (write v k x h)).
Proof.
  intros (Hl & Hf & Hs) Hk Hv.
  destruct (write v k x h) as [out h'] eqn:E. cbn [snd].
  destruct (write_spec _ _ _ _ _ _ Hk E) as [[-> _]|(r & m & -> & Hr & -> & ->)];
    [done|].
  split; [by rewrite length_insert|]. split.
  - intros r' Hr' HT. rewrite list_lookup_insert_ne; [by apply Hf|].
    intros <-. destruct (Hv r eq_refl); [done|lia].
  - intros r' items Hr'. rewrite list_lookup_insert_ne; [by apply Hs|].
    intros <-. apply Hs in Hr'. congruence.
Qed.

Section Leads.
Context (F : heap → Prop).

Lemma leads_bind {A B : Type} P (m : H A) Q1 (f : A → H B) Q :
  leads F P m Q1 → (∀ a, leads F (Q1 a) (f a) Q) → leads F P (m ≫= f) Q.
Proof.
  intros Hm Hf h Hh. specialize (Hm h Hh). unfold mbind, H_bind.
  destruct (m h) as [[a|e] h1]; [|done]. by apply Hf.
Qed.

Lemma leads_ret {A : Type} (P : heap → Prop) (a : A) (Q : A → heap → Prop) :
  (∀ h, P h → Q a h) → leads F P (mret a) Q.
Proof. intros H h Hh. by apply H. Qed.

Lemma leads_mono {A : Type} (P P' : heap → Prop) (m : H A) (Q Q' : A → heap → Prop) :
  leads F P' m Q' → (∀ h, P h → P' h) → (∀ a h, Q' a h → Q a h) → leads F P m Q.
Proof.
  intros Hm HP HQ h Hh. specialize (Hm h (HP h Hh)).
  destruct (m h) as [[a|e] h1]; [by apply HQ|done].
Qed.

Lemma leads_when P (b : bool) body (Q : unit → heap → Prop) :
  (b = true → leads F P body Q) → (b = false → ∀ h, P h → Q () h) →
  leads F P (when b body) Q.
Proof. destruct b; intros H1 H2; [by apply H1|]. apply leads_ret. by apply H2. Qed.

(** A step that leaves the heap as it is. *)
Lemma leads_still {A : Type} (P : heap → Prop) (m : H A) :
  (∀ h, snd (m h) = h) → (∀ h, P h → F h) →
  leads F P m (λ a h, P h ∧ fst (m h) = Ret a).
Proof.
  intros Hs HF h Hh. specialize (Hs h).
  destruct (m h) as [[a|e] h1] eqn:E; cbn [snd] in Hs; subst h1.
  - split; [done|]. by rewrite E.
  - by apply HF.
Qed.
End Leads.

Section Frame.
Context (T : list ref) (h0 : heap).

Local Abbreviation F := (within T h0).
Local Abbreviation mine := (mine T h0).

Lemma leads_read P v k :
  (∀ h, P h → F h) → leads F P (read v k) (λ a h, P h ∧ fst (read v k h) = Ret a).
Proof. intros HF. by apply leads_still. Qed.

Lemma leads_write P v k x :
  (∀ h, P h → F h) → digit_first k = false → mine v →
  leads F P (write v k x) (λ _ h, F h).
Proof.
  intros HF Hk Hv h Hh.
  pose proof (within_write T h0 h v k x (HF h Hh) Hk Hv) as W.
  by destruct (write v k x h) as [[[]|e] h'].
Qed.

Lemma leads_alloc (P : heap → Prop) o :
  (∀ h, P h → F h) →
  leads F P (alloc o)
    (λ a h', ∃ h, h' = h ++ [o] ∧ a = JRef (length h) ∧ P h).
Proof. intros HF h Hh. cbn. by exists h. Qed.

Lemma leads_or_new (P : heap → Prop) v :
  (∀ h, P h → F h) → (∀ h o, P h → P (h ++ [o])) → mine v →
  leads F P (or_new v) (λ a h, P h ∧ mine a).
Proof.
  intros HF HP Hv h Hh. unfold or_new. destruct (truthy v); cbn; [done|].
  split; [by apply HP|]. intros r [= <-]. right.
  by destruct (HF h Hh) as [? _].
Qed.

Lemma leads_or_new_any (P : heap → Prop) v :
  (∀ h, P h → F h) → (∀ h o, P h → P (h ++ [o])) →
  leads F P (or_new v) (λ a h, P h).
Proof.
  intros HF HP h Hh. unfold or_new. destruct (truthy v); cbn; [done|].
  by apply HP.
Qed.

Lemma leads_merge (P : heap → Prop) a b :
  (∀ h, P h → F h) → (∀ h o, P h → P (h ++ [o])) →
  leads F P (merge a b) (λ v h, P h ∧ ∃ n, v = JRef n ∧ (length h0 ≤ n)%nat).
Proof.
  intros HF HP h Hh. unfold merge, mbind, H_bind, spread, alloc.
  split; [by apply HP|]. eexists. split; [done|]. by destruct (HF h Hh) as [? _].
Qed.

Lemma F_alloc h o : F h → F (h ++ [o]).
Proof. apply within_alloc. Qed.

(** [target.k = target.k || {}] for a target of [T]. *)
Lemma leads_ensure target k :
  digit_first k = false → mine target → leads F F (ensure target k) (λ _ h, F h).
Proof.
  intros Hk Ht. unfold ensure.
  eapply leads_bind; [by apply leads_read|]. intros old.
  eapply leads_bind.
  { eapply leads_mono; [apply (leads_or_new_any F); [done|apply F_alloc]|by intros ? []|].
    intros a h Hh. exact Hh. }
  intros new. by apply leads_write.
Qed.

Lemma leads_merge_into target k config :
  digit_first k = false → mine target →
  leads F F (merge_into target k config) (λ _ h, F h).
Proof.
  intros Hk Ht. unfold merge_into.
  eapply leads_bind; [by apply leads_read|]. intros old.
  eapply leads_bind.
  { eapply leads_mono; [apply (leads_or_new_any F); [done|apply F_alloc]|by intros ? []|].
    intros a h Hh. exact Hh. }
  intros old'.
  eapply leads_bind; [apply (leads_merge F); [done|apply F_alloc]|].
  intros new. eapply leads_mono; [by apply (leads_write F)|by intros ? []|done].
Qed.
End Frame.

Lemma read_still v k h : snd (read v k h) = h.
Proof. done. Qed.

Lemma getAxisConfig_still this h : snd (getAxisConfig this h) = h.
Proof.
  unfold getAxisConfig. destruct (axisType this); [done|].
  unfold mbind, H_bind. destruct (read _ "yaxis" h) as [[y|e] h1] eqn:E.
  - pose proof (read_still (JRef (options this)) "yaxis" h) as Hs.
    rewrite E in Hs. cbn [snd] in Hs. subst h1.
    unfold isArray, choose.
    destruct y as [| | | | | |r]; try done.
    destruct (h !! r) as [[items|fields]|] eqn:Er; try done.
    unfold read at 1. rewrite Er.
    destruct (get_item array_members items "length"); [|done].
    by destruct (positive _).
  - pose proof (read_still (JRef (options this)) "yaxis" h) as Hs.
    by rewrite E in Hs.
Qed.

Lemma index_in_zero n : index_in (S n) "0" = Some 0%nat.
Proof.
  unfold index_in. cbn [index_from].
  by replace (key_of_index 0) with "0" by (vm_compute; reflexivity).
Qed.

(** The axis of a sequence of axes is its element 0, and none when the
    sequence is empty. *)
Lemma getAxisConfig_sequence this h m s items :
  axisType this = yaxis → h !! options this = Some (OMap m) →
  m !! "yaxis" = Some (JRef s) → h !! s = Some (OSeq items) →
  getAxisConfig this h = (Ret (default JUndefined (items !! 0)), h).
Proof.
  intros Ht Ho Hy Hs. unfold getAxisConfig. rewrite Ht.
  unfold mbind, H_bind, read at 1. rewrite Ho, Hy.
  unfold isArray. rewrite Hs. unfold choose, read at 1. rewrite Hs.
  destruct items as [|x rest]; [done|].
  unfold get_item. cbn [length]. rewrite index_in_name by done.
  cbn [String.eqb Ascii.eqb Bool.eqb positive].
  replace (0 <? Z.of_nat (S (length rest)))%Z with true by (symmetry; apply Z.ltb_lt; lia).
  unfold read. rewrite Hs. unfold get_item. cbn [length].
  by rewrite index_in_zero.
Qed.

(** The axis of a slot that is one mapping is the slot. *)
Lemma getAxisConfig_mapping this h m l a :
  axisType this = yaxis → h !! options this = Some (OMap m) →
  m !! "yaxis" = Some (JRef l) → h !! l = Some (OMap a) →
  getAxisConfig this h = (Ret (JRef l), h).
Proof.
  intros Ht Ho Hy Hl. unfold getAxisConfig. rewrite Ht.
  unfold mbind, H_bind, read at 1. rewrite Ho, Hy.
  unfold isArray. by rewrite Hl.
Qed.

Lemma leads_frame T h {A : Type} (m : H A) :
  leads (within T h) (within T h) m (λ _ h', within T h h') →
  within T h (snd (m h)).
Proof.
  intros Hm. specialize (Hm h (within_refl T h)).
  by destruct (m h) as [[a|e] h'].
Qed.

(** The body of a setter that has resolved its axis. *)
Lemma setter_frame T h this l (body : jsval → H unit) :
  getAxisConfig this h = (Ret (JRef l), h) →
  leads (within T h) (within T h) (body (JRef l)) (λ _ h', within T h h') →
  within T h
    (snd ((axisConfig ← getAxisConfig this;
           when (truthy axisConfig) (body axisConfig);;
           mret this) h)).
Proof.
  intros Hg Hb. unfold mbind, H_bind. rewrite Hg. cbn [truthy when].
  specialize (Hb h (within_refl T h)).
  by destruct (body (JRef l) h) as [[[]|e] h'].
Qed.

Section SetterFrame.
Context (this : Axis) (h : heap) (l : ref) (a : gmap string jsval).
Context (Hg : getAxisConfig this h = (Ret (JRef l), h)).
Context (Hl : h !! l = Some (OMap a)).

Lemma mine_axis : mine [l] h (JRef l).
Proof. intros r Hr. injection Hr as <-. left. apply list_elem_of_here. Qed.

Lemma Axis_categories_within categories :
  within [l] h (snd (Axis_categories this categories h)).
Proof.
  apply (setter_frame [l] h this l (λ axisConfig, write axisConfig "categories" categories) Hg).
  apply leads_write; [done|done|apply mine_axis].
Qed.

Lemma Axis_type_within type :
  within [l] h (snd (Axis_type this type h)).
Proof.
  apply (setter_frame [l] h this l
           (λ axisConfig, write axisConfig "type" (JStr (AxisType_name type))) Hg).
  apply leads_write; [done|done|apply mine_axis].
Qed.

Lemma Axis_tickAmount_within amount :
  within [l] h (snd (Axis_tickAmount this amount h)).
Proof.
  apply (setter_frame [l] h this l
           (λ axisConfig, write axisConfig "tickAmount" (JNum amount)) Hg).
  apply leads_write; [done|done|apply mine_axis].
Qed.

Lemma Axis_range_within min max :
  within [l] h (snd (Axis_range this min max h)).
Proof.
  apply (setter_frame [l] h this l
           (λ axisConfig, write axisConfig "min" (JNum min);;
                          write axisConfig "max" (JNum max)) Hg).
  eapply leads_bind; [apply leads_write; [done|done|apply mine_axis]|].
  intros u. apply leads_write; [done|done|apply mine_axis].
Qed.

Lemma Axis_axisBorder_within config :
  within [l] h (snd (Axis_axisBorder this config h)).
Proof.
  apply (setter_frame [l] h this l
           (λ axisConfig, merge_into axisConfig "axisBorder" config) Hg).
  apply leads_merge_into; [done|apply mine_axis].
Qed.

Lemma Axis_axisTicks_within config :
  within [l] h (snd (Axis_axisTicks this config h)).
Proof.
  apply (setter_frame [l] h this l
           (λ axisConfig, merge_into axisConfig "axisTicks" config) Hg).
  apply leads_merge_into; [done|apply mine_axis].
Qed.

Lemma Axis_crosshairs_within config :
  within [l] h (snd (Axis_crosshairs this config h)).
Proof.
  apply (setter_frame [l] h this l
           (λ axisConfig, merge_into axisConfig "crosshairs" config) Hg).
  apply leads_merge_into; [done|apply mine_axis].
Qed.

(** [title] writes into the title of the axis, not into the axis. *)
Lemma Axis_title_within text :
  within (written (ATitle text) l a) h (snd (Axis_title this text h)).
Proof.
  unfold Axis_title, mbind, H_bind. rewrite Hg.
  unfold read_opt. cbn [nullish]. unfold read at 1. rewrite Hl.
  cbn [written].
  destruct (a !! "title") as [t|] eqn:Et.
  - unfold when. destruct (truthy t) eqn:Ett; [|apply within_refl].
    unfold read at 1. rewrite Hl, Et.
    pose proof (within_write
                  match t with JRef r => [r] | _ => [] end
                  h h t "text" (JStr text)) as W.
    destruct (write t "text" (JStr text) h) as [[[]|e] h'] eqn:E; cbn [snd] in *;
      apply W; try apply within_refl; try done;
      intros r ->; left; apply list_elem_of_here.
  - replace (absent [] "title") with (Ret JUndefined) by (vm_compute; reflexivity).
    apply within_refl.
Qed.
End SetterFrame.

Lemma leads_assume F {A : Type} (φ : Prop) (P : heap → Prop) (m : H A) Q :
  (φ → leads F P m Q) → leads F (λ h, P h ∧ φ) m Q.
Proof. intros Hm h [Hh Hφ]. by apply Hm. Qed.

Lemma labels_at_alloc l n h o : labels_at l n h → labels_at l n (h ++ [o]).
Proof.
  intros (ml & Hl & Hn). exists ml. split; [|done].
  rewrite lookup_app_l; [done|]. by apply lookup_lt_Some in Hl.
Qed.

Lemma labels_at_write l n h k x :
  labels_at l n h → n ≠ l → digit_first k = false →
  labels_at l n (snd (write (JRef n) k x h)).
Proof.
  intros (ml & Hl & Hn) Hne Hk.
  destruct (write (JRef n) k x h) as [out h'] eqn:E. cbn [snd].
  destruct (write_spec _ _ _ _ _ _ Hk E) as [[-> _]|(r & m & [= <-] & Hr & -> & ->)].
  - by exists ml.
  - exists ml. split; [|done]. by rewrite list_lookup_insert_ne.
Qed.

Section LabelsFrame.
Context (this : Axis) (h : heap) (l : ref) (a : gmap string jsval).
Context (Hg : getAxisConfig this h = (Ret (JRef l), h)).
Context (Hl : h !! l = Some (OMap a)).

Local Abbreviation F := (within [l] h).
Local Abbreviation P := (λ n h1, within [l] h h1 ∧ labels_at l n h1).

Lemma P_alloc n h1 o : P n h1 → P n (h1 ++ [o]).
Proof. intros [? ?]. split; [by apply within_alloc|by apply labels_at_alloc]. Qed.

Lemma P_write n h1 k x :
  (length h ≤ n)%nat → digit_first k = false → P n h1 →
  P n (snd (write (JRef n) k x h1)).
Proof.
  intros Hn Hk [HF HL]. split.
  - apply within_write; [done|done|]. intros r [= <-]. by right.
  - apply labels_at_write; [done| |done]. apply lookup_lt_Some in Hl. lia.
Qed.

Lemma leads_write_P n k x :
  (length h ≤ n)%nat → digit_first k = false →
  leads F (P n) (write (JRef n) k x) (λ _ h1, P n h1).
Proof.
  intros Hn Hk h1 Hh1. pose proof (P_write n h1 k x Hn Hk Hh1) as W.
  destruct (write (JRef n) k x h1) as [[[]|e] h'];  cbn [snd] in W; [done|].
  by destruct W.
Qed.

Lemma leads_write_labels n :
  leads F F (write (JRef l) "labels" (JRef n)) (λ _ h1, P n h1).
Proof.
  intros h1 Hh1.
  pose proof (within_write [l] h h1 (JRef l) "labels" (JRef n) Hh1 eq_refl
                (mine_axis h l)) as W.
  destruct (write (JRef l) "labels" (JRef n) h1) as [out h'] eqn:E. cbn [snd] in W.
  destruct (write_spec (JRef l) "labels" (JRef n) h1 out h' eq_refl E)
    as [[-> Ho]|(r & m & [= <-] & Hr & -> & ->)].
  - destruct out as [[]|e]; done.
  - split; [done|]. exists (<["labels" := JRef n]> m). split.
    + apply list_lookup_insert_eq. by apply lookup_lt_Some in Hr.
    + apply lookup_insert_eq.
Qed.

Lemma leads_read_labels n :
  leads F (P n) (read (JRef l) "labels") (λ v h1, P n h1 ∧ v = JRef n).
Proof.
  intros h1 [HF (ml & Hml & Hn)]. unfold read. rewrite Hml, Hn.
  split; [|done]. split; [done|]. by exists ml.
Qed.

Lemma Axis_labels_within config :
  within [l] h (snd (Axis_labels this config h)).
Proof.
  apply (setter_frame [l] h this l
           (λ axisConfig,
              ensure axisConfig "labels";;
              old ← read axisConfig "labels";
              new ← merge old config;
              write axisConfig "labels" new;;
              style ← read config "style";
              when (truthy style)
                (labels ← read axisConfig "labels";
                 ensure labels "style";;
                 labels ← read axisConfig "labels";
                 old ← read labels "style";
                 style ← read config "style";
                 new ← merge old style;
                 write labels "style" new)) Hg).
  eapply leads_bind; [apply leads_ensure; [done|apply mine_axis]|]. intros u.
  eapply leads_bind; [by apply leads_read|]. intros old.
  eapply leads_bind.
  { eapply leads_mono; [apply (leads_merge [l] h F); [done|apply within_alloc]|
                        by intros ? []|].
    intros v h1 Hv. exact Hv. }
  intros new. apply leads_assume. intros (n & -> & Hn).
  eapply leads_bind; [apply leads_write_labels|]. intros u'.
  eapply leads_bind; [apply (leads_read [l] h (P n)); by intros ? []|]. intros style.
  apply leads_when; [intros _|by intros _ ? [[? ?] _]].
  eapply leads_mono; [|intros h1 [Hh1 _]; exact Hh1|intros u3 h1 Hq; exact Hq].
  eapply leads_bind; [apply leads_read_labels|]. intros labels.
  apply leads_assume. intros ->.
  eapply leads_bind.
  { unfold ensure.
    eapply leads_bind; [apply (leads_read [l] h (P n)); by intros ? []|]. intros o1.
    eapply leads_bind.
    { eapply leads_mono;
        [apply (leads_or_new_any [l] h (P n)); [by intros ? []|apply P_alloc]|
         by intros ? []|].
      intros v h1 Hv. exact Hv. }
    intros o2. by apply leads_write_P. }
  intros u2.
  eapply leads_bind; [apply leads_read_labels|]. intros labels.
  apply leads_assume. intros ->.
  eapply leads_bind; [apply (leads_read [l] h (P n)); by intros ? []|]. intros o1.
  eapply leads_bind.
  { eapply leads_mono; [apply (leads_read [l] h (P n)); by intros ? []|by intros ? []|].
    intros v h1 Hv. exact Hv. }
  intros st.
  eapply leads_bind.
  { eapply leads_mono;
      [apply (leads_merge [l] h (P n)); [by intros ? []|apply P_alloc]|by intros ? []|].
    intros v h1 Hv. exact Hv. }
  intros new.
  eapply leads_mono; [apply (leads_write [l] h (P n)); [by intros ? []|done|]| |done].
  - intros r [= <-]. by right.
  - by intros h1 [? _].
Qed.
End LabelsFrame.

(** What a setter leaves alone: with the axis resolved to the mapping at
    [l], the heap grows, no sequence changes, and no mapping other than
    the one the setter writes into changes. *)
Lemma Axis_call_within this call h l a :
  getAxisConfig this h = (Ret (JRef l), h) → h !! l = Some (OMap a) →
  within (written call l a) h (snd (Axis_call this call h)).
Proof.
  intros Hg Hl. destruct call; cbn [Axis_call written].
  - by apply (Axis_title_within this h l a).
  - by apply (Axis_categories_within this h l).
  - by apply (Axis_type_within this h l).
  - by apply (Axis_labels_within this h l a).
  - by apply (Axis_range_within this h l).
  - by apply (Axis_tickAmount_within this h l).
  - by apply (Axis_axisBorder_within this h l).
  - by apply (Axis_axisTicks_within this h l).
  - by apply (Axis_crosshairs_within this h l).
Qed.

(** A setter on an axis that resolves to a falsy value does nothing. *)
Lemma Axis_call_none this call h v :
  getAxisConfig this h = (Ret v, h) → truthy v = false →
  Axis_call this call h = (Ret this, h).
Proof.
  intros Hg Hv.
  assert (read_opt v "title" h = (Ret JUndefined, h)) as Ht.
  { destruct v as [| |b|z|s|id|r]; cbn [truthy] in Hv.
    - done.
    - done.
    - by subst b.
    - apply negb_false_iff, Z.eqb_eq in Hv. by subst z.
    - apply negb_false_iff, String.eqb_eq in Hv. by subst s.
    - done.
    - done. }
  destruct call; cbn [Axis_call];
    unfold Axis_title, Axis_categories, Axis_type, Axis_labels, Axis_range,
      Axis_tickAmount, Axis_axisBorder, Axis_axisTicks, Axis_crosshairs,
      mbind, H_bind;
    rewrite Hg; [by rewrite Ht|by rewrite Hv..].
Qed.

Lemma H_run_bind {A B : Type} (m : H A) (f : A → H B) h a h' :
  m h = (Ret a, h') → (m ≫= f) h = f a h'.
Proof. intros E. unfold mbind, H_bind. by rewrite E. Qed.

Section Past.
Context (hb : heap) (n : ref) (Hn : length hb = n).

Lemma lookup_past l i : (hb ++ l) !! (n + i)%nat = l !! i.
Proof. subst n. rewrite lookup_app_r by lia. f_equal. lia. Qed.

Lemma insert_past l i (x : object) : <[(n + i)%nat := x]> (hb ++ l) = hb ++ <[i := x]> l.
Proof. subst n. apply insert_app_r. Qed.

Lemma alloc_past l o :
  alloc o (hb ++ l) = (Ret (JRef (n + length l)), hb ++ (l ++ [o])).
Proof. unfold alloc. by rewrite length_app, Hn, app_assoc. Qed.

(** [target.k = target.k || {}] where the target, made last, has no [k]:
    a new mapping comes under [k]. *)
Lemma ensure_past l r i fields k :
  r = (n + i)%nat →
  l !! i = Some (OMap fields) → fields !! k = None →
  inherited [] k = false → String.eqb k "__proto__" = false →
  ensure (JRef r) k (hb ++ l)
  = (Ret (), hb ++ (<[i := OMap (<[k := JRef (n + length l)]> fields)]> l ++ [OMap ∅])).
Proof.
  intros -> Hi Hk Hin Hp. unfold ensure.
  erewrite H_run_bind; cycle 1.
  { unfold read. by rewrite lookup_past, Hi, Hk; unfold absent; rewrite Hin. }
  unfold or_new. cbn [truthy].
  erewrite H_run_bind by apply alloc_past.
  unfold write. rewrite lookup_past, lookup_app_l_Some with (x := OMap fields) by done.
  rewrite Hp, insert_past, insert_app_l; [done|]. by apply lookup_lt_Some in Hi.
Qed.

Lemma read_past l r i fields k x :
  r = (n + i)%nat →
  l !! i = Some (OMap fields) → fields !! k = Some x →
  read (JRef r) k (hb ++ l) = (Ret x, hb ++ l).
Proof. intros -> Hi Hk. unfold read. by rewrite lookup_past, Hi, Hk. Qed.
End Past.

(** The constructor on an empty sequence of axes: one mapping is made and
    pushed, and it is then given the children of an axis. *)
Lemma Axis_constructor_pushes o h m s :
  h !! o = Some (OMap m) → m !! "yaxis" = Some (JRef s) → h !! s = Some (OSeq []) →
  Axis_constructor o yaxis h
  = (Ret (MkAxis o yaxis),
     <[s := OSeq [JRef (length h)]]> h ++ new_objects (length h)).
Proof.
  intros Ho Hy Hs. unfold Axis_constructor. cbv beta iota zeta.
  assert (o ≠ s) as Hos by congruence.
  pose proof (lookup_lt_Some _ _ _ Hs) as Hls.
  pose proof (lookup_lt_Some _ _ _ Ho) as Hlo.
  set (n := length h).
  set (hb := <[s := OSeq [JRef n]]> h).
  assert (length hb = n) as Hn by apply length_insert.
  erewrite H_run_bind; cycle 1.
  { erewrite H_run_bind by (unfold read; by rewrite Ho, Hy).
    cbn [truthy negb choose].
    erewrite H_run_bind by (unfold isArray; by rewrite Hs).
    cbn [when].
    rewrite (H_run_bind _ _ h (JNum 0) h) by (unfold read; by rewrite Hs).
    cbn [zero Z.eqb when].
    rewrite (H_run_bind _ _ h (JRef n) (h ++ [OMap ∅])) by done.
    unfold push. rewrite lookup_app_l_Some with (x := OSeq []) by done.
    rewrite insert_app_l by done. reflexivity. }
  fold n hb.
  erewrite H_run_bind; cycle 1.
  { apply (getAxisConfig_sequence (MkAxis o yaxis) _ m s [JRef n]); [done| |done|].
    - cbn [options]. apply lookup_app_l_Some. unfold hb.
      by rewrite list_lookup_insert_ne.
    - apply lookup_app_l_Some. unfold hb. by apply list_lookup_insert_eq. }
  cbn [default lookup list_lookup]. unfold id. cbn [truthy when app]. fold hb.
  erewrite H_run_bind; cycle 1.
  { erewrite H_run_bind
      by (apply (ensure_past hb n Hn _ n 0%nat ∅ "title"); [lia|done..]).
    cbn [length insert list_insert app].
    erewrite H_run_bind
      by (eapply (ensure_past hb n Hn _ n 0%nat _ "labels"); [lia|done..]).
    cbn [length insert list_insert app].
    erewrite H_run_bind
      by (eapply (read_past hb n Hn _ n 0%nat _ "labels"); [lia|done..]).
    erewrite H_run_bind
      by (eapply (ensure_past hb n Hn _ (n + 2)%nat 2%nat _ "style"); [lia|done..]).
    cbn [length insert list_insert app].
    erewrite H_run_bind
      by (eapply (ensure_past hb n Hn _ n 0%nat _ "axisBorder"); [lia|done..]).
    cbn [length insert list_insert app].
    erewrite H_run_bind
      by (eapply (ensure_past hb n Hn _ n 0%nat _ "axisTicks"); [lia|done..]).
    cbn [length insert list_insert app].
    eapply (ensure_past hb n Hn _ n 0%nat _ "crosshairs"); [lia|done..]. }
  cbn [length insert list_insert app]. unfold new_objects, new_axis.
  reflexivity.
Qed.

(** C4 (as it holds): for the [yaxis] slot of the options object.  When
    the slot is a sequence, the axis builder resolves to its element 0,
    and to nothing when the sequence is empty.  Constructing the builder
    on an empty sequence makes one new mapping, pushes it, and then gives
    it the children of an axis (title, labels with their style,
    axisBorder, axisTicks, crosshairs), each a new mapping; until then
    every setter does nothing.  When element 0 is a mapping, a setter
    (title, categories, type, labels, range, tickAmount, axisBorder,
    axisTicks, crosshairs) leaves every sequence as it is, so it adds no
    element, and changes no object that exists other than element 0 (for
    [title]: other than the title of element 0); what it makes is new.
    The same holds of the slot itself when it is one mapping.  An element
    at index 1 or beyond is therefore unchanged unless it is that same
    object. *)
Theorem yaxis_first_element (this : Axis) (call : axis_call) (h : heap)
    (m : gmap string jsval) :
  axisType this = yaxis →
  h !! options this = Some (OMap m) →
  (∀ s items, m !! "yaxis" = Some (JRef s) → h !! s = Some (OSeq items) →
     getAxisConfig this h = (Ret (default JUndefined (items !! 0%nat)), h)
     ∧ (items = [] →
        Axis_constructor (options this) yaxis h
        = (Ret this, <[s := OSeq [JRef (length h)]]> h ++ new_objects (length h))
        ∧ Axis_call this call h = (Ret this, h))
     ∧ (∀ l a, items !! 0%nat = Some (JRef l) → h !! l = Some (OMap a) →
          within (written call l a) h (snd (Axis_call this call h))))
  ∧ (∀ l a, m !! "yaxis" = Some (JRef l) → h !! l = Some (OMap a) →
       getAxisConfig this h = (Ret (JRef l), h)
       ∧ within (written call l a) h (snd (Axis_call this call h))).
Proof.
  intros Ht Ho. split.
  - intros s items Hy Hs.
    pose proof (getAxisConfig_sequence this h m s items Ht Ho Hy Hs) as Hg.
    split; [done|]. split.
    + intros ->. split.
      * destruct this as [o t]. cbn [axisType options] in *. subst t.
        by apply (Axis_constructor_pushes o h m s).
      * by apply (Axis_call_none this call h JUndefined).
    + intros l a H0 Hl. rewrite H0 in Hg. by apply Axis_call_within.
  - intros l a Hy Hl.
    pose proof (getAxisConfig_mapping this h m l a Ht Ho Hy Hl) as Hg.
    split; [done|]. by apply Axis_call_within.
Qed.

Lemma yaxis_first_element_example :
  let h := [OMap {[ "yaxis" := JRef 1 ]}; OSeq [JRef 2; JRef 3];
            OMap {[ "min" := JNum 1 ]}; OMap {[ "min" := JNum 5 ]}] in
  let h' := snd (Axis_call (MkAxis 0 yaxis) (ARange 0 10) h) in
  h' !! 1%nat = Some (OSeq [JRef 2; JRef 3])
  ∧ h' !! 2%nat = Some (OMap {[ "min" := JNum 0; "max" := JNum 10 ]})
  ∧ h' !! 3%nat = Some (OMap {[ "min" := JNum 5 ]}).
Proof.
  intros h h'.
  destruct (yaxis_first_element (MkAxis 0 yaxis) (ARange 0 10) h
              {[ "yaxis" := JRef 1 ]} eq_refl eq_refl) as [Hseq _].
  destruct (Hseq 1%nat [JRef 2; JRef 3] eq_refl eq_refl) as (_ & _ & Hw).
  destruct (Hw 2%nat {[ "min" := JNum 1 ]} eq_refl eq_refl) as (_ & Hf & Hs).
  split; [by apply Hs|]. split; [vm_compute; reflexivity|].
  fold h'. rewrite Hf; [done|cbn; lia|].
  cbn [written]. intros Hin. apply list_elem_of_singleton in Hin. lia.
Defined.

(** An element at index 1 that is the object at index 0 changes with it,
    as when the caller has filled the sequence with one mapping; and the
    mapping that the constructor pushes on an empty sequence does not stay
    empty. *)
Lemma yaxis_shared_element :
  (let h := [OMap {[ "yaxis" := JRef 1 ]}; OSeq [JRef 2; JRef 2]; OMap ∅] in
   let h' := snd (Axis_call (MkAxis 0 yaxis) (ARange 0 10) h) in
   h !! 1%nat = Some (OSeq [JRef 2; JRef 2])
   ∧ h !! 2%nat = Some (OMap ∅)
   ∧ h' !! 1%nat = Some (OSeq [JRef 2; JRef 2])
   ∧ h' !! 2%nat = Some (OMap {[ "min" := JNum 0; "max" := JNum 10 ]}))
  ∧ (let h := [OMap {[ "yaxis" := JRef 1 ]}; OSeq []] in
     let h' := snd (Axis_constructor 0 yaxis h) in
     h' !! 1%nat = Some (OSeq [JRef 2])
     ∧ h' !! 2%nat = Some (OMap (new_axis 2))
     ∧ new_axis 2 !! "title" = Some (JRef 3)).
Proof. vm_compute. repeat split; reflexivity. Qed.
